(** * requeststore: a shallow embedding of the store engine and its wire codec

    The Go package [requeststore] persists HTTP requests and responses on a
    pluggable virtual filesystem.  This development embeds
    - the Go standard-library routines the package calls ([strings],
      [strconv], [net/textproto], [net/http] header serialisation),
    - the filesystem interface [vfs.VFS] as a type class, with an in-memory
      instance,
    - the store operations of [external.go] and the response entity of
      [response.go],
    and proves the properties the specification states about them. *)

From Stdlib Require Import ZArith Ascii String List Lia Bool.
From Stdlib Require Import Decimal DecimalString DecimalZ.
From stdpp Require Import base option strings list gmap sorting.

Open Scope string_scope.

(** ** Go strings

    A Go [string] is a finite sequence of bytes; it is embedded as a Rocq
    [string] (a list of 8-bit [ascii] characters). *)

Module GoStrings.

Definition CR : ascii := "013"%char.
Definition LF : ascii := "010"%char.
Definition TAB : ascii := "009"%char.
Definition SP : ascii := " "%char.
Definition CRLF : string := String CR (String LF "").

Definition is_upper (c : ascii) : bool := (("A" <=? c) && (c <=? "Z"))%char.
Definition is_lower (c : ascii) : bool := (("a" <=? c) && (c <=? "z"))%char.
Definition is_digit (c : ascii) : bool := (("0" <=? c) && (c <=? "9"))%char.
Definition is_letter (c : ascii) : bool := is_upper c || is_lower c.

(** [c + ('a' - 'A')] and [c - ('a' - 'A')] on a byte. *)
Definition lower_byte (c : ascii) : ascii :=
  if is_upper c then ascii_of_nat (nat_of_ascii c + 32) else c.
Definition upper_byte (c : ascii) : ascii :=
  if is_lower c then ascii_of_nat (nat_of_ascii c - 32) else c.

Fixpoint map_bytes (f : ascii -> ascii) (s : string) : string :=
  match s with
  | "" => ""
  | String c r => String (f c) (map_bytes f r)
  end.

Fixpoint all_bytes (p : ascii -> bool) (s : string) : bool :=
  match s with
  | "" => true
  | String c r => p c && all_bytes p r
  end.

(** [strings.ToLower] on strings of ASCII bytes. *)
Definition ascii_ToLower (s : string) : string := map_bytes lower_byte s.

(** [strings.HasPrefix s p]. *)
Definition HasPrefix (s p : string) : bool := String.prefix p s.

(** [strings.Contains s substr]. *)
Fixpoint Contains (s substr : string) : bool :=
  HasPrefix s substr ||
  match s with
  | "" => false
  | String _ r => Contains r substr
  end.

(** [bytes.Cut] / [strings.Cut] with a one-byte separator: the text before
    and after the first occurrence of [sep]. *)
Fixpoint cut_byte (sep : ascii) (s : string) : option (string * string) :=
  match s with
  | "" => None
  | String c r =>
      if Ascii.eqb c sep then Some ("", r)
      else match cut_byte sep r with
           | Some (a, b) => Some (String c a, b)
           | None => None
           end
  end.

(** [strings.SplitN s sep n] for a one-byte separator and [n >= 0]: the
    pieces between the first [n-1] separators, the last piece being the
    unsplit remainder. *)
Fixpoint SplitN (s : string) (sep : ascii) (n : nat) : list string :=
  match n with
  | O => []
  | S O => [s]
  | S n' =>
      match cut_byte sep s with
      | Some (a, rest) => a :: SplitN rest sep n'
      | None => [s]
      end
  end.

(** Dropping a leading and a trailing run of bytes satisfying [p]. *)
Fixpoint trim_left (p : ascii -> bool) (s : string) : string :=
  match s with
  | "" => ""
  | String c r => if p c then trim_left p r else s
  end.

Fixpoint trim_right (p : ascii -> bool) (s : string) : string :=
  match s with
  | "" => ""
  | String c r =>
      match trim_right p r with
      | "" => if p c then "" else String c ""
      | r' => String c r'
      end
  end.

(** [fmt.Sprintf("%d", z)]. *)
Definition Itoa (z : Z) : string := NilZero.string_of_int (Z.to_int z).

Definition minInt : Z := - 2 ^ 63.
Definition maxInt : Z := 2 ^ 63 - 1.

(** [strconv.Atoi]: an optional sign, then one or more decimal digits; a
    value outside the 64-bit [int] range is an error. *)
Definition Atoi (s : string) : option Z :=
  let '(neg, digits) :=
    match s with
    | String "-" r => (true, r)
    | String "+" r => (false, r)
    | _ => (false, s)
    end in
  match digits with
  | "" => None
  | _ =>
      match NilEmpty.uint_of_string digits with
      | None => None
      | Some d =>
          let n := Z.of_uint d in
          let z := if neg : bool then (- n)%Z else n in
          if ((minInt <=? z) && (z <=? maxInt))%Z then Some z else None
      end
  end.

End GoStrings.
Import GoStrings.

(** ** Go errors

    The four sentinel errors of the package, [io.EOF], the errors of the
    filesystem (which [vfs.IsNotExist] classifies) and errors carrying only
    a message ([fmt.Errorf], [errors.New], [textproto.ProtocolError],
    transport errors). *)

Inductive error : Type :=
| ErrNotFoundInStore
| ErrFoundWithZeroInStore
| ErrFoundInStore
| ErrFoundInStorePrivate
| EOF
| FsError (notExist : bool) (msg : string)
| ErrorString (msg : string).

#[global] Instance error_eq_dec : EqDecision error.
Proof. solve_decision. Defined.

(** [err.Error()]. *)
Definition Error_text (e : error) : string :=
  match e with
  | ErrNotFoundInStore => "Not found in store"
  | ErrFoundWithZeroInStore => "Found 0 size file in store"
  | ErrFoundInStore => "Found in store"
  | ErrFoundInStorePrivate => "Found in store private"
  | EOF => "EOF"
  | FsError _ msg => msg
  | ErrorString msg => msg
  end.

(** [vfs.IsNotExist]. *)
Definition IsNotExist (e : error) : bool :=
  match e with
  | FsError b _ => b
  | _ => false
  end.

(** ** net/textproto: reading lines and MIME header blocks

    A [textproto.Reader] over a [bufio.Reader] is embedded by the input that
    is still unread; every read returns what it produced together with the
    input left over.  The routines follow the library as of Go 1.22. *)

Module Textproto.

Abbreviation MIMEHeader := (gmap string (list string)).

Definition ProtocolError (msg : string) : error := ErrorString msg.

Definition is_sp_tab (c : ascii) : bool :=
  Ascii.eqb c SP || Ascii.eqb c TAB.

(** The token characters of RFC 7230, [validHeaderFieldByte] (the same
    table as [httpguts.IsTokenRune] on bytes). *)
Definition validHeaderFieldByte (c : ascii) : bool :=
  is_letter c || is_digit c ||
  existsb (Ascii.eqb c)
    ["!"; "#"; "$"; "%"; "&"; "'"; "*"; "+"; "-"; "."; "^"; "_"; "`"; "|"; "~"]%char.

(** [validHeaderValueByte]: visible characters, space, tab and the bytes
    from 0x80 up. *)
Definition validHeaderValueByte (c : ascii) : bool :=
  let n := nat_of_ascii c in
  ((32 <=? n) && negb (n =? 127))%nat || Ascii.eqb c TAB.

(** [bufio.Reader.ReadLine] strips the final LF and one CR before it. *)
Fixpoint drop_last_cr (s : string) : string :=
  match s with
  | "" => ""
  | String c "" => if Ascii.eqb c CR then "" else s
  | String c r => String c (drop_last_cr r)
  end.

(** [Reader.readLineSlice]: the next line without its line ending; input
    that ends without a line ending is returned as it is; [io.EOF] when no
    input is left. *)
Definition readLineSlice (r : string) : error + (string * string) :=
  match r with
  | "" => inl EOF
  | _ =>
      match cut_byte LF r with
      | Some (l, rest) => inr (drop_last_cr l, rest)
      | None => inr (r, "")
      end
  end.

(** [Reader.ReadLine]. *)
Definition ReadLine (r : string) : error + (string * string) :=
  readLineSlice r.

(** [trim]: without leading and trailing spaces and tabs. *)
Definition trim (s : string) : string :=
  trim_right is_sp_tab (trim_left is_sp_tab s).

(** The loop of [readContinuedLineSlice] that appends continuation lines:
    while [skipSpace] consumes at least one space or tab, a space and the
    trimmed next line are appended; a failing read ends the loop. *)
Fixpoint continuation (fuel : nat) (buf r : string) : string * string :=
  match fuel, r with
  | S fuel', String c _ =>
      if is_sp_tab c then
        let r' := trim_left is_sp_tab r in
        match readLineSlice r' with
        | inl _ => (buf ++ " ", r')
        | inr (line, r'') => continuation fuel' (buf ++ " " ++ trim line) r''
        end
      else (buf, r)
  | _, _ => (buf, r)
  end.

(** [mustHaveFieldNameColon]. *)
Definition mustHaveFieldNameColon (line : string) : option error :=
  match cut_byte ":" line with
  | None => Some (ProtocolError ("malformed MIME header: missing colon: " ++ line))
  | Some _ => None
  end.

(** [Reader.readContinuedLineSlice] with [mustHaveFieldNameColon] as the
    check of the first line. *)
Definition readContinuedLineSlice (r : string) : (string * option error) * string :=
  match readLineSlice r with
  | inl e => (("", Some e), r)
  | inr (line, rest) =>
      match line with
      | "" => (("", None), rest)
      | _ =>
          match mustHaveFieldNameColon line with
          | Some e => (("", Some e), rest)
          | None =>
              let '(buf, rest') := continuation (String.length rest) (trim line) rest in
              ((buf, None), rest')
          end
      end
  end.

(** The canonical form of a header key: upper case for the first letter
    and for every letter after a hyphen, lower case elsewhere. *)
Fixpoint canon_bytes (upper : bool) (s : string) : string :=
  match s with
  | "" => ""
  | String c r =>
      let c' := if upper then upper_byte c else lower_byte c in
      String c' (canon_bytes (Ascii.eqb c' "-") r)
  end.

(** [canonicalMIMEHeaderKey]: a key with a byte that is neither a token
    character nor a space is rejected; a key holding a space is accepted
    unchanged; any other key is canonicalised. *)
Definition canonicalMIMEHeaderKey (a : string) : string * bool :=
  match a with
  | "" => ("", false)
  | _ =>
      if all_bytes (fun c => validHeaderFieldByte c || Ascii.eqb c SP) a then
        if all_bytes validHeaderFieldByte a then (canon_bytes true a, true)
        else (a, true)
      else (a, false)
  end.

(** [textproto.CanonicalMIMEHeaderKey]. *)
Definition CanonicalMIMEHeaderKey (s : string) : string :=
  if all_bytes validHeaderFieldByte s then canon_bytes true s else s.

(** [m[key] = append(m[key], value)]. *)
Definition add_value (m : MIMEHeader) (key value : string) : MIMEHeader :=
  <[key := (default [] (m !! key) ++ [value])%list]> m.

(** The loop of [readMIMEHeader]: one logical line per iteration, until a
    blank line, a read error or a malformed line.  [fuel] bounds the
    iterations; [None] is fuel exhausted. *)
Fixpoint readMIMEHeader_loop (fuel : nat) (m : MIMEHeader) (r : string)
  : option ((MIMEHeader * option error) * string) :=
  match fuel with
  | O => None
  | S fuel' =>
      let '((kv, err), rest) := readContinuedLineSlice r in
      match kv with
      | "" => Some ((m, err), rest)
      | _ =>
          let malformed := ProtocolError ("malformed MIME header line: " ++ kv) in
          match cut_byte ":" kv with
          | None => Some ((m, Some malformed), rest)
          | Some (k, v) =>
              let '(key, ok) := canonicalMIMEHeaderKey k in
              if negb ok then Some ((m, Some malformed), rest)
              else if negb (all_bytes validHeaderValueByte v)
              then Some ((m, Some malformed), rest)
              else if String.eqb key "" then readMIMEHeader_loop fuel' m rest
              else
                let value := trim_left is_sp_tab v in
                let m' := add_value m key value in
                match err with
                | Some e => Some ((m', Some e), rest)
                | None => readMIMEHeader_loop fuel' m' rest
                end
          end
      end
  end.

Definition errMessageTooLarge : error := ErrorString "message too large".

(** [Reader.ReadMIMEHeader] (no size limits: [math.MaxInt64]).  A first
    line that starts with a space or a tab is an error, quoted up to 80
    bytes.  Every iteration of the loop consumes input, so one more unit of
    fuel than there are bytes is enough ([readMIMEHeader_loop_total]). *)
Definition ReadMIMEHeader_opt (r : string)
  : option ((MIMEHeader * option error) * string) :=
  match r with
  | String c _ =>
      if is_sp_tab c then
        match readLineSlice r with
        | inl e => Some ((∅, Some e), r)
        | inr (line, rest) =>
            if (80 <? String.length line)%nat
            then Some ((∅, Some errMessageTooLarge), rest)
            else
              Some ((∅, Some (ProtocolError
                       ("malformed MIME header initial line: " ++ line))), rest)
        end
      else readMIMEHeader_loop (S (String.length r)) ∅ r
  | "" => readMIMEHeader_loop (S (String.length r)) ∅ r
  end.

Definition ReadMIMEHeader (r : string) : (MIMEHeader * option error) * string :=
  default ((∅, Some EOF), r) (ReadMIMEHeader_opt r).

End Textproto.
Import Textproto.

(** ** The rest of the Go library the package calls

    [strings.ToLower], [net/url] and the digests of [crypto/...] are taken
    as an interface: the store's properties hold for every implementation. *)

Record URL : Type := mkURL {
  Scheme : string;
  Opaque : string;
  User : string;
  Host : string;
  Path : string;
  RawQuery : string;
  Fragment : string
}.

#[global] Instance URL_eq_dec : EqDecision URL.
Proof. solve_decision. Defined.

Class GoLib : Type := {
  strings_ToLower : string -> string;
  url_Parse : string -> error + URL;
  URL_String : URL -> string;
  md4_Sum : string -> string;
  md5_Sum : string -> string;
  sha1_Sum : string -> string;
  sha224_Sum : string -> string;
  sha256_Sum : string -> string;
  sha384_Sum : string -> string;
  sha512_Sum : string -> string
}.

(** [fmt.Sprintf("%x", bytes)]: two lower-case hexadecimal digits a byte. *)
Definition hex_digit (n : nat) : ascii :=
  if (n <? 10)%nat then ascii_of_nat (48 + n) else ascii_of_nat (87 + n).

Fixpoint hex (s : string) : string :=
  match s with
  | "" => ""
  | String c r =>
      let n := nat_of_ascii c in
      String (hex_digit (n / 16)) (String (hex_digit (n mod 16)) (hex r))
  end.

(** ** net/http: header blocks, status texts, requests *)

Module Http.

(** [http.Header], a [map[string][]string]. *)
Abbreviation Header := (gmap string (list string)).

Definition kv_le (a b : string * list string) : Prop :=
  String.leb a.1 b.1 = true.

#[global] Instance kv_le_dec : RelDecision kv_le.
Proof. intros a b. unfold kv_le. apply _. Defined.

(** [Header.sortedKeyValues]: the entries ordered by key. *)
Definition sortedKeyValues (h : Header) : list (string * list string) :=
  merge_sort kv_le (map_to_list h).

(** [httpguts.ValidHeaderFieldName]. *)
Definition ValidHeaderFieldName (v : string) : bool :=
  match v with
  | "" => false
  | _ => all_bytes validHeaderFieldByte v
  end.

(** [headerNewlineToSpace.Replace]. *)
Definition headerNewlineToSpace (v : string) : string :=
  map_bytes (fun c => if Ascii.eqb c LF || Ascii.eqb c CR then SP else c) v.

Definition isASCIISpace (c : ascii) : bool :=
  Ascii.eqb c SP || Ascii.eqb c TAB || Ascii.eqb c LF || Ascii.eqb c CR.

(** [textproto.TrimString]. *)
Definition TrimString (s : string) : string :=
  trim_right isASCIISpace (trim_left isASCIISpace s).

Definition write_value (k v : string) : string :=
  k ++ ": " ++ TrimString (headerNewlineToSpace v) ++ CRLF.

Definition write_entry (kv : string * list string) : string :=
  if ValidHeaderFieldName kv.1
  then fold_right (fun v out => write_value kv.1 v ++ out) "" kv.2
  else "".

(** [Header.Write] into a buffer: for the keys in sorted order, one line
    [key: value CRLF] for each value; entries whose key is not a valid
    field name are skipped. *)
Definition Header_Write (h : Header) : string :=
  fold_right (fun kv out => write_entry kv ++ out) "" (sortedKeyValues h).

(** Modelled from the spec: the standard status-text table of [net/http],
    which [http.StatusText] consults; an unknown code has the empty text. *)
Definition statusText : list (Z * string) :=
  [ (100, "Continue"); (101, "Switching Protocols"); (102, "Processing");
    (103, "Early Hints");
    (200, "OK"); (201, "Created"); (202, "Accepted");
    (203, "Non-Authoritative Information"); (204, "No Content");
    (205, "Reset Content"); (206, "Partial Content"); (207, "Multi-Status");
    (208, "Already Reported"); (226, "IM Used");
    (300, "Multiple Choices"); (301, "Moved Permanently"); (302, "Found");
    (303, "See Other"); (304, "Not Modified"); (305, "Use Proxy");
    (307, "Temporary Redirect"); (308, "Permanent Redirect");
    (400, "Bad Request"); (401, "Unauthorized"); (402, "Payment Required");
    (403, "Forbidden"); (404, "Not Found"); (405, "Method Not Allowed");
    (406, "Not Acceptable"); (407, "Proxy Authentication Required");
    (408, "Request Timeout"); (409, "Conflict"); (410, "Gone");
    (411, "Length Required"); (412, "Precondition Failed");
    (413, "Request Entity Too Large"); (414, "Request URI Too Long");
    (415, "Unsupported Media Type");
    (416, "Requested Range Not Satisfiable"); (417, "Expectation Failed");
    (418, "I'm a teapot"); (421, "Misdirected Request");
    (422, "Unprocessable Entity"); (423, "Locked");
    (424, "Failed Dependency"); (425, "Too Early");
    (426, "Upgrade Required"); (428, "Precondition Required");
    (429, "Too Many Requests"); (431, "Request Header Fields Too Large");
    (451, "Unavailable For Legal Reasons");
    (500, "Internal Server Error"); (501, "Not Implemented");
    (502, "Bad Gateway"); (503, "Service Unavailable");
    (504, "Gateway Timeout"); (505, "HTTP Version Not Supported");
    (506, "Variant Also Negotiates"); (507, "Insufficient Storage");
    (508, "Loop Detected"); (510, "Not Extended");
    (511, "Network Authentication Required") ]%Z.

Fixpoint assoc_Z (code : Z) (t : list (Z * string)) : string :=
  match t with
  | [] => ""
  | (c, txt) :: t' => if (c =? code)%Z then txt else assoc_Z code t'
  end.

Definition StatusText (code : Z) : string := assoc_Z code statusText.

(** [http.Request], with the fields the package reads and writes; [URL] is
    a pointer and may be nil. *)
Record Request : Type := mkRequest {
  Method : string;
  ReqURL : option URL;
  Proto : string;
  ReqHeader : Header;
  ReqHost : string;
  RequestURI : string
}.

(** [validMethod]: a non-empty token. *)
Definition validMethod (method : string) : bool :=
  match method with
  | "" => false
  | _ => all_bytes validHeaderFieldByte method
  end.

(** The index of the last occurrence of a byte, [-1] when there is none. *)
Fixpoint LastIndexByte_from (i : Z) (last : Z) (s : string) (c : ascii) : Z :=
  match s with
  | "" => last
  | String d r =>
      LastIndexByte_from (i + 1) (if Ascii.eqb d c then i else last) r c
  end.

Definition LastIndexByte (s : string) (c : ascii) : Z :=
  LastIndexByte_from 0 (-1) s c.

Definition hasPort (s : string) : bool :=
  (LastIndexByte s "]" <? LastIndexByte s ":")%Z.

Fixpoint TrimSuffix_byte (s : string) (c : ascii) : string :=
  match s with
  | "" => ""
  | String d "" => if Ascii.eqb d c then "" else s
  | String d r => String d (TrimSuffix_byte r c)
  end.

(** [removeEmptyPort]: ["host:"] becomes ["host"]. *)
Definition removeEmptyPort (host : string) : string :=
  if hasPort host then TrimSuffix_byte host ":" else host.

Definition dquote : string := String (ascii_of_nat 34) "".

Section WithLib.
Context {lib : GoLib}.

(** [http.NewRequest(method, url, nil)]. *)
Definition NewRequest (method url : string) : option Request * option error :=
  let method := if String.eqb method "" then "GET" else method in
  if negb (validMethod method) then
    (None, Some (ErrorString
                   ("net/http: invalid method " ++ dquote ++ method ++ dquote)))
  else
    match url_Parse url with
    | inl e => (None, Some e)
    | inr u =>
        let host := removeEmptyPort (Host u) in
        let u' := mkURL (Scheme u) (Opaque u) (User u) host (Path u)
                        (RawQuery u) (Fragment u) in
        (Some {| Method := method; ReqURL := Some u'; Proto := "HTTP/1.1";
                 ReqHeader := ∅; ReqHost := host; RequestURI := "" |},
         None)
    end.

(** [URL.IsAbs]. *)
Definition URL_IsAbs (u : URL) : bool := negb (String.eqb (Scheme u) "").

End WithLib.

End Http.
Import Http.

(** ** path: [Clean] and [Dir] *)

Module GoPath.

(** [strings.Split s sep] for a one-byte separator. *)
Fixpoint split_on (sep : ascii) (s : string) : list string :=
  match s with
  | "" => [""]
  | String c r =>
      if Ascii.eqb c sep then "" :: split_on sep r
      else match split_on sep r with
           | x :: xs => String c x :: xs
           | [] => [String c ""]
           end
  end.

(** One element of a path against the elements kept so far (innermost
    first): empty elements and [.] are dropped, [..] removes the element
    before it, or is kept at the front of a path that is not rooted. *)
Definition clean_step (rooted : bool) (out : list string) (elem : string)
  : list string :=
  if String.eqb elem "" || String.eqb elem "." then out
  else if String.eqb elem ".." then
    match out with
    | x :: out' => if String.eqb x ".." then elem :: out else out'
    | [] => if rooted then [] else [elem]
    end
  else elem :: out.

Definition clean_elems (rooted : bool) (s : string) : list string :=
  rev (fold_left (clean_step rooted) (split_on "/" s) []).

Fixpoint join_slash (l : list string) : string :=
  match l with
  | [] => ""
  | [x] => x
  | x :: l' => x ++ "/" ++ join_slash l'
  end.

Definition is_rooted (s : string) : bool :=
  match s with
  | String "/" _ => true
  | _ => false
  end.

(** [path.Clean]. *)
Definition Clean (s : string) : string :=
  let rooted := is_rooted s in
  match (if rooted then "/" else "") ++ join_slash (clean_elems rooted s) with
  | "" => "."
  | p => p
  end.

(** The part of a path up to and including its last slash. *)
Fixpoint dir_part (s : string) : string :=
  match s with
  | "" => ""
  | String c r =>
      match dir_part r with
      | "" => if Ascii.eqb c "/" then String c "" else ""
      | d => String c d
      end
  end.

(** [path.Dir]. *)
Definition Dir (s : string) : string := Clean (dir_part s).

End GoPath.

(** ** The filesystem interface [vfs.VFS]

    The store consumes the filesystem through [Stat], [Open], [OpenFile]
    (always with [O_CREATE|O_TRUNC|O_WRONLY]), writes through the handle so
    opened, [Remove], and the helpers [vfs.MkdirAll] and [vfs.Walk].  A file
    opened for reading is embedded by the bytes the handle delivers.  The
    walk is embedded by the sequence of callback invocations it makes while
    the callback returns nil: a path with its file information, or a path
    with the error met there. *)

Record FileInfo : Type := mkFileInfo {
  fi_Name : string;
  fi_Size : Z;
  fi_IsDir : bool
}.

Class VFS (FS : Type) : Type := {
  fs_Stat : FS -> string -> error + FileInfo;
  fs_Open : FS -> string -> error + string;
  fs_OpenFile : FS -> string -> FS * option error;
  fs_Write : FS -> string -> string -> FS * option error;
  fs_Remove : FS -> string -> FS * option error;
  fs_MkdirAll : FS -> string -> FS * option error;
  fs_Walk : FS -> string -> list (string * (error + FileInfo))
}.

(** What the store relies on when it replaces a record: a file opened with
    [O_CREATE|O_TRUNC] is empty; a write through its handle appends;
    creating directories and removing the marker of a path leave the file
    at that path as it is. *)
Class VFSLaws (FS : Type) {vfs : VFS FS} : Prop := {
  law_create : forall fs p fs1,
    fs_OpenFile fs p = (fs1, None) -> fs_Open fs1 p = inr "";
  law_write : forall fs p old d fs1,
    fs_Open fs p = inr old -> fs_Write fs p d = (fs1, None) ->
    fs_Open fs1 p = inr (old ++ d);
  law_mkdir : forall fs dir fs1 e p d,
    fs_MkdirAll fs dir = (fs1, e) -> fs_Open fs p = inr d ->
    fs_Open fs1 p = inr d;
  law_remove_marker : forall fs p fs1 e d,
    fs_Remove fs (p ++ ".private") = (fs1, e) -> fs_Open fs p = inr d ->
    fs_Open fs1 p = inr d
}.

(** What the store relies on when it reads a record back: [Stat] reports
    the length of a file that can be opened; a removed file cannot be
    opened any more; removing the marker of a path does not bring a file
    back at that path. *)
Class VFSReadLaws (FS : Type) {vfs : VFS FS} : Prop := {
  law_stat_size : forall fs p d,
    fs_Open fs p = inr d ->
    exists fi, fs_Stat fs p = inr fi /\ fi_Size fi = Z.of_nat (String.length d);
  law_remove_gone : forall fs p fs1,
    fs_Remove fs p = (fs1, None) ->
    exists e, fs_Open fs1 p = inl e /\ IsNotExist e = true;
  law_remove_marker_gone : forall fs p fs1 e e0,
    fs_Remove fs (p ++ ".private") = (fs1, e) ->
    fs_Open fs p = inl e0 -> IsNotExist e0 = true ->
    exists e1, fs_Open fs1 p = inl e1 /\ IsNotExist e1 = true
}.

(** ** The response entity of [response.go] *)

(** An [io.ReadCloser] from the network: the bytes it delivers and the error
    that ends them, if it is not [io.EOF]. *)
Record Body : Type := mkBody {
  body_data : string;
  body_err : option error
}.

(** [http.Response]. *)
Record HttpResponse : Type := mkHttpResponse {
  resp_StatusCode : Z;
  resp_Header : Http.Header;
  resp_Body : Body
}.

(** The implementations of [ReadSeekCloser] the package builds:
    [ByteReadSeekCloser] over a [bytes.Reader], [IoReaderToReadSeekCloser]
    over a network body, and a file of the store opened for reading. *)
Inductive ReadSeekCloser : Type :=
| ByteReadSeekCloser (data : string)
| IoReaderToReadSeekCloser (body : Body)
| VfsFile (data : string).

Record Response : Type := mkResponse {
  body : ReadSeekCloser;
  header : Http.Header;
  statusCode : Z;
  stale : bool
}.

Definition NewResponse (statusCode : Z) (body : ReadSeekCloser)
  (hdrs : Http.Header) : Response :=
  {| body := body; header := hdrs; statusCode := statusCode; stale := false |}.

Definition NewResponseBytes (statusCode : Z) (b : string)
  (hdrs : Http.Header) : Response :=
  {| body := ByteReadSeekCloser b; header := hdrs; statusCode := statusCode;
     stale := false |}.

Definition NewResponseFromHttp (resp : HttpResponse) (body : Body) : Response :=
  {| body := IoReaderToReadSeekCloser body; header := resp_Header resp;
     statusCode := resp_StatusCode resp; stale := false |}.

Definition Status (r : Response) : Z := statusCode r.
Definition Response_Header (r : Response) : Http.Header := header r.
Definition IsStale (r : Response) : bool := stale r.
Definition MarkStale (r : Response) : Response :=
  {| body := body r; header := header r; statusCode := statusCode r;
     stale := true |}.
Definition IsNonErrorStatus (r : Response) : bool :=
  ((200 <=? statusCode r) && (statusCode r <? 400))%Z.

(** Reading a [ReadSeekCloser] to its end, as [io.Copy] does: the bytes
    read and the error that stopped the reading, if any. *)
Definition read_all (r : ReadSeekCloser) : string * option error :=
  match r with
  | ByteReadSeekCloser data => (data, None)
  | IoReaderToReadSeekCloser b => (body_data b, body_err b)
  | VfsFile data => (data, None)
  end.

(** [Close] on a [ReadSeekCloser], as a machine that runs one method call a
    step.  [ByteReadSeekCloser.Close] returns nil; closing a file of the
    store returns nil; [IoReaderToReadSeekCloser.Close] is
    [return iosc.Close()], a call of the same method on the same receiver:
    the embedded body's [Close] is never reached. *)
Inductive CloseState : Type :=
| Calling (r : ReadSeekCloser) (depth : nat) (bodyClosed : bool)
| Returned (e : option error) (bodyClosed : bool).

Definition Close_step (s : CloseState) : CloseState :=
  match s with
  | Calling (ByteReadSeekCloser _) _ closed => Returned None closed
  | Calling (VfsFile _) _ closed => Returned None closed
  | Calling (IoReaderToReadSeekCloser b) depth closed =>
      Calling (IoReaderToReadSeekCloser b) (S depth) closed
  | Returned e closed => Returned e closed
  end.

Fixpoint Close_run (fuel : nat) (s : CloseState) : CloseState :=
  match fuel with
  | O => s
  | S fuel' => Close_run fuel' (Close_step s)
  end.

(** [r.Close()] on a [Response]: the method of the embedded
    [ReadSeekCloser], run for [fuel] steps; [None] when it has not returned
    by then. *)
Definition Response_Close (fuel : nat) (r : Response) : option (option error) :=
  match Close_run fuel (Calling (body r) 0 false) with
  | Returned e _ => Some e
  | Calling _ _ _ => None
  end.

(** ** The store of [external.go] *)

Definition requestPrefix : string := "request/".
Definition headerPrefix : string := "header/".
Definition bodyPrefix : string := "body/".
Definition bodyMetalinkPrefix : string := "metalink/".
Definition journalPrefix : string := "journal/".
Definition formatPrefix : string := "v1/".
Definition dummyURL : string := "http://dummy".

(** [type Header struct { http.Header; StatusCode int }]. *)
Record Header : Type := mkHeader {
  Header_Header : Http.Header;
  StatusCode : Z
}.

(** What a call that may panic does: it returns its error value, or it
    panics (a nil pointer is dereferenced). *)
Inductive outcome : Type :=
| Return (e : option error)
| Panic.

(** The calls the store makes on its collaborators, in the order made. *)
Inductive Call : Type :=
| CStat (path : string)
| COpen (path : string)
| COpenFile (path : string)
| CWrite (path data : string)
| CRemove (path : string)
| CMkdirAll (path : string)
| CWalk (root : string)
| CDo (req : Request).

Section Store.
Context {lib : GoLib} {FS : Type} {vfs : VFS FS}.

(** The fields of [store] other than the filesystem, which is threaded
    through the operations: the digest selector and the HTTP client
    ([client.Do], which returns a response pointer and an error). *)
Record store : Type := mkStore {
  hash : string;
  client : Request -> option HttpResponse * option error
}.

(** The filesystem and the log of the calls made so far. *)
Record World : Type := mkWorld {
  w_fs : FS;
  w_log : list Call
}.

Definition M (A : Type) : Type := World -> A * World.

Definition ret {A} (a : A) : M A := fun w => (a, w).
Definition bind {A B} (m : M A) (k : A -> M B) : M B :=
  fun w => let '(a, w') := m w in k a w'.

Notation "x <- m ;; k" := (bind m (fun x => k))
  (at level 100, m at next level, right associativity).

Definition logged (c : Call) (w : World) (fs' : FS) : World :=
  mkWorld fs' (w_log w ++ [c])%list.

Definition Stat (path : string) : M (error + FileInfo) :=
  fun w => (fs_Stat (w_fs w) path, logged (CStat path) w (w_fs w)).
Definition Open (path : string) : M (error + string) :=
  fun w => (fs_Open (w_fs w) path, logged (COpen path) w (w_fs w)).
Definition OpenFile (path : string) : M (option error) :=
  fun w => let '(fs', e) := fs_OpenFile (w_fs w) path in
           (e, logged (COpenFile path) w fs').
Definition Write (path data : string) : M (option error) :=
  fun w => let '(fs', e) := fs_Write (w_fs w) path data in
           (e, logged (CWrite path data) w fs').
Definition Remove (path : string) : M (option error) :=
  fun w => let '(fs', e) := fs_Remove (w_fs w) path in
           (e, logged (CRemove path) w fs').
Definition MkdirAll (path : string) : M (option error) :=
  fun w => let '(fs', e) := fs_MkdirAll (w_fs w) path in
           (e, logged (CMkdirAll path) w fs').
Definition Walk (root : string) : M (list (string * (error + FileInfo))) :=
  fun w => (fs_Walk (w_fs w) root, logged (CWalk root) w (w_fs w)).
Definition Do (s : store) (req : Request)
  : M (option HttpResponse * option error) :=
  fun w => (client s req, logged (CDo req) w (w_fs w)).

(** [io.Copy(f, r)] into the file opened at [path]: the bytes read are
    written (the writes of the successive chunks are one [Write] here, and
    nothing is written when nothing was read); a failing write, then the
    error that ended the reading, is the result. *)
Definition Copy (path : string) (r : ReadSeekCloser) : M (option error) :=
  let '(data, rerr) := read_all r in
  match data with
  | "" => ret rerr
  | _ =>
      werr <- Write path data ;;
      match werr with
      | Some e => ret (Some e)
      | None => ret rerr
      end
  end.

Definition vfsWrite (path : string) (r : ReadSeekCloser) : M (option error) :=
  err <- MkdirAll (GoPath.Dir path) ;;
  match err with
  | Some e => ret (Some e)
  | None =>
      err <- OpenFile path ;;
      match err with
      | Some e => ret (Some e)
      | None =>
          err <- Copy path r ;;
          match err with
          | Some e => ret (Some e)
          | None => ret None
          end
      end
  end.

Definition vfsCreatePrivateDummy (path : string) : M (option error) :=
  err <- MkdirAll (GoPath.Dir path) ;;
  match err with
  | Some e => ret (Some e)
  | None =>
      err <- OpenFile path ;;
      match err with
      | Some e => ret (Some e)
      | None =>
          err <- Write path "dummy" ;;
          match err with
          | Some e => ret (Some e)
          | None => ret None
          end
      end
  end.

Definition vfsDeletePrivateDummy (path : string) : M (option error) :=
  err <- MkdirAll (GoPath.Dir path) ;;
  match err with
  | Some e => ret (Some e)
  | None =>
      err <- Remove path ;;
      match err with
      | Some e => if IsNotExist e then ret (Some ErrNotFoundInStore)
                  else ret (Some e)
      | None => ret None
      end
  end.

Definition HashKey (s : store) (key : string) : string :=
  let sel := strings_ToLower (hash s) in
  if String.eqb sel "sha224" then hex (sha224_Sum key)
  else if String.eqb sel "sha384" then hex (sha384_Sum key)
  else if String.eqb sel "sha512" then hex (sha512_Sum key)
  else if String.eqb sel "sha1" then hex (sha1_Sum key)
  else if String.eqb sel "md5" then hex (md5_Sum key)
  else if String.eqb sel "md4" then hex (md4_Sum key)
  else if String.eqb sel "plain" then key
  else hex (sha256_Sum key).

(** The check that opens [StoreRequest], [storeBody] and [storeHeader]
    when [override] is false. *)
Definition storeGuard (path : string) : M (option error) :=
  st <- Stat (path ++ ".private") ;;
  match st with
  | inr fi =>
      if (0 <? fi_Size fi)%Z then ret (Some ErrFoundInStorePrivate)
      else
        st <- Stat path ;;
        match st with
        | inr fi => if (0 <? fi_Size fi)%Z then ret (Some ErrFoundInStore)
                    else ret None
        | inl _ => ret None
        end
  | inl _ =>
      st <- Stat path ;;
      match st with
      | inr fi => if (0 <? fi_Size fi)%Z then ret (Some ErrFoundInStore)
                  else ret None
      | inl _ => ret None
      end
  end.

Definition headersToWriter (h : Http.Header) : string :=
  Header_Write h ++ CRLF.

(** The bytes [StoreRequest] writes for a request whose URL is [u]. *)
Definition requestWire (method : string) (u : URL) (proto : string)
  (h : Http.Header) : string :=
  method ++ " " ++ URL_String u ++ " " ++ proto ++ CRLF ++ headersToWriter h.

(** The URL [StoreRequest] writes: the request's own when it is absolute,
    otherwise the one parsed from ["http://" + h.Host + h.URL.String()].
    [None] is a nil URL, on which [IsAbs] and [String] panic. *)
Definition absoluteURL (h : Request) : option URL :=
  match ReqURL h with
  | None => None
  | Some u =>
      if URL_IsAbs u then Some u
      else match url_Parse ("http://" ++ ReqHost h ++ URL_String u) with
           | inr u' => Some u'
           | inl _ => None
           end
  end.

Definition StoreRequest (s : store) (h : Request) (key : string)
  (override : bool) : M outcome :=
  let path := requestPrefix ++ formatPrefix ++ HashKey s key in
  guard <- (if override then ret None else storeGuard path) ;;
  match guard with
  | Some e => ret (Return (Some e))
  | None =>
      match absoluteURL h with
      | None => ret Panic
      | Some u =>
          let hb := requestWire (Method h) u (Proto h) (ReqHeader h) in
          _ <- vfsCreatePrivateDummy (path ++ ".private") ;;
          err <- vfsWrite path (ByteReadSeekCloser hb) ;;
          match err with
          | Some e => ret (Return (Some e))
          | None =>
              _ <- vfsDeletePrivateDummy (path ++ ".private") ;;
              ret (Return None)
          end
      end
  end.

Definition dummyReq : option Request := fst (NewRequest "GET" dummyURL).

Definition readRequest (r : string) : option Request * option error :=
  match ReadLine r with
  | inl err => (dummyReq, Some err)
  | inr (line, rest) =>
      let f := SplitN line " " 3 in
      if (length f <? 2)%nat then
        (dummyReq, Some (ErrorString ("malformed HTTP request line: " ++ line)))
      else if (2 <? length f)%nat then
        let '((mimeHeader, err), _) := ReadMIMEHeader rest in
        match err with
        | Some err => (dummyReq, Some err)
        | None =>
            let '(reqCopy, err) := NewRequest (nth 0 f "") (nth 1 f "") in
            match err with
            | Some err => (dummyReq, Some err)
            | None =>
                (option_map
                   (fun r => mkRequest (Method r) (ReqURL r) (Proto r)
                               mimeHeader (ReqHost r) (RequestURI r))
                   reqCopy,
                 None)
            end
        end
      else
        (dummyReq, Some (ErrorString ("malformed HTTP request line: " ++ line)))
  end.

Definition readResponseHeaders (r : string) : Header * option error :=
  match ReadLine r with
  | inl err => (mkHeader ∅ 0, Some err)
  | inr (line, rest) =>
      let f := SplitN line " " 3 in
      if (length f <? 2)%nat then
        (mkHeader ∅ 0, Some (ErrorString ("malformed HTTP response: " ++ line)))
      else
        match Atoi (nth 1 f "") with
        | None =>
            (mkHeader ∅ 0,
             Some (ErrorString ("malformed HTTP status code: " ++ nth 1 f ""))%string)
        | Some statusCode =>
            let '((mimeHeader, err), _) := ReadMIMEHeader rest in
            match err with
            | Some err => (mkHeader ∅ 0, Some err)
            | None => (mkHeader mimeHeader statusCode, None)
            end
        end
  end.

Definition privateFileExists (file : string) : M (option error) :=
  st <- Stat (file ++ ".private") ;;
  match st with
  | inr fi => if (0 <? fi_Size fi)%Z then ret (Some ErrFoundInStorePrivate)
              else ret None
  | inl _ => ret None
  end.

Definition RetrieveRequestByFileName (filename : string)
  : M (option Request * option error) :=
  err <- privateFileExists filename ;;
  match err with
  | Some e => ret (None, Some e)
  | None =>
      f <- Open filename ;;
      match f with
      | inl e =>
          if IsNotExist e then ret (None, Some ErrNotFoundInStore)
          else ret (None, Some e)
      | inr data =>
          fi <- Stat filename ;;
          match fi with
          | inl e => ret (None, Some e)
          | inr fi =>
              if (fi_Size fi =? 0)%Z then ret (None, Some ErrFoundWithZeroInStore)
              else
                let '(reqCopy, err) := readRequest data in
                match err with
                | Some e =>
                    if IsNotExist e then ret (None, Some ErrNotFoundInStore)
                    else ret (None, Some e)
                | None => ret (reqCopy, None)
                end
          end
      end
  end.

Definition RetrieveRequestByHash (hash : string)
  : M (option Request * option error) :=
  RetrieveRequestByFileName (requestPrefix ++ formatPrefix ++ hash).

Definition RetrieveRequest (s : store) (key : string)
  : M (option Request * option error) :=
  RetrieveRequestByHash (HashKey s key).

Definition DelByFilename (filename : string) : M (option error) :=
  err <- Remove filename ;;
  match err with
  | Some e => if IsNotExist e then ret (Some ErrNotFoundInStore)
              else ret (Some e)
  | None => ret None
  end.

Definition DelRequest (s : store) (key : string) : M (option error) :=
  err <- DelByFilename (requestPrefix ++ formatPrefix ++ HashKey s key) ;;
  match err with
  | Some e => ret (Some e)
  | None =>
      _ <- DelByFilename (requestPrefix ++ formatPrefix ++ HashKey s key
                            ++ ".private") ;;
      ret None
  end.

Definition DelResponseBody (s : store) (key : string) : M (option error) :=
  err <- DelByFilename (bodyPrefix ++ formatPrefix ++ HashKey s key) ;;
  match err with
  | Some e => ret (Some e)
  | None =>
      _ <- DelByFilename (bodyPrefix ++ formatPrefix ++ HashKey s key
                            ++ ".private") ;;
      ret None
  end.

Definition DelResponseHeader (s : store) (key : string) : M (option error) :=
  err <- DelByFilename (headerPrefix ++ formatPrefix ++ HashKey s key) ;;
  match err with
  | Some e => ret (Some e)
  | None =>
      _ <- DelByFilename (headerPrefix ++ formatPrefix ++ HashKey s key
                            ++ ".private") ;;
      ret None
  end.

Definition DelResponse (s : store) (key : string) : M (option error) :=
  err <- DelResponseBody s key ;;
  match err with
  | Some e => ret (Some e)
  | None =>
      err <- DelResponseHeader s key ;;
      match err with
      | Some e => ret (Some e)
      | None => ret None
      end
  end.

Definition storeBody (s : store) (r : ReadSeekCloser) (key : string)
  (override : bool) : M (option error) :=
  let path := bodyPrefix ++ formatPrefix ++ HashKey s key in
  guard <- (if override then ret None else storeGuard path) ;;
  match guard with
  | Some e => ret (Some e)
  | None =>
      _ <- vfsCreatePrivateDummy (path ++ ".private") ;;
      err <- vfsWrite path r ;;
      match err with
      | Some e => ret (Some e)
      | None =>
          _ <- vfsDeletePrivateDummy (path ++ ".private") ;;
          ret None
      end
  end.

(** The bytes [storeHeader] writes. *)
Definition responseHeaderWire (code : Z) (h : Http.Header) : string :=
  "HTTP/1.1 " ++ Itoa code ++ " " ++ StatusText code ++ CRLF
    ++ headersToWriter h.

Definition storeHeader (s : store) (code : Z) (h : Http.Header)
  (key : string) (override : bool) : M (option error) :=
  let path := headerPrefix ++ formatPrefix ++ HashKey s key in
  guard <- (if override then ret None else storeGuard path) ;;
  match guard with
  | Some e => ret (Some e)
  | None =>
      _ <- vfsCreatePrivateDummy (path ++ ".private") ;;
      let hb := responseHeaderWire code h in
      err <- vfsWrite path (ByteReadSeekCloser hb) ;;
      match err with
      | Some e => ret (Some e)
      | None =>
          _ <- vfsDeletePrivateDummy (path ++ ".private") ;;
          ret None
      end
  end.

Definition StoreResponse (s : store) (res : Response) (key : string)
  (override : bool) : M (option error) :=
  err <- storeBody s (body res) key override ;;
  match err with
  | Some e => ret (Some e)
  | None =>
      err <- storeHeader s (Status res) (Response_Header res) key override ;;
      match err with
      | Some e => ret (Some e)
      | None => ret None
      end
  end.

Definition StoreResponseHeader (s : store) (res : Response) (key : string)
  (override : bool) : M (option error) :=
  err <- storeHeader s (Status res) (Response_Header res) key override ;;
  match err with
  | Some e => ret (Some e)
  | None => ret None
  end.

Definition RetrieveResponseHeader (s : store) (key : string)
  : M (Header * option error) :=
  err <- privateFileExists (headerPrefix ++ formatPrefix ++ HashKey s key) ;;
  match err with
  | Some e => ret (mkHeader ∅ 0, Some e)
  | None =>
      let path := headerPrefix ++ formatPrefix ++ HashKey s key in
      f <- Open path ;;
      match f with
      | inl e =>
          if IsNotExist e then ret (mkHeader ∅ 0, Some ErrNotFoundInStore)
          else ret (mkHeader ∅ 0, Some e)
      | inr data => ret (readResponseHeaders data)
      end
  end.

Definition RetrieveResponse (s : store) (key : string)
  : M (option Response * option error) :=
  let path := bodyPrefix ++ formatPrefix ++ HashKey s key in
  err <- privateFileExists path ;;
  match err with
  | Some e => ret (None, Some e)
  | None =>
      f <- Open path ;;
      match f with
      | inl e =>
          if IsNotExist e then ret (None, Some ErrNotFoundInStore)
          else ret (None, Some e)
      | inr data =>
          fi <- Stat path ;;
          match fi with
          | inl e => ret (None, Some e)
          | inr fi =>
              if (fi_Size fi =? 0)%Z then ret (None, Some ErrFoundWithZeroInStore)
              else
                r <- RetrieveResponseHeader s key ;;
                match snd r with
                | Some e =>
                    if IsNotExist e then ret (None, Some ErrNotFoundInStore)
                    else ret (None, Some e)
                | None =>
                    ret (Some (NewResponse (StatusCode (fst r)) (VfsFile data)
                                 (Header_Header (fst r))), None)
                end
          end
      end
  end.

(** The [switch] that opens [FetchAndStoreResponse]: under the key
    [dummy] the request's own URL is the key; [URL.String] on a nil URL
    panics ([None]). *)
Definition fetchKey (request : Request) (key : string) : option string :=
  if String.eqb (strings_ToLower key) "dummy"
  then option_map URL_String (ReqURL request)
  else Some key.

Definition FetchAndStoreResponse (s : store) (request : Request)
  (key : string) (override : bool) : M outcome :=
  match fetchKey request key with
  | None => ret Panic
  | Some key =>
      r <- Do s request ;;
      let swallowed :=
        match snd r with
        | Some err => Contains (Error_text err) "REDIRECT!!!"
        | None => true
        end in
      if negb swallowed then ret (Return (snd r))
      else
        match fst r with
        | None => ret Panic
        | Some resp =>
            err <- StoreResponse s (NewResponseFromHttp resp (resp_Body resp))
                     key override ;;
            ret (Return err)
        end
  end.

(** The callback of [WalkRequests] returns the error it is handed, which
    ends the walk, and records every other visit. *)
Fixpoint walked (visits : list (string * (error + FileInfo)))
  : list FileInfo * list string :=
  match visits with
  | [] => ([], [])
  | (_, inl _) :: _ => ([], [])
  | (path, inr info) :: rest =>
      let '(infos, names) := walked rest in (info :: infos, path :: names)
  end.

Definition WalkRequests : M (list FileInfo * list string) :=
  visits <- Walk (requestPrefix ++ formatPrefix) ;;
  ret (walked visits).

(** The callback of [RetrieveAllRequests]: on every visit without a walk
    error the path is retrieved as a request and appended when that
    succeeds; a walk error is returned, which ends the walk. *)
Fixpoint retrieveVisited (visits : list (string * (error + FileInfo)))
  (requests : list Request) : M (list Request) :=
  match visits with
  | [] => ret requests
  | (_, inl _) :: _ => ret requests
  | (path, inr _) :: rest =>
      r <- RetrieveRequestByFileName path ;;
      match r with
      | (Some request, None) => retrieveVisited rest (requests ++ [request])%list
      | _ => retrieveVisited rest requests
      end
  end.

Definition RetrieveAllRequests : M (list Request) :=
  visits <- Walk (requestPrefix ++ formatPrefix) ;;
  retrieveVisited visits [].

End Store.

Arguments store : clear implicits.
Arguments World : clear implicits.
Arguments M : clear implicits.

(** ** An in-memory filesystem

    Modelled from the spec: the filesystem capability of section 6
    ([mkdirAll], [openForRead], [openForWrite] with truncation, [stat],
    [remove], [walk]; "does not exist" distinguishable from other errors),
    for which the repository relies on the package [vfs].  A filesystem is a
    finite map from cleaned paths (lists of path elements below the root) to
    files and directories; the root is a directory that always exists. *)

Module MemFS.

Inductive node : Type :=
| MFile (data : string)
| MDir.

Abbreviation t := (gmap (list string) node).

Definition resolve (path : string) : list string :=
  GoPath.clean_elems true path.

Definition ErrNotExist : error := FsError true "file does not exist".
Definition ErrIsDir : error := FsError false "is a directory".
Definition ErrNotDir : error := FsError false "not a directory".
Definition ErrNotEmpty : error := FsError false "directory not empty".

Definition lookup_node (fs : t) (k : list string) : option node :=
  match k with
  | [] => Some MDir
  | _ => fs !! k
  end.

Definition info_of (k : list string) (n : node) : FileInfo :=
  match n with
  | MFile data => mkFileInfo (List.last k "") (Z.of_nat (String.length data)) false
  | MDir => mkFileInfo (List.last k "") 0 true
  end.

Definition Stat (fs : t) (path : string) : error + FileInfo :=
  match lookup_node fs (resolve path) with
  | Some n => inr (info_of (resolve path) n)
  | None => inl ErrNotExist
  end.

Definition Open (fs : t) (path : string) : error + string :=
  match lookup_node fs (resolve path) with
  | Some (MFile data) => inr data
  | Some MDir => inl ErrIsDir
  | None => inl ErrNotExist
  end.

(** [OpenFile] with [O_CREATE|O_TRUNC|O_WRONLY]: the directory of the
    file must exist; the file is created or emptied. *)
Definition OpenFile (fs : t) (path : string) : t * option error :=
  let k := resolve path in
  match lookup_node fs k with
  | Some MDir => (fs, Some ErrIsDir)
  | _ =>
      match lookup_node fs (removelast k) with
      | Some MDir => (<[k := MFile ""]> fs, None)
      | Some (MFile _) => (fs, Some ErrNotDir)
      | None => (fs, Some ErrNotExist)
      end
  end.

(** A write through the handle of a file opened for writing appends. *)
Definition Write (fs : t) (path data : string) : t * option error :=
  let k := resolve path in
  match lookup_node fs k with
  | Some (MFile old) => (<[k := MFile (old ++ data)]> fs, None)
  | Some MDir => (fs, Some ErrIsDir)
  | None => (fs, Some ErrNotExist)
  end.

Definition is_child (k k' : list string) : bool :=
  bool_decide (removelast k' = k) && negb (bool_decide (k' = [])).

Definition has_children (fs : t) (k : list string) : bool :=
  existsb (fun kn => is_child k kn.1) (map_to_list fs).

Definition Remove (fs : t) (path : string) : t * option error :=
  let k := resolve path in
  match k with
  | [] => (fs, Some (FsError false "cannot remove the root"))
  | _ =>
      match fs !! k with
      | None => (fs, Some ErrNotExist)
      | Some MDir =>
          if has_children fs k then (fs, Some ErrNotEmpty)
          else (delete k fs, None)
      | Some (MFile _) => (delete k fs, None)
      end
  end.

(** [vfs.MkdirAll]: every missing directory on the way is created; a file
    on the way is an error. *)
Fixpoint mkdirs (fs : t) (done todo : list string) : t * option error :=
  match todo with
  | [] => (fs, None)
  | x :: todo' =>
      let k := (done ++ [x])%list in
      match fs !! k with
      | Some (MFile _) => (fs, Some ErrNotDir)
      | Some MDir => mkdirs fs k todo'
      | None => mkdirs (<[k := MDir]> fs) k todo'
      end
  end.

Definition MkdirAll (fs : t) (path : string) : t * option error :=
  mkdirs fs [] (resolve path).

(** The order of a walk: a directory before its entries, the entries of
    a directory by name. *)
Fixpoint lex_le (a b : list string) : bool :=
  match a, b with
  | [], _ => true
  | _ :: _, [] => false
  | x :: a', y :: b' =>
      if String.eqb x y then lex_le a' b' else String.leb x y
  end.

Definition key_le (a b : list string * node) : Prop := lex_le a.1 b.1 = true.

#[global] Instance key_le_dec : RelDecision key_le.
Proof. intros a b. unfold key_le. apply _. Defined.

Fixpoint strip_prefix (p k : list string) : option (list string) :=
  match p, k with
  | [], _ => Some k
  | x :: p', y :: k' => if String.eqb x y then strip_prefix p' k' else None
  | _ :: _, [] => None
  end.

(** [vfs.Walk]: the root as it was given, then everything below it, each
    entry under the path joined from the root and its elements. *)
Definition Walk (fs : t) (root : string) : list (string * (error + FileInfo)) :=
  let k := resolve root in
  match lookup_node fs k with
  | None => [(root, inl ErrNotExist)]
  | Some n =>
      (root, inr (info_of k n)) ::
      omap (fun kn : list string * node =>
              match strip_prefix k kn.1 with
              | Some (x :: rel) =>
                  Some (GoPath.Clean (root ++ "/" ++ GoPath.join_slash (x :: rel)),
                        inr (info_of kn.1 kn.2))
              | _ => None
              end)
           (merge_sort key_le (map_to_list fs))
  end.

#[global] Instance mem_vfs : VFS t := {
  fs_Stat := Stat;
  fs_Open := Open;
  fs_OpenFile := OpenFile;
  fs_Write := Write;
  fs_Remove := Remove;
  fs_MkdirAll := MkdirAll;
  fs_Walk := Walk
}.

End MemFS.

(** ** A small instance of the library interface

    It runs the store on examples: a URL is read as [scheme://host/path],
    and the digests are stand-ins.  No theorem about the store depends on
    it. *)

Module ExampleLib.

Fixpoint scheme_end (s : string) : option (string * string) :=
  match s with
  | "" => None
  | String c r =>
      if Ascii.eqb c ":" then Some ("", r)
      else if is_letter c || is_digit c || Ascii.eqb c "+" || Ascii.eqb c "-"
              || Ascii.eqb c "."
      then match scheme_end r with
           | Some (a, b) => Some (String c a, b)
           | None => None
           end
      else None
  end.

Definition split_host (s : string) : string * string :=
  match cut_byte "/" s with
  | Some (h, p) => (h, String "/" p)
  | None => (s, "")
  end.

Definition Parse (s : string) : error + URL :=
  if negb (all_bytes (fun c => (32 <? nat_of_ascii c)%nat) s)
  then inl (ErrorString "net/url: invalid character in URL")
  else
    match scheme_end s with
    | Some (String c sch, String "/" (String "/" r)) =>
        let '(h, p) := split_host r in
        inr (mkURL (map_bytes lower_byte (String c sch)) "" "" h p "" "")
    | Some (String c sch, r) =>
        inr (mkURL (map_bytes lower_byte (String c sch)) r "" "" "" "" "")
    | Some ("", _) => inl (ErrorString "missing protocol scheme")
    | None => inr (mkURL "" "" "" "" s "" "")
    end.

Definition UString (u : URL) : string :=
  match Scheme u with
  | "" => Path u
  | sch =>
      match Opaque u with
      | "" => sch ++ "://" ++ Host u ++ Path u
      | o => sch ++ ":" ++ o
      end
  end.

Definition tag (name : string) (key : string) : string := name ++ ":" ++ key.

#[global] Instance example_lib : GoLib := {
  strings_ToLower := ascii_ToLower;
  url_Parse := Parse;
  URL_String := UString;
  md4_Sum := tag "md4";
  md5_Sum := tag "md5";
  sha1_Sum := tag "sha1";
  sha224_Sum := tag "sha224";
  sha256_Sum := tag "sha256";
  sha384_Sum := tag "sha384";
  sha512_Sum := tag "sha512"
}.

End ExampleLib.

(** ** Resource classes

    The three kinds of record a key owns, each under its own prefix and
    with its own marker. *)

Inductive ResourceClass : Type :=
| RequestRecord
| ResponseHeaderRecord
| ResponseBodyRecord.

Definition classPrefix (c : ResourceClass) : string :=
  match c with
  | RequestRecord => requestPrefix
  | ResponseHeaderRecord => headerPrefix
  | ResponseBodyRecord => bodyPrefix
  end.

Section Classes.
Context {lib : GoLib} {FS : Type} {vfs : VFS FS}.

Definition contentPath (s : store) (c : ResourceClass) (key : string) : string :=
  classPrefix c ++ formatPrefix ++ HashKey s key.

Definition markerPath (s : store) (c : ResourceClass) (key : string) : string :=
  contentPath s c key ++ ".private".

(** The single-class delete operation of a class. *)
Definition deleteClass (s : store) (c : ResourceClass) (key : string)
  : M FS (option error) :=
  match c with
  | RequestRecord => DelRequest s key
  | ResponseHeaderRecord => DelResponseHeader s key
  | ResponseBodyRecord => DelResponseBody s key
  end.

End Classes.

(** The world after the calls [cs] that left the filesystem as [fs]. *)
Definition after {FS} (w : World FS) (fs : FS) (cs : list Call) : World FS :=
  mkWorld fs (w_log w ++ cs)%list.

(** ** Header accessors and [CopyHeaders]

    [http.Header.Get], [Add] and [Del] work on the canonical form of the
    key they are given. *)

Definition Header_Get (h : Http.Header) (key : string) : string :=
  match h !! CanonicalMIMEHeaderKey key with
  | Some (v :: _) => v
  | _ => ""
  end.

Definition Header_Add (h : Http.Header) (key value : string) : Http.Header :=
  add_value h (CanonicalMIMEHeaderKey key) value.

Definition Header_Del (h : Http.Header) (key : string) : Http.Header :=
  delete (CanonicalMIMEHeaderKey key) h.

(** [for k, _ := range dst { dst.Del(k) }], the keys being produced in the
    order [ks]: a key removed before it is reached is not produced. *)
Definition clearRanged (ks : list string) (dst : Http.Header) : Http.Header :=
  fold_left
    (fun d k => if decide (is_Some (d !! k)) then Header_Del d k else d)
    ks dst.

(** [for k, vs := range src { for _, v := range vs { dst.Add(k, v) } }],
    the entries being produced in the order [kvs]. *)
Definition addRanged (kvs : list (string * list string)) (dst : Http.Header)
  : Http.Header :=
  fold_left
    (fun d kv => fold_left (fun d v => Header_Add d kv.1 v) kv.2 d)
    kvs dst.

(** [CopyHeaders(src, dst)], for [dst] a map other than [src]; [dstKeys]
    and [srcEntries] are the orders in which the two [range] loops produce
    the keys of [dst] and the entries of [src] (Go leaves the order open).
    The result is [dst] as the call leaves it. *)
Definition CopyHeaders (dstKeys : list string)
  (srcEntries : list (string * list string)) (dst : Http.Header)
  : Http.Header :=
  let cleared := clearRanged dstKeys dst in
  let copied := addRanged srcEntries cleared in
  if String.eqb (Header_Get copied "Content-Type") ""
  then Header_Add copied "Content-Type" "    "
  else copied.

(** [Response.HasValidators] and [Response.Via]. *)
Definition HasValidators (r : Response) : bool :=
  negb (String.eqb (Header_Get (header r) "Last-Modified") "")
  || negb (String.eqb (Header_Get (header r) "Etag") "").

Definition viaPseudonym : string := "ms-store".

Definition Via (r : Response) : string := "1.1 " ++ viaPseudonym.

(** * The vocabulary of the properties *)

(** ** Digest selectors, call logs *)

Definition digestSelectors : list string :=
  ["sha224"; "sha384"; "sha512"; "sha1"; "md5"; "md4"; "plain"].

Definition no_stat (c : Call) : Prop :=
  match c with
  | CStat _ => False
  | _ => True
  end.

(** The calls made from [w] to [w'] include no [Stat]. *)
Definition extends_without_stat {FS} (w w' : World FS) : Prop :=
  exists cs, w_log w' = (w_log w ++ cs)%list /\ Forall no_stat cs.

(** ** Outcomes of the store operations by class *)

Section ClassOutcomes.
Context {lib : GoLib} {FS : Type} {vfs : VFS FS}.
Implicit Types (w : World FS) (s : store).

(** The retrieve operation of a class fails with [e], returns no value (a
    nil pointer, or the zero [Header]) and leaves the world [w']. *)
Definition retrieveFailsWith s (c : ResourceClass) (key : string) w
  (e : error) (w' : World FS) : Prop :=
  match c with
  | RequestRecord => RetrieveRequest s key w = ((None, Some e), w')
  | ResponseHeaderRecord =>
      RetrieveResponseHeader s key w = ((mkHeader ∅ 0, Some e), w')
  | ResponseBodyRecord => RetrieveResponse s key w = ((None, Some e), w')
  end.

(** With [override] false, the store operation of a class fails with [e]
    and leaves the world [w'], whatever is to be stored. *)
Definition storeFailsWith s (c : ResourceClass) (key : string) w
  (e : error) (w' : World FS) : Prop :=
  match c with
  | RequestRecord =>
      forall h, StoreRequest s h key false w = (Return (Some e), w')
  | ResponseHeaderRecord =>
      forall code h, storeHeader s code h key false w = (Some e, w')
  | ResponseBodyRecord =>
      forall r, storeBody s r key false w = (Some e, w')
  end.

(** Acquire the marker, write the content, release the marker: the
    sequence the three store operations share. *)
Definition commit (path : string) (r : ReadSeekCloser) : M FS (option error) :=
  bind (vfsCreatePrivateDummy (path ++ ".private")) (fun _ =>
  bind (vfsWrite path r) (fun err =>
  match err with
  | Some e => ret (Some e)
  | None =>
      bind (vfsDeletePrivateDummy (path ++ ".private")) (fun _ => ret None)
  end)).

(** With [override] true, the store operation of a class makes no [Stat]
    call, and when it returns nil the content path holds the bytes just
    written. *)
Definition overrideReplaces s (c : ResourceClass) (key : string) w : Prop :=
  let p := contentPath s c key in
  match c with
  | RequestRecord =>
      forall h o w', StoreRequest s h key true w = (o, w') ->
        extends_without_stat w w' /\
        (o = Return None ->
         exists u, absoluteURL h = Some u /\
           fs_Open (w_fs w') p =
             inr (requestWire (Method h) u (Proto h) (ReqHeader h)))
  | ResponseHeaderRecord =>
      forall code h e w', storeHeader s code h key true w = (e, w') ->
        extends_without_stat w w' /\
        (e = None -> fs_Open (w_fs w') p = inr (responseHeaderWire code h))
  | ResponseBodyRecord =>
      forall r e w', storeBody s r key true w = (e, w') ->
        extends_without_stat w w' /\
        (e = None -> fs_Open (w_fs w') p = inr (fst (read_all r)))
  end.

(** What retrieving [path] as a request gives on the filesystem [fs]: the
    request, when the retrieval and the decoding succeed. *)
Definition decodes (fs : FS) (path : string) : option Request :=
  match fst (RetrieveRequestByFileName path (mkWorld fs [])) with
  | (Some request, None) => Some request
  | _ => None
  end.

End ClassOutcomes.

(** ** Valid header blocks and their comparison *)

(** No byte of [s] is [c]. *)
Definition no_byte (c : ascii) (s : string) : bool :=
  all_bytes (fun d => negb (Ascii.eqb d c)) s.

(** The next input does not continue the line being read. *)
Definition no_continuation (r : string) : Prop :=
  match r with
  | "" => True
  | String c _ => is_sp_tab c = false
  end.

(** A header name [Header.Write] emits and [ReadMIMEHeader] accepts. *)
Definition valid_name (k : string) : Prop := ValidHeaderFieldName k = true.

(** A header value that is written and read back unchanged: its bytes are
    valid in a field value and it neither starts nor ends with a space or
    a tab. *)
Definition valid_value (v : string) : Prop :=
  all_bytes validHeaderValueByte v = true /\
  trim_left is_sp_tab v = v /\ trim_right is_sp_tab v = v.

(** What [Header.Write] puts after the colon, as [ReadMIMEHeader] sees it
    once the line is trimmed. *)
Definition after_colon (v : string) : string :=
  trim_right is_sp_tab (String SP v).

(** The lines of a header block: one (key, value) pair a line. *)
Definition pairs (kvs : list (string * list string)) : list (string * string) :=
  flat_map (fun kv => map (fun v => (kv.1, v)) kv.2) kvs.

Definition wire_lines (ps : list (string * string)) : string :=
  fold_right (fun p out => (p.1 ++ ": " ++ p.2 ++ CRLF) ++ out) "" ps.

Definition valid_pair (p : string * string) : Prop :=
  valid_name p.1 /\ valid_value p.2.

Definition add_pair (m : MIMEHeader) (p : string * string) : MIMEHeader :=
  add_value m (canon_bytes true p.1) p.2.

Definition valid_entry (kv : string * list string) : Prop :=
  valid_name kv.1 /\ Forall valid_value kv.2.

(** Two header names are the same name when they differ only in case. *)
Definition name_eq_ci (a b : string) : Prop := ascii_ToLower a = ascii_ToLower b.

(** A header block that is written and read back: valid names with at
    least one value each, valid values, and no two names that differ only
    in case. *)
Definition valid_header (h : Http.Header) : Prop :=
  (forall k vs, h !! k = Some vs ->
     valid_name k /\ vs <> [] /\ Forall valid_value vs) /\
  (forall k1 k2, is_Some (h !! k1) -> is_Some (h !! k2) ->
     name_eq_ci k1 k2 -> k1 = k2).

(** Equality under case-insensitive comparison of the names: every entry
    of one block has an entry of the other with the same name up to case
    and the same values. *)
Definition same_header_ci (h d : Http.Header) : Prop :=
  (forall k vs, h !! k = Some vs ->
     exists k', name_eq_ci k k' /\ d !! k' = Some vs) /\
  (forall k' vs, d !! k' = Some vs ->
     exists k, name_eq_ci k k' /\ h !! k = Some vs).

(** The names are in the canonical form of [CanonicalMIMEHeaderKey]. *)
Definition canonical_names (h : Http.Header) : Prop :=
  forall k, is_Some (h !! k) -> CanonicalMIMEHeaderKey k = k.

(** The header block [ReadMIMEHeader] builds from what [Header.Write]
    wrote for [h]. *)
Definition readBack (h : Http.Header) : MIMEHeader :=
  fold_left add_pair (pairs (sortedKeyValues h)) ∅.

(** The values read under the key [k'], in the order of the lines. *)
Definition gather (k' : string) (ps : list (string * string)) : list string :=
  map snd (filter (fun p => canon_bytes true p.1 = k') ps).

(** ** Ranging over maps, counting bytes, calls that leave markers alone *)

(** [l] is an order in which a [range] loop may produce the entries of
    [m]: each entry once. *)
Definition range_order {V} (m : gmap string V) (l : list (string * V)) : Prop :=
  l ≡ₚ map_to_list m.

(** The number of bytes of [s] that are [c]. *)
Fixpoint count_byte (c : ascii) (s : string) : nat :=
  match s with
  | "" => 0
  | String d r => (if Ascii.eqb d c then 1 else 0) + count_byte c r
  end.

Definition no_remove (c : Call) : Prop :=
  match c with
  | CRemove _ => False
  | _ => True
  end.

(** The calls made from [w] to [w'] include no [Remove]. *)
Definition extends_without_remove {FS} (w w' : World FS) : Prop :=
  exists cs, w_log w' = (w_log w ++ cs)%list /\ Forall no_remove cs.

(** [Stat] finds no marker of size above zero at [path ++ ".private"]. *)
Definition marker_idle {FS} {vfs : VFS FS} (fs : FS) (path : string) : Prop :=
  forall fi, fs_Stat fs (path ++ ".private") = inr fi -> (fi_Size fi <= 0)%Z.

(** The bytes of [s] are lower-case hexadecimal digits. *)
Definition is_hex (s : string) : bool :=
  all_bytes (fun c => is_digit c || (("a" <=? c) && (c <=? "f"))%char) s.

(** ** Runs of the store operations, and the calls they make *)

(** What [RetrieveRequestByFileName] makes of the result of
    [readRequest]. *)
Definition retrieved (r : option Request * option error)
  : option Request * option error :=
  match snd r with
  | Some e => (None, Some (if IsNotExist e then ErrNotFoundInStore else e))
  | None => (fst r, None)
  end.

(** The request [readRequest] builds from a request line with the fields
    [method] and the text of a URL that parses to [u0], and the header
    block [d]. *)
Definition decodedRequest (method : string) (u0 : URL) (d : Http.Header)
  : Request :=
  mkRequest method
    (Some (mkURL (Scheme u0) (Opaque u0) (User u0) (removeEmptyPort (Host u0))
             (Path u0) (RawQuery u0) (Fragment u0)))
    "HTTP/1.1" d (removeEmptyPort (Host u0)) "".

(** The calls of a retrieval that reaches the content of a record. *)
Definition readCalls (path : string) : list Call :=
  [CStat (path ++ ".private"); COpen path; CStat path].

(** The calls a store operation may make for the record at [p]: [Stat]
    and [OpenFile] on the content and the marker, writes to the content,
    the write of [dummy] to the marker, [MkdirAll] on their directories and
    the [Remove] of the marker. *)
Definition ownCall (p : string) (call : Call) : Prop :=
  match call with
  | CStat x | COpenFile x => x = p \/ x = p ++ ".private"
  | CWrite x d => x = p \/ (x = p ++ ".private" /\ d = "dummy")
  | CMkdirAll x => x = GoPath.Dir p \/ x = GoPath.Dir (p ++ ".private")
  | CRemove x => x = p ++ ".private"
  | COpen _ | CWalk _ | CDo _ => False
  end.

(** The result of a retrieval is a value without error or an error
    without value. *)
Definition valueXorError {A} (r : option A * option error) : Prop :=
  match r with
  | (Some _, None) | (None, Some _) => True
  | _ => False
  end.

Section ClassRuns.
Context {lib : GoLib} {FS : Type} {vfs : VFS FS}.
Implicit Types (w : World FS) (s : store).

(** A store operation of the class returned nil and took [w] to [w'],
    with something to store: a request and a header record always have a
    first line, a body may be empty. *)
Definition storeSucceeds s (c : ResourceClass) (key : string) w w' : Prop :=
  match c with
  | RequestRecord =>
      exists h ov, StoreRequest s h key ov w = (Return None, w')
  | ResponseHeaderRecord =>
      exists code h ov, storeHeader s code h key ov w = (None, w')
  | ResponseBodyRecord =>
      exists r ov, storeBody s r key ov w = (None, w') /\ fst (read_all r) <> ""
  end.

(** A store operation of the class did not return nil (it returned an
    error, or [StoreRequest] panicked) and took [w] to [w']. *)
Definition storeFails s (c : ResourceClass) (key : string) w w' : Prop :=
  match c with
  | RequestRecord =>
      exists h ov o, StoreRequest s h key ov w = (o, w') /\ o <> Return None
  | ResponseHeaderRecord =>
      exists code h ov e, storeHeader s code h key ov w = (Some e, w')
  | ResponseBodyRecord =>
      exists r ov e, storeBody s r key ov w = (Some e, w')
  end.

(** A store operation of the class ran from [w] to [w'], whatever it
    returned. *)
Definition storeRuns s (c : ResourceClass) (key : string) w w' : Prop :=
  match c with
  | RequestRecord => exists h ov o, StoreRequest s h key ov w = (o, w')
  | ResponseHeaderRecord =>
      exists code h ov e, storeHeader s code h key ov w = (e, w')
  | ResponseBodyRecord => exists r ov e, storeBody s r key ov w = (e, w')
  end.

(** The calls of the guard of a store operation on a class whose marker
    is idle. *)
Definition guardCalls s (c : ResourceClass) (key : string) : list Call :=
  [CStat (markerPath s c key); CStat (contentPath s c key)].

(** The calls made from [w] to [w'] are calls for the record at [p]. *)
Definition confined (p : string) w w' : Prop :=
  exists cs, w_log w' = (w_log w ++ cs)%list /\ Forall (ownCall p) cs.

End ClassRuns.

(** ** Ranging over header blocks *)

(** [ks] is an order in which a [range] loop may produce the keys of [m]. *)
Definition key_order {V} (m : gmap string V) (ks : list string) : Prop :=
  ks ≡ₚ (map_to_list m).*1.

(** What [CopyHeaders] leaves under a name of the source. *)
Definition copiedEntry (src : Http.Header) (k : string)
  : option (list string) :=
  match src !! k with
  | Some (v :: vs) => Some (v :: vs)
  | _ => None
  end.

(** ** Worlds to run the store on *)

Module Examples.
Import ExampleLib.

(** The store [NewVFSStore] builds: no selector, a client without network. *)
Definition exStore : store :=
  mkStore "" (fun _ => (None, Some (ErrorString "dial tcp: no network"))).

Definition exHeader : Http.Header := <["Host" := ["example.com"]]> ∅.

Definition exRequest (path : string) : Request :=
  mkRequest "GET" (Some (mkURL "http" "" "" "example.com" path "" ""))
    "HTTP/1.1" exHeader "example.com" "".

Definition emptyWorld : World MemFS.t := mkWorld ∅ [].

Definition run_on {A} (m : M MemFS.t A) (w : World MemFS.t) : World MemFS.t :=
  snd (m w).

(** Three requests stored under the keys [a], [b] and [c]. *)
Definition threeStored : World MemFS.t :=
  run_on (StoreRequest exStore (exRequest "/c") "c" false)
    (run_on (StoreRequest exStore (exRequest "/b") "b" false)
       (run_on (StoreRequest exStore (exRequest "/a") "a" false) emptyWorld)).

(** The file at [path] overwritten with [data], behind the store's back. *)
Definition overwritten (path data : string) (w : World MemFS.t) : World MemFS.t :=
  mkWorld (MemFS.Write (MemFS.OpenFile (w_fs w) path).1 path data).1 (w_log w).

(** The record of [b] corrupted. *)
Definition oneCorrupted : World MemFS.t :=
  overwritten (contentPath exStore RequestRecord "b") "garbage" threeStored.

(** A marker left behind on the request of [a]. *)
Definition markerLeft : World MemFS.t :=
  overwritten (markerPath exStore RequestRecord "a") "dummy" threeStored.

(** A header record of [a] truncated to nothing. *)
Definition headerEmptied : World MemFS.t :=
  overwritten (contentPath exStore ResponseHeaderRecord "a") ""
    (run_on (storeHeader exStore 200 exHeader "a" false) emptyWorld).

(** A client whose [CheckRedirect] refuses to follow: the response comes
    back with the error; and a client that reaches nobody. *)
Definition redirected : HttpResponse :=
  mkHttpResponse 302 (<["Location" := ["http://example.com/b"]]> ∅)
    (mkBody "moved" None).

Definition redirectStore : store :=
  mkStore "" (fun req =>
    (Some redirected,
     Some (ErrorString "Get http://example.com/a: REDIRECT!!!"))).

Definition redirectKept : World MemFS.t :=
  snd (StoreResponse (lib := example_lib) redirectStore
         (NewResponseFromHttp redirected (resp_Body redirected)) "a" false
         (after emptyWorld (w_fs emptyWorld) [CDo (exRequest "/a")])).

(** A client that reaches nobody, asked for a URL that holds the text
    [REDIRECT!!!]: [Do] returns no response, and an error that quotes the
    URL. *)
Definition refusedStore : store :=
  mkStore "" (fun _ =>
    (None,
     Some (ErrorString
             "Get http://example.com/REDIRECT!!!: dial tcp 192.0.2.1:80: connect: connection refused"))).

(** The request of [a] stored in an empty store. *)
Definition oneStored : World MemFS.t :=
  run_on (StoreRequest exStore (exRequest "/a") "a" false) emptyWorld.

(** A response, and the store after it was stored under [a]. *)
Definition exResponse : Response := NewResponseBytes 200 "hello" exHeader.

Definition responseStored : World MemFS.t :=
  run_on (StoreResponse exStore exResponse "a" false) emptyWorld.

(** A body stored without its header record, and an empty body. *)
Definition bodyOnly : World MemFS.t :=
  run_on (storeBody exStore (ByteReadSeekCloser "hello") "a" false) emptyWorld.

Definition emptyBodyStored : World MemFS.t :=
  run_on (storeBody exStore (ByteReadSeekCloser "") "a" false) emptyWorld.

(** A network body that breaks off after three bytes. *)
Definition brokenBody : Body :=
  mkBody "hel" (Some (ErrorString "unexpected EOF")).

Definition brokenResponse : Response :=
  NewResponseFromHttp (mkHttpResponse 200 exHeader brokenBody) brokenBody.

(** The request of [b] deleted from the three. *)
Definition oneDeleted : World MemFS.t :=
  run_on (DelRequest exStore "b") threeStored.

(** A store that uses the keys as they are, and a request stored by it
    under [a.private]. *)
Definition plainStore : store :=
  mkStore "Plain" (fun _ => (None, Some (ErrorString "dial tcp: no network"))).

Definition shadowed : World MemFS.t :=
  run_on (StoreRequest plainStore (exRequest "/a") "a.private" false)
    emptyWorld.

End Examples.

(** * Properties *)

Ltac run :=
  unfold bind, ret, Stat, Open, OpenFile, Write, Remove, MkdirAll, Walk, Do,
    logged, after; simpl.

Section StoreFacts.
Context {lib : GoLib} {FS : Type} {vfs : VFS FS}.
Implicit Types (w : World FS) (s : store).

Lemma privateFileExists_present w file fi :
  fs_Stat (w_fs w) (file ++ ".private") = inr fi ->
  (0 < fi_Size fi)%Z ->
  privateFileExists file w =
    (Some ErrFoundInStorePrivate, after w (w_fs w) [CStat (file ++ ".private")]).
Proof.
  intros Hst Hsz. unfold privateFileExists. run. rewrite Hst.
  apply Z.ltb_lt in Hsz. by rewrite Hsz.
Qed.

Lemma privateFileExists_absent w file :
  (forall fi, fs_Stat (w_fs w) (file ++ ".private") = inr fi -> (fi_Size fi <= 0)%Z) ->
  privateFileExists file w =
    (None, after w (w_fs w) [CStat (file ++ ".private")]).
Proof.
  intros Hst. unfold privateFileExists. run.
  destruct (fs_Stat (w_fs w) (file ++ ".private")) as [e|fi] eqn:E; [done|].
  specialize (Hst fi eq_refl). apply Z.ltb_ge in Hst. by rewrite Hst.
Qed.

End StoreFacts.

(** ** Closing a response built from a live network response *)

Lemma Close_run_spins (b : Body) (fuel depth : nat) (closed : bool) :
  Close_run fuel (Calling (IoReaderToReadSeekCloser b) depth closed) =
  Calling (IoReaderToReadSeekCloser b) (fuel + depth) closed.
Proof.
  revert depth. induction fuel as [|fuel IH]; intros depth; simpl; [done|].
  rewrite IH. f_equal. lia.
Qed.

(** C10. For every response built by [NewResponseFromHttp], [Close] has not
    returned after any number of steps: each step is one more call of
    [IoReaderToReadSeekCloser.Close] on the same receiver, and the body from
    the network stays unclosed. *)
Theorem Close_of_http_response_never_returns
  (resp : HttpResponse) (b : Body) (fuel : nat) :
  Response_Close fuel (NewResponseFromHttp resp b) = None /\
  Close_run fuel (Calling (body (NewResponseFromHttp resp b)) 0 false) =
    Calling (IoReaderToReadSeekCloser b) fuel false.
Proof.
  unfold Response_Close. simpl. rewrite Close_run_spins.
  by rewrite Nat.add_0_r.
Qed.

(** The other implementations of [Close] return at the first step. *)
Lemma Close_of_bytes_returns (code : Z) (data : string) (h : Http.Header) :
  Response_Close 1 (NewResponseBytes code data h) = Some None.
Proof. reflexivity. Qed.

(** ** Key digests *)

Section HashKeyFacts.
Context {lib : GoLib}.

(** C7. [HashKey] is a function of the selector and the key alone.  With
    the selector compared after [strings.ToLower]: [plain] returns the
    key; [sha224], [sha384], [sha512], [sha1], [md5] and [md4] return the
    hexadecimal digest under that algorithm; any other selector, the
    empty one included, returns the hexadecimal SHA-256 digest; and equal
    keys under the same selector have equal digests. *)
Theorem HashKey_selects (s : store) (key : string) :
  let sel := strings_ToLower (hash s) in
  (sel = "plain" -> HashKey s key = key) /\
  (sel = "sha224" -> HashKey s key = hex (sha224_Sum key)) /\
  (sel = "sha384" -> HashKey s key = hex (sha384_Sum key)) /\
  (sel = "sha512" -> HashKey s key = hex (sha512_Sum key)) /\
  (sel = "sha1" -> HashKey s key = hex (sha1_Sum key)) /\
  (sel = "md5" -> HashKey s key = hex (md5_Sum key)) /\
  (sel = "md4" -> HashKey s key = hex (md4_Sum key)) /\
  (sel ∉ digestSelectors -> HashKey s key = hex (sha256_Sum key)) /\
  (forall (s' : store) (key' : string),
      hash s' = hash s -> key' = key -> HashKey s' key' = HashKey s key).
Proof.
  intros sel. split_and!; try (intros Hs; unfold HashKey; fold sel;
                               rewrite Hs; reflexivity).
  - intros Hsel. unfold HashKey. fold sel. clearbody sel.
    repeat match goal with
           | |- context [String.eqb sel ?x] =>
               destruct (String.eqb_spec sel x) as [E|_];
               [exfalso; apply Hsel; rewrite E; unfold digestSelectors;
                set_solver|]
           end.
    reflexivity.
  - intros s' key' Hh ->. unfold HashKey. by rewrite Hh.
Qed.

End HashKeyFacts.

(** The default store, whose selector is never set, and a store in plain
    mode, on the example library. *)
Lemma HashKey_selects_witness :
  HashKey (lib := ExampleLib.example_lib) (mkStore "" (fun _ => (None, None))) "a"
    = hex (sha256_Sum (GoLib := ExampleLib.example_lib) "a") /\
  HashKey (lib := ExampleLib.example_lib) (mkStore "PLAIN" (fun _ => (None, None))) "a"
    = "a" /\
  HashKey (lib := ExampleLib.example_lib) (mkStore "Md5" (fun _ => (None, None))) "a"
    = hex (md5_Sum (GoLib := ExampleLib.example_lib) "a").
Proof.
  split_and!.
  - destruct (HashKey_selects (lib := ExampleLib.example_lib)
                (mkStore "" (fun _ => (None, None))) "a")
      as (_ & _ & _ & _ & _ & _ & _ & Hdefault & _).
    apply Hdefault. unfold digestSelectors. simpl. intros Hin.
    repeat (apply elem_of_cons in Hin as [Hin|Hin]; [discriminate Hin|]).
    by apply elem_of_nil in Hin.
  - destruct (HashKey_selects (lib := ExampleLib.example_lib)
                (mkStore "PLAIN" (fun _ => (None, None))) "a")
      as (Hplain & _).
    apply Hplain. reflexivity.
  - destruct (HashKey_selects (lib := ExampleLib.example_lib)
                (mkStore "Md5" (fun _ => (None, None))) "a")
      as (_ & _ & _ & _ & _ & Hmd5 & _).
    apply Hmd5. reflexivity.
Defined.

(** ** Retrieval: markers and empty records *)

Section RetrieveFacts.
Context {lib : GoLib} {FS : Type} {vfs : VFS FS}.
Implicit Types (w : World FS) (s : store).

Lemma RetrieveRequestByFileName_marker w filename fi :
  fs_Stat (w_fs w) (filename ++ ".private") = inr fi ->
  (0 < fi_Size fi)%Z ->
  RetrieveRequestByFileName filename w =
    ((None, Some ErrFoundInStorePrivate),
     after w (w_fs w) [CStat (filename ++ ".private")]).
Proof.
  intros Hst Hsz. unfold RetrieveRequestByFileName, bind at 1.
  by rewrite (privateFileExists_present _ _ _ Hst Hsz).
Qed.

(** C4. Whatever the class and the key: when [Stat] finds the marker with a
    size above zero, the retrieve operation fails with
    [ErrFoundInStorePrivate], returns no value and has made one call, the
    [Stat] of the marker (the content path is neither opened nor read,
    whatever is there); when [Stat] fails on the marker or finds it of
    size zero, [privateFileExists] reports no write in progress. *)
Theorem marker_precedence s (c : ResourceClass) (key : string) w :
  let w' := after w (w_fs w) [CStat (markerPath s c key)] in
  (forall fi, fs_Stat (w_fs w) (markerPath s c key) = inr fi ->
              (0 < fi_Size fi)%Z ->
              retrieveFailsWith s c key w ErrFoundInStorePrivate w') /\
  ((forall fi, fs_Stat (w_fs w) (markerPath s c key) = inr fi ->
               (fi_Size fi <= 0)%Z) ->
   privateFileExists (contentPath s c key) w = (None, w')).
Proof.
  intros w'. subst w'. unfold markerPath, contentPath. split.
  - intros fi Hst Hsz. destruct c; unfold retrieveFailsWith, classPrefix in *.
    + by apply (RetrieveRequestByFileName_marker _ _ fi).
    + unfold RetrieveResponseHeader, bind at 1.
      by rewrite (privateFileExists_present _ _ _ Hst Hsz).
    + unfold RetrieveResponse, bind at 1.
      by rewrite (privateFileExists_present _ _ _ Hst Hsz).
  - intros Hidle. by apply privateFileExists_absent.
Qed.

(** A request or body record that is present with zero length, and whose
    marker is absent or empty, is reported as [ErrFoundWithZeroInStore]. *)
Lemma request_found_empty w filename data fi :
  (forall fi, fs_Stat (w_fs w) (filename ++ ".private") = inr fi ->
              (fi_Size fi <= 0)%Z) ->
  fs_Open (w_fs w) filename = inr data ->
  fs_Stat (w_fs w) filename = inr fi ->
  fi_Size fi = 0%Z ->
  RetrieveRequestByFileName filename w =
    ((None, Some ErrFoundWithZeroInStore),
     after w (w_fs w)
       [CStat (filename ++ ".private"); COpen filename; CStat filename]).
Proof.
  intros Hidle Hopen Hst Hsz. unfold RetrieveRequestByFileName, bind at 1.
  rewrite (privateFileExists_absent _ _ Hidle). run.
  rewrite Hopen. simpl. rewrite Hst. simpl. rewrite Hsz. simpl.
  by rewrite <- !app_assoc.
Qed.

Lemma body_found_empty s key w data fi :
  (forall fi, fs_Stat (w_fs w) (markerPath s ResponseBodyRecord key) = inr fi ->
              (fi_Size fi <= 0)%Z) ->
  fs_Open (w_fs w) (contentPath s ResponseBodyRecord key) = inr data ->
  fs_Stat (w_fs w) (contentPath s ResponseBodyRecord key) = inr fi ->
  fi_Size fi = 0%Z ->
  RetrieveResponse s key w =
    ((None, Some ErrFoundWithZeroInStore),
     after w (w_fs w)
       [CStat (markerPath s ResponseBodyRecord key);
        COpen (contentPath s ResponseBodyRecord key);
        CStat (contentPath s ResponseBodyRecord key)]).
Proof.
  unfold markerPath, contentPath, classPrefix.
  intros Hidle Hopen Hst Hsz. unfold RetrieveResponse, bind at 1.
  rewrite (privateFileExists_absent _ _ Hidle). run.
  rewrite Hopen. simpl. rewrite Hst. simpl. rewrite Hsz. simpl.
  by rewrite <- !app_assoc.
Qed.

(** C2, where the code departs from the specification.
    [RetrieveResponseHeader] never looks at the size of the header record:
    one that is present with zero length, and whose marker is absent or
    empty, is handed to [readResponseHeaders], whose first [ReadLine] fails
    with [io.EOF]; that error is returned, not [ErrFoundWithZeroInStore]
    (which the request and body records do return: [request_found_empty],
    [body_found_empty]). *)
Theorem header_found_empty_is_EOF s key w :
  (forall fi, fs_Stat (w_fs w) (markerPath s ResponseHeaderRecord key) = inr fi ->
              (fi_Size fi <= 0)%Z) ->
  fs_Open (w_fs w) (contentPath s ResponseHeaderRecord key) = inr "" ->
  RetrieveResponseHeader s key w =
    ((mkHeader ∅ 0, Some EOF),
     after w (w_fs w)
       [CStat (markerPath s ResponseHeaderRecord key);
        COpen (contentPath s ResponseHeaderRecord key)]) /\
  EOF <> ErrFoundWithZeroInStore.
Proof.
  unfold markerPath, contentPath, classPrefix.
  intros Hidle Hopen. split; [|done].
  unfold RetrieveResponseHeader, bind at 1.
  rewrite (privateFileExists_absent _ _ Hidle). run.
  rewrite Hopen. simpl. by rewrite <- !app_assoc.
Qed.

End RetrieveFacts.

(** ** Deletion *)

Section DeleteFacts.
Context {lib : GoLib} {FS : Type} {vfs : VFS FS}.
Implicit Types (w : World FS) (s : store).

Lemma DelByFilename_spec w filename :
  DelByFilename filename w =
    (match snd (fs_Remove (w_fs w) filename) with
     | Some e => Some (if IsNotExist e then ErrNotFoundInStore else e)
     | None => None
     end,
     after w (fst (fs_Remove (w_fs w) filename)) [CRemove filename]).
Proof.
  unfold DelByFilename. run.
  destruct (fs_Remove (w_fs w) filename) as [fs1 [e|]]; simpl; [|done].
  by destruct (IsNotExist e).
Qed.

(** C8. A single-class delete removes the content path: when that removal
    fails, the delete returns [ErrNotFoundInStore] for a does-not-exist
    error and the error itself otherwise, and the marker is left alone;
    when it succeeds, the marker path is removed next and the delete
    returns nil whatever that second removal returns.  [DelResponse] is
    [DelResponseBody], then, if that returned nil, [DelResponseHeader]: the
    first error of the two is the result. *)
Theorem delete_removes_content_then_marker s (c : ResourceClass)
  (key : string) w :
  let p := contentPath s c key in
  let m := markerPath s c key in
  deleteClass s c key w =
    match fs_Remove (w_fs w) p with
    | (fs1, Some e) =>
        (Some (if IsNotExist e then ErrNotFoundInStore else e),
         after w fs1 [CRemove p])
    | (fs1, None) =>
        (None, after w (fst (fs_Remove fs1 m)) [CRemove p; CRemove m])
    end /\
  DelResponse s key w =
    match DelResponseBody s key w with
    | (Some e, w1) => (Some e, w1)
    | (None, w1) => DelResponseHeader s key w1
    end.
Proof.
  intros p m. subst p m. unfold markerPath, contentPath. split.
  - destruct c; unfold deleteClass, classPrefix,
      DelRequest, DelResponseHeader, DelResponseBody, bind;
      rewrite DelByFilename_spec;
      (destruct (fs_Remove (w_fs w) _) as [fs1 [e|]] eqn:E; simpl;
       [by destruct (IsNotExist e)|]);
      rewrite DelByFilename_spec; unfold ret, after; simpl;
      by rewrite <- app_assoc.
  - unfold DelResponse, bind.
    destruct (DelResponseBody s key w) as [[e|] w1]; [done|].
    unfold ret. destruct (DelResponseHeader s key w1) as [[e|] w2]; done.
Qed.

End DeleteFacts.

(** ** Fetch and store *)

#[global] Arguments Contains : simpl never.

Section FetchFacts.
Context {lib : GoLib} {FS : Type} {vfs : VFS FS}.
Implicit Types (w : World FS) (s : store).

(** C3, where the code departs from the specification.  When
    [client.Do] returns an error, the key having been resolved to [k]: if
    the error's text does not contain [REDIRECT!!!], that error is returned
    at once, the filesystem is untouched and the only call made is the
    [Do]; if it contains it and a response came with it, the error is
    dropped and the result is that of [StoreResponse] on the response
    wrapped by [NewResponseFromHttp].  But the error is dropped on its text
    alone, and the response is then used without a check: when no response
    came with it (what [Do] returns for every failure that is not a
    refused redirect), reading [resp.Body] dereferences a nil pointer; the
    call panics after the [Do], and nothing is wrapped or stored. *)
Theorem fetch_transport_error s (request : Request) (key k : string)
  (override : bool) w (resp : option HttpResponse) (err : error) :
  fetchKey request key = Some k ->
  client s request = (resp, Some err) ->
  let w1 := after w (w_fs w) [CDo request] in
  (Contains (Error_text err) "REDIRECT!!!" = true ->
   forall r, resp = Some r ->
     FetchAndStoreResponse s request key override w =
       (Return (fst (StoreResponse s (NewResponseFromHttp r (resp_Body r))
                       k override w1)),
        snd (StoreResponse s (NewResponseFromHttp r (resp_Body r))
               k override w1))) /\
  (Contains (Error_text err) "REDIRECT!!!" = false ->
   FetchAndStoreResponse s request key override w = (Return (Some err), w1)) /\
  (Contains (Error_text err) "REDIRECT!!!" = true ->
   resp = None ->
   FetchAndStoreResponse s request key override w = (Panic, w1)).
Proof.
  intros Hk Hdo w1. unfold FetchAndStoreResponse. rewrite Hk.
  unfold Do. rewrite Hdo. split_and!.
  - intros Hc r ->. unfold bind at 1. cbn [fst snd]. rewrite Hc. simpl.
    unfold bind, ret. change (logged (CDo request) w (w_fs w)) with w1.
    by destruct (StoreResponse _ _ _ _ w1).
  - intros Hc. unfold bind at 1. cbn [fst snd]. rewrite Hc. reflexivity.
  - intros Hc ->. unfold bind at 1. cbn [fst snd]. rewrite Hc. reflexivity.
Qed.

(** Without a response to go with the swallowed error, reading
    [resp.Body] dereferences a nil pointer. *)
Lemma fetch_swallowed_without_response s (request : Request) (key k : string)
  (override : bool) w (err : error) :
  fetchKey request key = Some k ->
  client s request = (None, Some err) ->
  Contains (Error_text err) "REDIRECT!!!" = true ->
  FetchAndStoreResponse s request key override w =
    (Panic, after w (w_fs w) [CDo request]).
Proof.
  intros Hk Hdo Hc. unfold FetchAndStoreResponse. rewrite Hk.
  unfold Do. rewrite Hdo. unfold bind at 1. cbn [fst snd]. by rewrite Hc.
Qed.

End FetchFacts.

(** ** Storing: the guard and the replacement *)

Section StoreGuardFacts.
Context {lib : GoLib} {FS : Type} {vfs : VFS FS}.
Implicit Types (w : World FS) (s : store).

Lemma storeGuard_marker w path fi :
  fs_Stat (w_fs w) (path ++ ".private") = inr fi ->
  (0 < fi_Size fi)%Z ->
  storeGuard path w =
    (Some ErrFoundInStorePrivate, after w (w_fs w) [CStat (path ++ ".private")]).
Proof.
  intros Hst Hsz. unfold storeGuard. run. rewrite Hst.
  apply Z.ltb_lt in Hsz. by rewrite Hsz.
Qed.

Lemma storeGuard_content w path fi :
  (forall fi, fs_Stat (w_fs w) (path ++ ".private") = inr fi ->
              (fi_Size fi <= 0)%Z) ->
  fs_Stat (w_fs w) path = inr fi ->
  (0 < fi_Size fi)%Z ->
  storeGuard path w =
    (Some ErrFoundInStore,
     after w (w_fs w) [CStat (path ++ ".private"); CStat path]).
Proof.
  intros Hidle Hst Hsz. unfold storeGuard. run.
  apply Z.ltb_lt in Hsz.
  destruct (fs_Stat (w_fs w) (path ++ ".private")) as [e|fi'] eqn:E.
  - simpl. rewrite Hst. simpl. rewrite Hsz. simpl. by rewrite <- app_assoc.
  - specialize (Hidle fi' eq_refl). apply Z.ltb_ge in Hidle. rewrite Hidle.
    simpl. rewrite Hst. simpl. rewrite Hsz. simpl. by rewrite <- app_assoc.
Qed.

Lemma store_guard_fails s c key w e w' :
  storeGuard (contentPath s c key) w = (Some e, w') ->
  storeFailsWith s c key w e w'.
Proof.
  unfold contentPath. intros Hg.
  destruct c; unfold storeFailsWith, classPrefix in *; intros;
    unfold StoreRequest, storeHeader, storeBody, bind at 1; by rewrite Hg.
Qed.

End StoreGuardFacts.

Section OverrideFacts.
Context {lib : GoLib} {FS : Type} {vfs : VFS FS} {laws : VFSLaws FS}.
Implicit Types (w : World FS) (s : store).

Lemma extends_refl w : extends_without_stat w w.
Proof. exists []. split; [by rewrite app_nil_r|constructor]. Qed.

Lemma extends_trans w1 w2 w3 :
  extends_without_stat w1 w2 -> extends_without_stat w2 w3 ->
  extends_without_stat w1 w3.
Proof.
  intros (cs & E1 & F1) (cs' & E2 & F2). exists (cs ++ cs')%list. split.
  - by rewrite E2, E1, app_assoc.
  - by apply Forall_app.
Qed.

Ltac log_leaf :=
  unfold extends_without_stat; simpl; rewrite <- ?app_assoc;
  eexists; split; [reflexivity|repeat constructor].

Lemma vfsCreatePrivateDummy_log path w :
  extends_without_stat w (snd (vfsCreatePrivateDummy path w)).
Proof. unfold vfsCreatePrivateDummy. run. repeat case_match; simplify_eq/=; log_leaf. Qed.

Lemma vfsDeletePrivateDummy_log path w :
  extends_without_stat w (snd (vfsDeletePrivateDummy path w)).
Proof. unfold vfsDeletePrivateDummy. run. repeat case_match; simplify_eq/=; log_leaf. Qed.

Lemma vfsWrite_log path r w :
  extends_without_stat w (snd (vfsWrite path r w)).
Proof.
  unfold vfsWrite, Copy. run. destruct (read_all r) as [data rerr].
  repeat case_match; simplify_eq/=; log_leaf.
Qed.

Lemma vfsWrite_content path r w w1 :
  vfsWrite path r w = (None, w1) ->
  fs_Open (w_fs w1) path = inr (fst (read_all r)).
Proof.
  unfold vfsWrite, Copy. run. destruct (read_all r) as [data rerr]. simpl.
  destruct (fs_MkdirAll (w_fs w) (GoPath.Dir path)) as [fs1 [e|]]; [done|].
  simpl. destruct (fs_OpenFile fs1 path) as [fs2 [e|]] eqn:Ho; [done|].
  simpl. pose proof (law_create _ _ _ Ho) as Hempty.
  destruct data as [|c data]; simpl.
  - destruct rerr; [done|]. by intros [= <-].
  - destruct (fs_Write fs2 path (String c data)) as [fs3 [e|]] eqn:Hw; [done|].
    simpl. destruct rerr; [done|]. intros [= <-]. simpl.
    by rewrite (law_write _ _ _ _ _ Hempty Hw).
Qed.

Lemma vfsDeletePrivateDummy_keeps path w d :
  fs_Open (w_fs w) path = inr d ->
  fs_Open (w_fs (snd (vfsDeletePrivateDummy (path ++ ".private") w))) path
    = inr d.
Proof.
  intros Hd. unfold vfsDeletePrivateDummy. run.
  destruct (fs_MkdirAll (w_fs w) _) as [fs1 e1] eqn:Hm.
  pose proof (law_mkdir _ _ _ _ _ _ Hm Hd) as Hd1.
  destruct e1; [done|]. simpl.
  destruct (fs_Remove fs1 (path ++ ".private")) as [fs2 e2] eqn:Hr.
  pose proof (law_remove_marker _ _ _ _ _ Hr Hd1) as Hd2.
  destruct e2 as [e|]; [destruct (IsNotExist e)|]; done.
Qed.

Lemma commit_spec path r w e w' :
  commit path r w = (e, w') ->
  extends_without_stat w w' /\
  (e = None -> fs_Open (w_fs w') path = inr (fst (read_all r))).
Proof.
  unfold commit, bind.
  pose proof (vfsCreatePrivateDummy_log (path ++ ".private") w) as L1.
  destruct (vfsCreatePrivateDummy (path ++ ".private") w) as [e1 w1].
  pose proof (vfsWrite_log path r w1) as L2.
  destruct (vfsWrite path r w1) as [[e2|] w2] eqn:Hw; simpl in *.
  - intros [= <- <-]. split; [by eapply extends_trans|done].
  - pose proof (vfsDeletePrivateDummy_log (path ++ ".private") w2) as L3.
    pose proof (vfsDeletePrivateDummy_keeps path w2 _
                  (vfsWrite_content _ _ _ _ Hw)) as K.
    destruct (vfsDeletePrivateDummy (path ++ ".private") w2) as [e3 w3].
    simpl in *. intros [= <- <-]. split; [|done].
    eapply extends_trans; [|exact L3]. by eapply extends_trans.
Qed.

Lemma override_replaces s c key w : overrideReplaces s c key w.
Proof.
  unfold overrideReplaces, contentPath.
  destruct c; unfold classPrefix.
  - intros h o w'. unfold StoreRequest, bind at 1. unfold ret at 1.
    destruct (absoluteURL h) as [u|]; simpl.
    + set (p := requestPrefix ++ formatPrefix ++ HashKey s key).
      set (r := ByteReadSeekCloser (requestWire (Method h) u (Proto h) (ReqHeader h))).
      intros Hrun.
      destruct (commit p r w) as [e w1] eqn:Hc.
      destruct (commit_spec _ _ _ _ _ Hc) as [L K].
      unfold commit, bind in Hc. unfold bind in Hrun.
      destruct (vfsCreatePrivateDummy (p ++ ".private") w) as [e1 w2].
      destruct (vfsWrite p r w2) as [[e2|] w3].
      * simpl in *. injection Hrun as <- <-. injection Hc as <- <-.
        split; [done|discriminate].
      * destruct (vfsDeletePrivateDummy (p ++ ".private") w3) as [e3 w4].
        simpl in *. injection Hrun as <- <-. injection Hc as <- <-.
        split; [done|]. intros _. exists u. split; [done|]. by apply K.
    + intros [= <- <-]. split; [apply extends_refl|discriminate].
  - intros code h e w' Hrun.
    apply (commit_spec (headerPrefix ++ formatPrefix ++ HashKey s key)
             (ByteReadSeekCloser (responseHeaderWire code h)) w e w').
    exact Hrun.
  - intros r e w' Hrun.
    apply (commit_spec (bodyPrefix ++ formatPrefix ++ HashKey s key) r w e w').
    exact Hrun.
Qed.

(** C5. Whatever the class and the key, with [override] false: when [Stat]
    finds the marker with a size above zero the store operation fails with
    [ErrFoundInStorePrivate]; otherwise, when [Stat] finds the content with
    a size above zero, it fails with [ErrFoundInStore]; in both cases the
    filesystem is the one it started from and the only calls made are those
    [Stat]s.  With [override] true no [Stat] is made, and an operation that
    returns nil has left the bytes just written at the content path. *)
Theorem store_guard_and_override s (c : ResourceClass) (key : string) w :
  let p := contentPath s c key in
  let m := markerPath s c key in
  (forall fi, fs_Stat (w_fs w) m = inr fi -> (0 < fi_Size fi)%Z ->
     storeFailsWith s c key w ErrFoundInStorePrivate
       (after w (w_fs w) [CStat m])) /\
  (forall fi,
     (forall fi', fs_Stat (w_fs w) m = inr fi' -> (fi_Size fi' <= 0)%Z) ->
     fs_Stat (w_fs w) p = inr fi -> (0 < fi_Size fi)%Z ->
     storeFailsWith s c key w ErrFoundInStore
       (after w (w_fs w) [CStat m; CStat p])) /\
  overrideReplaces s c key w.
Proof.
  intros p m. split_and!.
  - intros fi Hst Hsz. apply store_guard_fails.
    by apply (storeGuard_marker _ _ fi).
  - intros fi Hidle Hst Hsz. apply store_guard_fails.
    by apply (storeGuard_content _ _ fi).
  - apply override_replaces.
Qed.

End OverrideFacts.

(** ** The in-memory filesystem keeps the laws *)

Section StringFacts.
#[local] Arguments String.append : simpl nomatch.

Lemma append_nil_r (s : string) : s ++ "" = s.
Proof. induction s as [|c s IH]; simpl; congruence. Qed.

Lemma append_assoc (a b c : string) : (a ++ b) ++ c = a ++ (b ++ c).
Proof. induction a as [|x a IH]; simpl; congruence. Qed.

Lemma length_append (a b : string) :
  String.length (a ++ b) = (String.length a + String.length b)%nat.
Proof. induction a as [|x a IH]; simpl; congruence. Qed.

Lemma append_inv_head (a b c : string) : a ++ b = a ++ c -> b = c.
Proof. induction a as [|x a IH]; simpl; [done|]. intros [= H]. by apply IH. Qed.

End StringFacts.

Module MemFSFacts.
Import MemFS GoPath.
#[local] Arguments String.append : simpl nomatch.

Lemma split_on_nonempty sep s : split_on sep s <> [].
Proof.
  destruct s as [|c r]; simpl; [done|].
  destruct (Ascii.eqb c sep); [done|]. by destruct (split_on sep r).
Qed.

Lemma split_on_no_sep sep t :
  all_bytes (fun c => negb (Ascii.eqb c sep)) t = true ->
  split_on sep t = [t].
Proof.
  induction t as [|c t IH]; simpl; [done|].
  intros [Hc Ht]%andb_true_iff. apply negb_true_iff in Hc. rewrite Hc.
  by rewrite (IH Ht).
Qed.

Lemma split_on_append sep s t :
  all_bytes (fun c => negb (Ascii.eqb c sep)) t = true ->
  split_on sep (s ++ t) =
    (removelast (split_on sep s)
       ++ [(List.last (split_on sep s) "" ++ t)%string])%list.
Proof.
  intros Ht. induction s as [|c r IH].
  - simpl. by apply split_on_no_sep.
  - pose proof (split_on_nonempty sep r) as Hne.
    cbn [append split_on]. destruct (Ascii.eqb c sep).
    + rewrite IH. destruct (split_on sep r) as [|x xs]; [done|]. reflexivity.
    + rewrite IH. destruct (split_on sep r) as [|x xs]; [done|].
      destruct xs as [|y ys]; reflexivity.
Qed.

Lemma marker_elem_kept rooted out (x : string) :
  clean_step rooted out (x ++ ".private") = (x ++ ".private") :: out.
Proof.
  unfold clean_step.
  assert (forall y, String.length y < 8 -> String.eqb (x ++ ".private") y = false)
    as Hne.
  { intros y Hy. apply String.eqb_neq. intros E.
    apply (f_equal String.length) in E. rewrite length_append in E.
    simpl in E. lia. }
  rewrite !Hne by (simpl; lia). reflexivity.
Qed.

Lemma clean_step_not_marker out (x : string) :
  clean_step true out x <> (x ++ ".private") :: out.
Proof.
  assert (x <> x ++ ".private") as Hx.
  { intros E. apply (f_equal String.length) in E. rewrite length_append in E.
    simpl in E. lia. }
  assert (forall l : list string, l <> (x ++ ".private") :: l) as Hl.
  { intros l E. apply (f_equal length) in E. simpl in E. lia. }
  unfold clean_step.
  destruct (String.eqb_spec x "") as [->|]; [apply Hl|].
  destruct (String.eqb_spec x ".") as [->|]; [apply Hl|]. simpl.
  destruct (String.eqb_spec x "..") as [->|]; [|congruence].
  destruct out as [|y out']; [done|].
  destruct (String.eqb y ".."); [done|].
  intros E. apply (f_equal length) in E. simpl in E. lia.
Qed.

(** The marker of a path is never the path itself. *)
Lemma resolve_marker_ne (p : string) : resolve (p ++ ".private") <> resolve p.
Proof.
  unfold resolve, clean_elems. rewrite split_on_append by reflexivity.
  pose proof (split_on_nonempty "/" p) as Hne.
  rewrite (app_removelast_last "" Hne) at 3.
  rewrite !fold_left_app. simpl. rewrite marker_elem_kept.
  intros E. apply (f_equal (@rev string)) in E. rewrite !rev_involutive in E.
  symmetry in E. by apply clean_step_not_marker in E.
Qed.

Lemma mkdirs_keeps_files (fs : t) (made todo : list string) k d :
  fs !! k = Some (MFile d) ->
  (mkdirs fs made todo).1 !! k = Some (MFile d).
Proof.
  revert fs made. induction todo as [|x todo IH]; intros fs made Hk; [done|].
  simpl. destruct (fs !! (made ++ [x])%list) as [[|]|] eqn:E; [done| |].
  - by apply IH.
  - apply IH. rewrite lookup_insert_ne; [done|]. intros <-. congruence.
Qed.

Lemma Open_file (fs : t) p d :
  Open fs p = inr d <-> resolve p <> [] /\ fs !! resolve p = Some (MFile d).
Proof.
  unfold Open, lookup_node. destruct (resolve p) as [|x k].
  - split; [done|]. by intros [? _].
  - destruct (fs !! (x :: k)) as [[data|]|]; split; try done.
    + by intros [= ->].
    + by intros [_ [= ->]].
    + by intros [_ ?].
    + by intros [_ ?].
Qed.

Lemma mem_fs_lawful : VFSLaws MemFS.t.
Proof.
  split.
  - intros fs p fs1. cbn [fs_OpenFile fs_Open mem_vfs]. unfold OpenFile.
    intros H. apply Open_file.
    destruct (resolve p) as [|x k] eqn:Ek.
    + simpl in H. discriminate.
    + split; [done|].
      destruct (lookup_node fs (x :: k)) as [[|]|];
        destruct (lookup_node fs (removelast (x :: k))) as [[|]|];
        simplify_eq/=; by rewrite lookup_insert_eq.
  - intros fs p old d fs1. cbn [fs_Write fs_Open mem_vfs].
    intros [Hne Hk]%Open_file. unfold Write, lookup_node.
    destruct (resolve p) as [|x k] eqn:Ek; [done|]. rewrite Hk.
    intros [= <-]. apply Open_file. rewrite Ek. split; [done|].
    by rewrite lookup_insert_eq.
  - intros fs dir fs1 e p d. cbn [fs_MkdirAll fs_Open mem_vfs].
    unfold MkdirAll. intros Hm [Hne Hk]%Open_file. apply Open_file.
    split; [done|].
    pose proof (mkdirs_keeps_files fs [] (resolve dir) _ _ Hk) as K.
    by rewrite Hm in K.
  - intros fs p fs1 e d. cbn [fs_Remove fs_Open mem_vfs].
    intros Hr [Hne Hk]%Open_file. apply Open_file. split; [done|].
    pose proof (resolve_marker_ne p) as Hm. unfold Remove in Hr.
    destruct (resolve (p ++ ".private")) as [|x k]; [by simplify_eq|].
    destruct (fs !! (x :: k)) as [[|]|]; [| |by simplify_eq].
    + simplify_eq. by rewrite lookup_delete_ne.
    + destruct (has_children fs (x :: k)); simplify_eq; [done|].
      by rewrite lookup_delete_ne.
Qed.

End MemFSFacts.

(** ** Enumeration *)

Section DecodeFacts.
Context {lib : GoLib}.

Lemma NewRequest_nil_error method url req :
  NewRequest method url = (req, None) -> is_Some req.
Proof.
  unfold NewRequest. destruct (negb (validMethod _)); [done|].
  destruct (url_Parse url); [done|]. by intros [= <- ].
Qed.

(** [readRequest] returns a request whenever it returns no error. *)
Lemma readRequest_nil_error (r : string) req :
  readRequest r = (req, None) -> is_Some req.
Proof.
  unfold readRequest. destruct (ReadLine r) as [e|[line rest]]; [done|].
  destruct (length (SplitN line " " 3) <? 2)%nat; [done|].
  destruct (2 <? length (SplitN line " " 3))%nat; [|done].
  destruct (ReadMIMEHeader rest) as [[mimeHeader [e|]] rest']; [done|].
  destruct (NewRequest _ _) as [reqCopy [e|]] eqn:E; [done|].
  apply NewRequest_nil_error in E as [r0 ->]. by intros [= <-].
Qed.

End DecodeFacts.

Section WalkFacts.
Context {lib : GoLib} {FS : Type} {vfs : VFS FS}.
Implicit Types (w : World FS) (s : store).

Lemma RetrieveRequestByFileName_reads_only path w :
  w_fs (snd (RetrieveRequestByFileName path w)) = w_fs w /\
  fst (RetrieveRequestByFileName path w) =
    fst (RetrieveRequestByFileName path (mkWorld (w_fs w) [])).
Proof.
  unfold RetrieveRequestByFileName, privateFileExists. run.
  repeat (case_match; simplify_eq/=); done.
Qed.

(** A retrieval without error returns a request: the pointer the callback
    of [RetrieveAllRequests] dereferences is never nil. *)
Lemma RetrieveRequestByFileName_nil_error path w req w' :
  RetrieveRequestByFileName path w = ((req, None), w') -> is_Some req.
Proof.
  unfold RetrieveRequestByFileName, privateFileExists. run.
  repeat (case_match; simplify_eq/=); try done;
    intros [= <- _]; by eapply readRequest_nil_error.
Qed.

Lemma retrieveVisited_spec visits requests w :
  fst (retrieveVisited visits requests w) =
    (requests ++ omap (decodes (w_fs w)) (snd (walked visits)))%list /\
  w_fs (snd (retrieveVisited visits requests w)) = w_fs w.
Proof.
  revert requests w. induction visits as [|[path [e|info]] visits IH];
    intros requests w; simpl.
  - by rewrite app_nil_r.
  - by rewrite app_nil_r.
  - destruct (walked visits) as [infos names] eqn:Ew. simpl.
    unfold bind.
    destruct (RetrieveRequestByFileName_reads_only path w) as [Hfs Hres].
    unfold decodes at 1. rewrite <- Hres.
    destruct (RetrieveRequestByFileName path w) as [[r e] w1]. simpl in *.
    destruct r as [request|], e as [e|];
      (destruct (IH requests w1) as [IH1 IH2] || idtac);
      try (destruct (IH requests w1) as [-> ->]; by rewrite Hfs).
    destruct (IH (requests ++ [request])%list w1) as [-> ->].
    rewrite Hfs. by rewrite <- app_assoc.
Qed.

Lemma walked_all (visits : list (string * (error + FileInfo))) :
  Forall (fun v => exists info, v.2 = inr info) visits ->
  snd (walked visits) = map fst visits.
Proof.
  induction 1 as [|[path v] visits [info Hv] _ IH]; [done|].
  simpl in *. subst v. destruct (walked visits). simpl in *. by rewrite IH.
Qed.

Lemma RetrieveAllRequests_spec w :
  let visits := fs_Walk (w_fs w) (requestPrefix ++ formatPrefix) in
  fst (RetrieveAllRequests w) = omap (decodes (w_fs w)) (snd (walked visits)) /\
  w_fs (snd (RetrieveAllRequests w)) = w_fs w.
Proof.
  intros visits. unfold RetrieveAllRequests, bind, Walk.
  destruct (retrieveVisited_spec visits []
              (logged (CWalk (requestPrefix ++ formatPrefix)) w (w_fs w)))
    as [H1 H2].
  fold visits. by rewrite H1, H2.
Qed.

End WalkFacts.

(** ** The properties on the example worlds *)

Section Witnesses.
Import ExampleLib Examples MemFSFacts.

Lemma marker_precedence_witness :
  RetrieveRequest exStore "a" markerLeft =
    ((None, Some ErrFoundInStorePrivate),
     after markerLeft (w_fs markerLeft)
       [CStat (markerPath exStore RequestRecord "a")]) /\
  privateFileExists (contentPath exStore RequestRecord "b") markerLeft =
    (None,
     after markerLeft (w_fs markerLeft)
       [CStat (markerPath exStore RequestRecord "b")]).
Proof.
  destruct (marker_precedence exStore RequestRecord "a" markerLeft) as [Hp _].
  destruct (marker_precedence exStore RequestRecord "b" markerLeft) as [_ Hi].
  split.
  - apply (Hp (mkFileInfo "7368613235363a61.private" 5 false));
      vm_compute; reflexivity.
  - apply Hi. intros fi. vm_compute. discriminate.
Defined.

Lemma header_found_empty_is_EOF_witness :
  RetrieveResponseHeader exStore "a" headerEmptied =
    ((mkHeader ∅ 0, Some EOF),
     after headerEmptied (w_fs headerEmptied)
       [CStat (markerPath exStore ResponseHeaderRecord "a");
        COpen (contentPath exStore ResponseHeaderRecord "a")]) /\
  EOF <> ErrFoundWithZeroInStore.
Proof.
  apply (header_found_empty_is_EOF exStore "a" headerEmptied).
  - intros fi. vm_compute. discriminate.
  - vm_compute. reflexivity.
Defined.

Lemma store_guard_and_override_witness :
  StoreRequest exStore (exRequest "/other") "a" false markerLeft =
    (Return (Some ErrFoundInStorePrivate),
     after markerLeft (w_fs markerLeft)
       [CStat (markerPath exStore RequestRecord "a")]) /\
  StoreRequest exStore (exRequest "/other") "b" false threeStored =
    (Return (Some ErrFoundInStore),
     after threeStored (w_fs threeStored)
       [CStat (markerPath exStore RequestRecord "b");
        CStat (contentPath exStore RequestRecord "b")]) /\
  fs_Open (w_fs (run_on (StoreRequest exStore (exRequest "/other") "b" true)
                   threeStored))
    (contentPath exStore RequestRecord "b") =
    inr (requestWire "GET" (mkURL "http" "" "" "example.com" "/other" "" "")
           "HTTP/1.1" exHeader).
Proof.
  destruct (store_guard_and_override (laws := mem_fs_lawful)
              exStore RequestRecord "a" markerLeft) as (Hmarker & _ & _).
  destruct (store_guard_and_override (laws := mem_fs_lawful)
              exStore RequestRecord "b" threeStored) as (_ & Hcontent & Hover).
  split_and!.
  - apply (Hmarker (mkFileInfo "7368613235363a61.private" 5 false));
      vm_compute; reflexivity.
  - apply (Hcontent (mkFileInfo "7368613235363a62" 56 false)).
    + intros fi. vm_compute. discriminate.
    + vm_compute. reflexivity.
    + vm_compute. reflexivity.
  - destruct (Hover (exRequest "/other") (Return None)
                (run_on (StoreRequest exStore (exRequest "/other") "b" true)
                   threeStored)) as [_ Hreplaced].
    + vm_compute. reflexivity.
    + destruct (Hreplaced eq_refl) as (u & Hu & Hopen).
      injection Hu as <-. exact Hopen.
Defined.

Lemma fetch_transport_error_witness :
  FetchAndStoreResponse redirectStore (exRequest "/a") "a" false emptyWorld =
    (Return None, redirectKept) /\
  fs_Open (w_fs redirectKept) (contentPath redirectStore ResponseBodyRecord "a")
    = inr "moved" /\
  FetchAndStoreResponse exStore (exRequest "/a") "a" false emptyWorld =
    (Return (Some (ErrorString "dial tcp: no network")),
     after emptyWorld (w_fs emptyWorld) [CDo (exRequest "/a")]) /\
  FetchAndStoreResponse refusedStore (exRequest "/REDIRECT!!!") "a" false
    emptyWorld =
    (Panic,
     after emptyWorld (w_fs emptyWorld) [CDo (exRequest "/REDIRECT!!!")]).
Proof.
  assert (fetchKey (lib := example_lib) (exRequest "/a") "a" = Some "a")
    as Hkey by reflexivity.
  destruct (fetch_transport_error (lib := example_lib) redirectStore
              (exRequest "/a") "a" "a" false
              emptyWorld (Some redirected)
              (ErrorString "Get http://example.com/a: REDIRECT!!!")
              Hkey eq_refl) as [Hswallow _].
  destruct (fetch_transport_error (lib := example_lib) exStore
              (exRequest "/a") "a" "a" false
              emptyWorld None (ErrorString "dial tcp: no network")
              Hkey eq_refl) as (_ & Hreturn & _).
  destruct (fetch_transport_error (lib := example_lib) refusedStore
              (exRequest "/REDIRECT!!!") "a" "a" false
              emptyWorld None
              (ErrorString
                 "Get http://example.com/REDIRECT!!!: dial tcp 192.0.2.1:80: connect: connection refused")
              eq_refl eq_refl) as (_ & _ & Hpanic).
  split_and!.
  - rewrite (Hswallow eq_refl redirected eq_refl). vm_compute. reflexivity.
  - vm_compute. reflexivity.
  - apply Hreturn. vm_compute. reflexivity.
  - apply Hpanic; [vm_compute; reflexivity|reflexivity].
Defined.

(** C9. [RetrieveAllRequests] returns, in the order of the walk of
    [request/v1/], exactly the requests of the visited paths whose retrieval
    and decoding succeed, and changes nothing; the visited paths are those
    [WalkRequests] lists, which are all the paths of the walk when the walk
    itself meets no error.  It has no error result.  With the three
    requests of [a], [b] and [c] stored and the record of [b] corrupted, it
    returns the requests of [a] and [c]. *)
Theorem RetrieveAllRequests_best_effort :
  (forall (lib : GoLib) (FS : Type) (vfs : VFS FS) (w : World FS),
     let visits := fs_Walk (w_fs w) (requestPrefix ++ formatPrefix) in
     fst (RetrieveAllRequests w) =
       omap (decodes (w_fs w)) (snd (walked visits)) /\
     w_fs (snd (RetrieveAllRequests w)) = w_fs w /\
     (Forall (fun v => exists info, v.2 = inr info) visits ->
      snd (walked visits) = map fst visits)) /\
  (decodes (w_fs oneCorrupted) (contentPath exStore RequestRecord "b") = None /\
   fst (RetrieveAllRequests oneCorrupted) = [exRequest "/a"; exRequest "/c"]).
Proof.
  split.
  - intros lib FS vfs w visits.
    destruct (RetrieveAllRequests_spec w) as [H1 H2].
    split_and!; [exact H1|exact H2|apply walked_all].
  - split; vm_compute; reflexivity.
Qed.

Lemma RetrieveAllRequests_best_effort_witness :
  snd (walked (fs_Walk (w_fs oneCorrupted) (requestPrefix ++ formatPrefix))) =
    ["request/v1/";
     contentPath exStore RequestRecord "a";
     contentPath exStore RequestRecord "b";
     contentPath exStore RequestRecord "c"].
Proof.
  destruct RetrieveAllRequests_best_effort as [Hgeneral _].
  destruct (Hgeneral example_lib _ MemFS.mem_vfs oneCorrupted) as (_ & _ & Hall).
  rewrite Hall; [vm_compute; reflexivity|].
  vm_compute. repeat constructor; eexists; reflexivity.
Defined.

End Witnesses.

(** ** Reading always ends *)

Section ReaderFacts.
#[local] Arguments String.append : simpl nomatch.

Lemma cut_byte_length sep (s a b : string) :
  cut_byte sep s = Some (a, b) -> String.length b < String.length s.
Proof.
  revert a. induction s as [|c s IH]; intros a; simpl; [done|].
  destruct (Ascii.eqb c sep).
  - intros [= _ <-]. lia.
  - destruct (cut_byte sep s) as [[a' b']|]; [|done].
    intros [= _ <-]. specialize (IH a' eq_refl). lia.
Qed.

Lemma readLineSlice_length (r line rest : string) :
  readLineSlice r = inr (line, rest) -> String.length rest < String.length r.
Proof.
  unfold readLineSlice. destruct r as [|c r]; [done|].
  destruct (cut_byte LF (String c r)) as [[l b]|] eqn:E.
  - intros [= _ <-]. by apply cut_byte_length in E.
  - intros [= _ <-]. simpl. lia.
Qed.

Lemma trim_left_length p (s : string) :
  String.length (trim_left p s) <= String.length s.
Proof.
  induction s as [|c s IH]; simpl; [done|]. destruct (p c); simpl; lia.
Qed.

Lemma continuation_length fuel buf (r : string) :
  String.length (snd (continuation fuel buf r)) <= String.length r.
Proof.
  revert buf r. induction fuel as [|fuel IH]; intros buf r; [done|].
  destruct r as [|c r]; [done|]. cbn [continuation].
  destruct (is_sp_tab c); [|done].
  pose proof (trim_left_length is_sp_tab (String c r)) as Ht.
  destruct (readLineSlice (trim_left is_sp_tab (String c r)))
    as [e|[line r'']] eqn:E; [done|].
  apply readLineSlice_length in E. specialize (IH (buf ++ " " ++ trim line) r'').
  lia.
Qed.

(** A logical line that is not empty was read from input that is now
    shorter. *)
Lemma readContinuedLineSlice_length (r kv rest : string) e :
  readContinuedLineSlice r = ((kv, e), rest) -> kv <> "" ->
  String.length rest < String.length r.
Proof.
  unfold readContinuedLineSlice.
  destruct (readLineSlice r) as [e'|[line rest0]] eqn:E.
  { by intros [= <- _ _]. }
  apply readLineSlice_length in E.
  destruct line as [|c line]; [by intros [= <- _ _]|].
  destruct (mustHaveFieldNameColon (String c line)); [by intros [= <- _ _]|].
  pose proof (continuation_length (String.length rest0)
                (trim (String c line)) rest0) as Hc.
  destruct (continuation _ _ rest0) as [buf rest']. simpl in Hc.
  intros [= _ _ <-] _. lia.
Qed.

(** The loop of [readMIMEHeader] ends within one iteration more than there
    are bytes to read. *)
Lemma readMIMEHeader_loop_total fuel m (r : string) :
  String.length r < fuel -> is_Some (readMIMEHeader_loop fuel m r).
Proof.
  revert m r. induction fuel as [|fuel IH]; intros m r Hfuel; [lia|].
  cbn [readMIMEHeader_loop].
  destruct (readContinuedLineSlice r) as [[kv err] rest] eqn:E.
  destruct kv as [|c kv]; [done|].
  apply readContinuedLineSlice_length in E; [|done].
  destruct (cut_byte ":" (String c kv)) as [[k v]|]; [|done].
  destruct (canonicalMIMEHeaderKey k) as [key ok].
  destruct (negb ok); [done|].
  destruct (negb (all_bytes validHeaderValueByte v)); [done|].
  destruct (String.eqb key ""); [apply IH; lia|].
  destruct err; [done|]. apply IH. lia.
Qed.

Lemma ReadMIMEHeader_total (r : string) : is_Some (ReadMIMEHeader_opt r).
Proof.
  unfold ReadMIMEHeader_opt. destruct r as [|c r].
  - apply readMIMEHeader_loop_total. simpl. lia.
  - destruct (is_sp_tab c).
    + destruct (readLineSlice (String c r)) as [e|[line rest]]; [done|].
      by destruct (80 <? String.length line)%nat.
    + apply readMIMEHeader_loop_total. lia.
Qed.

End ReaderFacts.


(** ** The wire codec *)

Section CodecFacts.
#[local] Arguments String.append : simpl nomatch.

Ltac by_byte c :=
  destruct c as [[] [] [] [] [] [] [] []]; vm_compute; try discriminate;
  try reflexivity; auto.

Lemma field_byte_facts c :
  validHeaderFieldByte c = true ->
  is_sp_tab c = false /\ Ascii.eqb c ":" = false /\ Ascii.eqb c LF = false /\
  Ascii.eqb c SP = false /\ validHeaderValueByte c = true.
Proof. by_byte c. Qed.

Lemma value_byte_facts c :
  validHeaderValueByte c = true ->
  Ascii.eqb c LF = false /\ Ascii.eqb c CR = false /\
  isASCIISpace c = is_sp_tab c.
Proof. by_byte c. Qed.

Lemma all_bytes_impl (p q : ascii -> bool) s :
  (forall c, p c = true -> q c = true) ->
  all_bytes p s = true -> all_bytes q s = true.
Proof.
  intros Hpq. induction s as [|c s IH]; simpl; [done|].
  intros [Hc Hs]%andb_true_iff. by rewrite (Hpq _ Hc), IH.
Qed.

Lemma all_bytes_append p a b :
  all_bytes p (a ++ b) = all_bytes p a && all_bytes p b.
Proof.
  induction a as [|c a IH]; simpl; [done|]. by rewrite IH, andb_assoc.
Qed.

Lemma cut_byte_append sep a b :
  no_byte sep a = true ->
  cut_byte sep (a ++ String sep b) = Some (a, b).
Proof.
  induction a as [|c a IH]; simpl.
  - by rewrite Ascii.eqb_refl.
  - intros [Hc Ha]%andb_true_iff. apply negb_true_iff in Hc.
    by rewrite Hc, (IH Ha).
Qed.

Lemma cut_byte_none sep a :
  no_byte sep a = true -> cut_byte sep a = None.
Proof.
  induction a as [|c a IH]; simpl; [done|].
  intros [Hc Ha]%andb_true_iff. apply negb_true_iff in Hc.
  by rewrite Hc, (IH Ha).
Qed.

Lemma drop_last_cr_append (l : string) : drop_last_cr (l ++ String CR "") = l.
Proof.
  induction l as [|c l IH]; [done|].
  simpl. rewrite IH. by destruct l.
Qed.

(** A line without LF, followed by CRLF, is read back as it is. *)
Lemma readLineSlice_line (l rest : string) :
  no_byte LF l = true ->
  readLineSlice (l ++ CRLF ++ rest) = inr (l, rest).
Proof.
  intros Hl. unfold readLineSlice, CRLF.
  change (l ++ String CR (String LF "") ++ rest)
    with (l ++ String CR (String LF rest)).
  replace (l ++ String CR (String LF rest))
    with ((l ++ String CR "") ++ String LF rest)
    by (by rewrite append_assoc).
  rewrite cut_byte_append.
  - rewrite drop_last_cr_append. by destruct l.
  - unfold no_byte. rewrite all_bytes_append. unfold no_byte in Hl.
    by rewrite Hl.
Qed.


Lemma trim_left_id p (s : string) :
  match s with String c _ => p c = false | "" => True end ->
  trim_left p s = s.
Proof. destruct s as [|c s]; simpl; [done|]. by intros ->. Qed.

Lemma trim_right_snoc p (a : string) c :
  p c = false -> trim_right p (a ++ String c "") = a ++ String c "".
Proof.
  intros Hc. induction a as [|x a IH]; simpl.
  - by rewrite Hc.
  - rewrite IH. by destruct a.
Qed.

Lemma trim_right_append p (a b : string) :
  trim_right p a = a ->
  trim_right p (a ++ b) = a ++ trim_right p b.
Proof.
  induction a as [|c r IH]; [done|]. simpl.
  destruct r as [|d r].
  - simpl. destruct (p c); [done|]. intros _. by destruct (trim_right p b).
  - destruct (trim_right p (String d r)) as [|d' r'] eqn:E.
    + destruct (p c); discriminate.
    + intros [= -> ->]. rewrite (IH eq_refl). reflexivity.
Qed.

Lemma continuation_none fuel buf r :
  no_continuation r -> continuation fuel buf r = (buf, r).
Proof.
  destruct fuel, r as [|c r]; simpl; try done. by intros ->.
Qed.

Lemma valid_name_inv k :
  valid_name k ->
  k <> "" /\ all_bytes validHeaderFieldByte k = true /\
  no_byte ":" k = true /\ no_byte LF k = true /\ no_byte SP k = true /\
  no_continuation k /\ trim_left is_sp_tab k = k.
Proof.
  unfold valid_name, ValidHeaderFieldName. destruct k as [|c k]; [done|].
  intros Hk. split; [done|]. split; [done|].
  assert (forall d, no_byte d (String c k) = true \/ 
            exists x, validHeaderFieldByte x = true /\ Ascii.eqb x d = true) as H.
  { intros d. destruct (no_byte d (String c k)) eqn:E; [by left|right].
    unfold no_byte in E. revert Hk E. generalize (String c k). intros s.
    induction s as [|x s IH]; simpl; [done|].
    intros [Hx Hs]%andb_true_iff. destruct (Ascii.eqb x d) eqn:Exd; simpl.
    - intros _. by exists x.
    - by apply IH. }
  simpl in Hk. apply andb_true_iff in Hk as [Hc Hk].
  destruct (field_byte_facts c Hc) as (Hws & _).
  split_and!.
  - destruct (H ":"%char) as [|(x & Hx & E)]; [done|].
    destruct (field_byte_facts x Hx) as (_ & E' & _). congruence.
  - destruct (H LF) as [|(x & Hx & E)]; [done|].
    destruct (field_byte_facts x Hx) as (_ & _ & E' & _). congruence.
  - destruct (H SP) as [|(x & Hx & E)]; [done|].
    destruct (field_byte_facts x Hx) as (_ & _ & _ & E' & _). congruence.
  - exact Hws.
  - simpl. by rewrite Hws.
Qed.

Lemma valid_value_no_LF v : valid_value v -> no_byte LF v = true.
Proof.
  intros [Hv _]. unfold no_byte. eapply all_bytes_impl; [|exact Hv].
  intros c Hc. destruct (value_byte_facts c Hc) as [-> _]. done.
Qed.

Lemma after_colon_facts v :
  valid_value v ->
  all_bytes validHeaderValueByte (after_colon v) = true /\
  trim_left is_sp_tab (after_colon v) = v.
Proof.
  intros (Hb & Hl & Hr). unfold after_colon. simpl. rewrite Hr.
  destruct v as [|c v]; [done|]. split; [exact Hb|]. exact Hl.
Qed.

Lemma trim_header_line k v :
  valid_name k -> valid_value v ->
  trim (k ++ ": " ++ v) = k ++ String ":" (after_colon v).
Proof.
  intros Hk Hv. destruct (valid_name_inv k Hk) as (Hne & _ & _ & _ & _ & Hnc & Hl).
  unfold trim. rewrite trim_left_id.
  2:{ destruct k as [|c k]; [done|]. exact Hnc. }
  change (k ++ ": " ++ v) with (k ++ String ":" "" ++ String SP v).
  rewrite <- append_assoc. rewrite trim_right_append.
  - by rewrite append_assoc.
  - by apply trim_right_snoc.
Qed.

Lemma canon_bytes_nonempty up k : k <> "" -> canon_bytes up k <> "".
Proof. by destruct k. Qed.

Lemma canonicalMIMEHeaderKey_valid k :
  valid_name k -> canonicalMIMEHeaderKey k = (canon_bytes true k, true).
Proof.
  intros Hk. destruct (valid_name_inv k Hk) as (Hne & Hb & _).
  unfold canonicalMIMEHeaderKey. destruct k as [|c k]; [done|].
  rewrite Hb. erewrite all_bytes_impl; [done| |exact Hb].
  intros x ->. done.
Qed.

(** One line [key: value CRLF] followed by input that does not continue
    it: the loop of [readMIMEHeader] appends the value under the canonical
    key and goes on with that input. *)
Lemma readMIMEHeader_loop_line fuel m k v rest :
  valid_name k -> valid_value v -> no_continuation rest ->
  readMIMEHeader_loop (S fuel) m ((k ++ ": " ++ v ++ CRLF) ++ rest) =
  readMIMEHeader_loop fuel (add_value m (canon_bytes true k) v) rest.
Proof.
  intros Hk Hv Hrest.
  destruct (valid_name_inv k Hk) as (Hne & Hb & Hcolon & HLF & _).
  destruct (after_colon_facts v Hv) as (Hab & Hal).
  cbn [readMIMEHeader_loop]. unfold readContinuedLineSlice.
  replace ((k ++ ": " ++ v ++ CRLF) ++ rest)
    with ((k ++ ": " ++ v) ++ CRLF ++ rest)
    by (by rewrite !append_assoc).
  rewrite readLineSlice_line.
  2:{ unfold no_byte in *. rewrite !all_bytes_append, HLF. simpl.
      by apply valid_value_no_LF. }
  assert (k ++ ": " ++ v <> "") as Hline by (by destruct k).
  destruct (k ++ ": " ++ v) as [|c0 line0] eqn:Eline; [done|].
  rewrite <- Eline. unfold mustHaveFieldNameColon.
  change (k ++ ": " ++ v) with (k ++ String ":" (String SP v)).
  rewrite (cut_byte_append ":" k _ Hcolon).
  change (k ++ String ":" (String SP v)) with (k ++ ": " ++ v).
  rewrite (continuation_none _ _ _ Hrest), (trim_header_line _ _ Hk Hv).
  assert (k ++ String ":" (after_colon v) <> "") as Hkv by (by destruct k).
  destruct (k ++ String ":" (after_colon v)) as [|c1 kv1] eqn:Ekv; [done|].
  rewrite <- Ekv. rewrite (cut_byte_append ":" k _ Hcolon).
  rewrite (canonicalMIMEHeaderKey_valid _ Hk). cbn [negb].
  rewrite Hab. cbn [negb].
  destruct (String.eqb_spec (canon_bytes true k) "") as [E|_].
  { by apply canon_bytes_nonempty in E. }
  by rewrite Hal.
Qed.

Lemma readMIMEHeader_loop_end fuel m rest :
  readMIMEHeader_loop (S fuel) m (CRLF ++ rest) = Some ((m, None), rest).
Proof. reflexivity. Qed.


Lemma wire_lines_no_continuation ps tail :
  Forall valid_pair ps -> no_continuation (wire_lines ps ++ CRLF ++ tail).
Proof.
  destruct 1 as [|[k v] ps [Hk _] _]; [done|]. simpl in *.
  destruct (valid_name_inv k Hk) as (Hne & _ & _ & _ & _ & Hnc & _).
  destruct k; [done|]. exact Hnc.
Qed.

Lemma readMIMEHeader_loop_lines ps fuel m tail :
  Forall valid_pair ps -> length ps < fuel ->
  readMIMEHeader_loop fuel m (wire_lines ps ++ CRLF ++ tail) =
    Some ((fold_left add_pair ps m, None), tail).
Proof.
  intros Hps. revert fuel m.
  induction Hps as [|[k v] ps [Hk Hv] Hps IH]; intros fuel m Hfuel.
  - destruct fuel; [simpl in Hfuel; lia|]. apply readMIMEHeader_loop_end.
  - destruct fuel; [simpl in Hfuel; lia|].
    cbn [wire_lines fold_right fst snd]. fold (wire_lines ps).
    rewrite append_assoc. simpl in Hk, Hv.
    rewrite readMIMEHeader_loop_line; [|done|done|].
    + rewrite IH; [done|]. simpl in Hfuel. lia.
    + by apply wire_lines_no_continuation.
Qed.

Lemma wire_lines_length ps :
  length ps <= String.length (wire_lines ps).
Proof.
  induction ps as [|[k v] ps IH]; simpl; [lia|].
  rewrite !length_append. simpl. rewrite !length_append. simpl. lia.
Qed.

(** A block of valid lines closed by a blank line is read back line by
    line; what follows the blank line is left unread. *)
Lemma ReadMIMEHeader_lines ps tail :
  Forall valid_pair ps ->
  ReadMIMEHeader (wire_lines ps ++ CRLF ++ tail) =
    ((fold_left add_pair ps ∅, None), tail).
Proof.
  intros Hps. unfold ReadMIMEHeader, ReadMIMEHeader_opt.
  pose proof (wire_lines_no_continuation ps tail Hps) as Hnc.
  pose proof (wire_lines_length ps) as Hlen.
  assert (readMIMEHeader_loop
            (S (String.length (wire_lines ps ++ CRLF ++ tail))) ∅
            (wire_lines ps ++ CRLF ++ tail) =
          Some ((fold_left add_pair ps ∅, None), tail)) as Hloop.
  { apply readMIMEHeader_loop_lines; [done|]. rewrite length_append. lia. }
  destruct (wire_lines ps ++ CRLF ++ tail) as [|c r].
  - by rewrite Hloop.
  - simpl in Hnc. rewrite Hnc. by rewrite Hloop.
Qed.

Lemma map_bytes_id f (s : string) :
  all_bytes (fun c => Ascii.eqb (f c) c) s = true -> map_bytes f s = s.
Proof.
  induction s as [|c s IH]; simpl; [done|].
  intros [Hc Hs]%andb_true_iff. apply Ascii.eqb_eq in Hc.
  by rewrite Hc, IH.
Qed.

Lemma trim_left_ext p q (s : string) :
  all_bytes (fun c => Bool.eqb (p c) (q c)) s = true ->
  trim_left p s = trim_left q s.
Proof.
  induction s as [|c s IH]; simpl; [done|].
  intros [Hc Hs]%andb_true_iff. apply Bool.eqb_prop in Hc.
  by rewrite Hc, IH.
Qed.

Lemma trim_right_ext p q (s : string) :
  all_bytes (fun c => Bool.eqb (p c) (q c)) s = true ->
  trim_right p s = trim_right q s.
Proof.
  induction s as [|c s IH]; simpl; [done|].
  intros [Hc Hs]%andb_true_iff. apply Bool.eqb_prop in Hc.
  by rewrite Hc, IH.
Qed.

(** [Header.Write] writes a valid value as it is. *)
Lemma write_value_valid k v :
  valid_value v -> write_value k v = k ++ ": " ++ v ++ CRLF.
Proof.
  intros (Hb & Hl & Hr). unfold write_value, TrimString, headerNewlineToSpace.
  rewrite map_bytes_id.
  2:{ eapply all_bytes_impl; [|exact Hb]. intros c Hc.
      destruct (value_byte_facts c Hc) as (-> & -> & _). simpl.
      apply Ascii.eqb_refl. }
  assert (all_bytes (fun c => Bool.eqb (isASCIISpace c) (is_sp_tab c)) v = true)
    as Hext.
  { eapply all_bytes_impl; [|exact Hb]. intros c Hc.
    destruct (value_byte_facts c Hc) as (_ & _ & ->). by destruct (is_sp_tab c). }
  rewrite (trim_left_ext _ _ _ Hext), Hl, (trim_right_ext _ _ _ Hext), Hr.
  reflexivity.
Qed.

Lemma write_entries_wire (kvs : list (string * list string)) :
  Forall valid_entry kvs ->
  fold_right (fun kv out => write_entry kv ++ out) "" kvs =
    wire_lines (pairs kvs) /\
  Forall valid_pair (pairs kvs).
Proof.
  induction 1 as [|[k vs] kvs [Hk Hvs] _ [IH1 IH2]]; [done|].
  simpl in *. rewrite IH1. unfold write_entry. simpl.
  unfold valid_name in Hk. rewrite Hk. clear IH1.
  induction Hvs as [|v vs Hv Hvs IHv]; simpl; [done|].
  destruct IHv as [E F]. split.
  - rewrite append_assoc, E. by rewrite (write_value_valid _ _ Hv).
  - constructor; [done|exact F].
Qed.


Lemma lower_canon_byte (up : bool) c :
  lower_byte (if up then upper_byte c else lower_byte c) = lower_byte c.
Proof. destruct up; by_byte c. Qed.

Lemma lower_canon_bytes up k :
  ascii_ToLower (canon_bytes up k) = ascii_ToLower k.
Proof.
  revert up. induction k as [|c k IH]; intros up; simpl; [done|].
  unfold ascii_ToLower in *. simpl. by rewrite lower_canon_byte, IH.
Qed.

Lemma canon_lower_byte (up : bool) c :
  (if up then upper_byte (lower_byte c) else lower_byte (lower_byte c)) =
  (if up then upper_byte c else lower_byte c).
Proof. destruct up; by_byte c. Qed.

Lemma canon_bytes_lower up k :
  canon_bytes up (ascii_ToLower k) = canon_bytes up k.
Proof.
  revert up. induction k as [|c k IH]; intros up; simpl; [done|].
  by rewrite canon_lower_byte, IH.
Qed.

(** Canonical forms agree exactly on names that differ only in case. *)
Lemma canon_eq_iff_ci k1 k2 :
  canon_bytes true k1 = canon_bytes true k2 <-> name_eq_ci k1 k2.
Proof.
  unfold name_eq_ci. split; intros E.
  - by rewrite <- (lower_canon_bytes true k1), E, lower_canon_bytes.
  - by rewrite <- (canon_bytes_lower true k1), E, canon_bytes_lower.
Qed.

Lemma CanonicalMIMEHeaderKey_valid k :
  valid_name k -> CanonicalMIMEHeaderKey k = canon_bytes true k.
Proof.
  intros Hk. destruct (valid_name_inv k Hk) as (_ & Hb & _).
  unfold CanonicalMIMEHeaderKey. by rewrite Hb.
Qed.

Lemma valid_canon_byte (up : bool) c :
  validHeaderFieldByte (if up then upper_byte c else lower_byte c)
    = validHeaderFieldByte c.
Proof. destruct up; by_byte c. Qed.

Lemma canon_bytes_valid up k :
  all_bytes validHeaderFieldByte (canon_bytes up k)
    = all_bytes validHeaderFieldByte k.
Proof.
  revert up. induction k as [|c k IH]; intros up; [done|].
  cbn [canon_bytes all_bytes]. by rewrite valid_canon_byte, IH.
Qed.

Lemma canon_bytes_idem up k :
  canon_bytes up (canon_bytes up k) = canon_bytes up k.
Proof.
  rewrite <- (canon_bytes_lower up (canon_bytes up k)).
  by rewrite lower_canon_bytes, canon_bytes_lower.
Qed.

Lemma CanonicalMIMEHeaderKey_idem k :
  CanonicalMIMEHeaderKey (CanonicalMIMEHeaderKey k) = CanonicalMIMEHeaderKey k.
Proof.
  unfold CanonicalMIMEHeaderKey.
  destruct (all_bytes validHeaderFieldByte k) eqn:E.
  - by rewrite canon_bytes_valid, E, canon_bytes_idem.
  - by rewrite E.
Qed.

Lemma fold_add_pair_lookup ps (m : MIMEHeader) k' :
  fold_left add_pair ps m !! k' =
    match gather k' ps with
    | [] => m !! k'
    | vs => Some (default [] (m !! k') ++ vs)%list
    end.
Proof.
  revert m. induction ps as [|[k v] ps IH]; intros m; [done|].
  cbn [fold_left]. rewrite IH. unfold gather. rewrite filter_cons. simpl.
  unfold add_pair, add_value. simpl.
  destruct (decide (canon_bytes true k = k')) as [->|Hne].
  - rewrite lookup_insert_eq. simpl.
    destruct (map snd _); simpl; by rewrite <- ?app_assoc.
  - by rewrite lookup_insert_ne.
Qed.

Lemma gather_pairs k' (l : list (string * list string)) :
  gather k' (pairs l) =
    concat (map snd (filter (fun kv => canon_bytes true kv.1 = k') l)).
Proof.
  unfold gather, pairs. induction l as [|[k vs] l IH]; [done|].
  simpl. rewrite filter_app, map_app, IH, filter_cons. simpl.
  destruct (decide (canon_bytes true k = k')) as [E|E]; simpl.
  - f_equal. clear IH. induction vs as [|v vs IHv]; [done|].
    simpl. rewrite filter_cons. simpl. rewrite decide_True by done.
    simpl. by rewrite IHv.
  - replace (map snd (filter _ (map (fun v => (k, v)) vs))) with (@nil string);
      [done|].
    clear IH. induction vs as [|v vs IHv]; [done|].
    simpl. rewrite filter_cons. simpl. by rewrite decide_False.
Qed.

Lemma filter_none {A} (P : A -> Prop) `{forall x, Decision (P x)} (l : list A) :
  (forall x, x ∈ l -> ~ P x) -> filter P l = [].
Proof.
  induction l as [|x l IH]; [done|]. intros Hl. rewrite filter_cons.
  rewrite decide_False by (apply Hl; by left).
  apply IH. intros y Hy. apply Hl. by right.
Qed.

(** In a list of entries with distinct keys, no two of which differ only
    in case, the entries filed under the canonical form of a key are that
    key's entry alone. *)
Lemma entries_of_key (l : list (string * list string)) k vs :
  NoDup (l.*1) ->
  (forall k1 k2, k1 ∈ l.*1 -> k2 ∈ l.*1 -> name_eq_ci k1 k2 -> k1 = k2) ->
  (k, vs) ∈ l ->
  concat (map snd (filter (fun kv => canon_bytes true kv.1
                                       = canon_bytes true k) l)) = vs.
Proof.
  induction l as [|[k0 vs0] l IH]; intros Hnd Hinj Hin.
  - by apply elem_of_nil in Hin.
  - simpl in Hnd. apply NoDup_cons in Hnd as [Hk0 Hnd].
    assert (forall kv, kv ∈ l -> kv.1 ∈ l.*1) as Hfst.
    { intros kv Hkv. apply list_elem_of_fmap. by exists kv. }
    rewrite filter_cons. simpl. apply elem_of_cons in Hin as [[= <- <-]|Hin].
    + rewrite decide_True by done. simpl.
      rewrite filter_none; [by rewrite app_nil_r|].
      intros [k1 vs1] Hkv E. simpl in E. apply canon_eq_iff_ci in E.
      apply Hfst in Hkv. simpl in Hkv.
      assert (k1 = k) as -> by (apply Hinj; [by right|by left|done]).
      done.
    + rewrite decide_False.
      * apply IH; [done| |done].
        intros k1 k2 H1 H2. apply Hinj; by right.
      * intros E. apply canon_eq_iff_ci in E.
        apply Hfst in Hin. simpl in Hin.
        assert (k0 = k) as -> by (apply Hinj; [by left|by right|done]).
        done.
Qed.

Lemma sortedKeyValues_elem (h : Http.Header) k vs :
  (k, vs) ∈ sortedKeyValues h <-> h !! k = Some vs.
Proof.
  unfold sortedKeyValues. rewrite merge_sort_Permutation.
  apply elem_of_map_to_list.
Qed.

Lemma sortedKeyValues_keys (h : Http.Header) k :
  k ∈ (sortedKeyValues h).*1 <-> is_Some (h !! k).
Proof.
  rewrite list_elem_of_fmap. split.
  - intros ([k' vs] & -> & Hin). apply sortedKeyValues_elem in Hin. by exists vs.
  - intros [vs Hvs]. exists (k, vs). split; [done|].
    by apply sortedKeyValues_elem.
Qed.

Lemma sortedKeyValues_NoDup (h : Http.Header) : NoDup (sortedKeyValues h).*1.
Proof.
  unfold sortedKeyValues. rewrite merge_sort_Permutation.
  apply NoDup_fst_map_to_list.
Qed.

(** What is read back holds, under the canonical form of each name, the
    values of that name, and nothing else. *)
Lemma readBack_lookup h :
  valid_header h ->
  (forall k vs, h !! k = Some vs ->
     readBack h !! canon_bytes true k = Some vs) /\
  (forall k' vs, readBack h !! k' = Some vs ->
     exists k, canon_bytes true k = k' /\ h !! k = Some vs).
Proof.
  intros [Hval Hinj].
  assert (forall k vs, h !! k = Some vs ->
            gather (canon_bytes true k) (pairs (sortedKeyValues h)) = vs) as Hg.
  { intros k vs Hk. rewrite gather_pairs. apply entries_of_key.
    - apply sortedKeyValues_NoDup.
    - intros k1 k2 H1%sortedKeyValues_keys H2%sortedKeyValues_keys.
      by apply Hinj.
    - by apply sortedKeyValues_elem. }
  split.
  - intros k vs Hk. unfold readBack. rewrite fold_add_pair_lookup.
    rewrite (Hg _ _ Hk). destruct (Hval _ _ Hk) as (_ & Hne & _).
    destruct vs; [done|]. by rewrite lookup_empty.
  - intros k' vs. unfold readBack. rewrite fold_add_pair_lookup.
    destruct (gather k' (pairs (sortedKeyValues h))) as [|v0 vs0] eqn:E.
    { by rewrite lookup_empty. }
    rewrite lookup_empty. simpl. intros [= <-].
    assert (exists kv, kv ∈ sortedKeyValues h /\ canon_bytes true kv.1 = k')
      as ([k vs] & Hin & Hk).
    { rewrite gather_pairs in E.
      destruct (filter _ (sortedKeyValues h)) as [|kv l'] eqn:F; [done|].
      assert (kv ∈ filter (fun kv => canon_bytes true kv.1 = k')
                     (sortedKeyValues h)) as Hkv by (rewrite F; by left).
      apply list_elem_of_filter in Hkv as [? ?]. by exists kv. }
    simpl in Hk. apply sortedKeyValues_elem in Hin.
    exists k. split; [done|]. subst k'. rewrite (Hg _ _ Hin) in E.
    by rewrite <- E.
Qed.


Lemma readBack_same_ci h : valid_header h -> same_header_ci h (readBack h).
Proof.
  intros Hh. destruct (readBack_lookup h Hh) as [H1 H2]. split.
  - intros k vs Hk. exists (canon_bytes true k). split; [|by apply H1].
    unfold name_eq_ci. by rewrite lower_canon_bytes.
  - intros k' vs Hk'. destruct (H2 _ _ Hk') as (k & <- & Hk).
    exists k. split; [|done]. unfold name_eq_ci. by rewrite lower_canon_bytes.
Qed.

Lemma readBack_canonical h :
  valid_header h -> canonical_names h -> readBack h = h.
Proof.
  intros Hh Hc. destruct (readBack_lookup h Hh) as [H1 H2].
  assert (forall k vs, h !! k = Some vs -> canon_bytes true k = k) as Hck.
  { intros k vs Hk. rewrite <- CanonicalMIMEHeaderKey_valid.
    - apply Hc. by exists vs.
    - destruct Hh as [Hval _]. by destruct (Hval _ _ Hk). }
  apply map_eq. intros k'.
  destruct (h !! k') as [vs|] eqn:E.
  - rewrite <- (Hck _ _ E). by apply H1.
  - destruct (readBack h !! k') as [vs'|] eqn:E'; [|done].
    destruct (H2 _ _ E') as (k & Hk & Hhk).
    rewrite (Hck _ _ Hhk) in Hk. congruence.
Qed.

(** Every name of a block read back is in canonical form. *)
Lemma readBack_names_canonical h :
  valid_header h -> canonical_names (readBack h).
Proof.
  intros Hh k' [vs Hk']. destruct (readBack_lookup h Hh) as [_ H2].
  destruct (H2 _ _ Hk') as (k & <- & Hk).
  destruct Hh as [Hval _]. destruct (Hval _ _ Hk) as (Hname & _).
  rewrite <- (CanonicalMIMEHeaderKey_valid k Hname).
  apply CanonicalMIMEHeaderKey_idem.
Qed.

(** The header block of a record, written by [headersToWriter], is read
    back by [ReadMIMEHeader] up to the blank line that closes it. *)
Lemma headers_roundtrip h tail :
  valid_header h ->
  ReadMIMEHeader (headersToWriter h ++ tail) = ((readBack h, None), tail).
Proof.
  intros Hh. unfold headersToWriter, Header_Write.
  assert (Forall valid_entry (sortedKeyValues h)) as Hentries.
  { apply Forall_forall. intros [k vs] Hin%sortedKeyValues_elem.
    destruct Hh as [Hval _]. destruct (Hval _ _ Hin) as (? & _ & ?). by split. }
  destruct (write_entries_wire _ Hentries) as [-> Hps].
  rewrite append_assoc. by apply ReadMIMEHeader_lines.
Qed.

(** ** Status lines *)

Lemma uint_digits_first d :
  d <> Nil ->
  exists c r, NilEmpty.string_of_uint d = String c r /\
              c <> "-"%char /\ c <> "+"%char.
Proof. destruct d; [done|..]; intros _; eexists _, _; split_and!; done. Qed.

Lemma Atoi_digits (s : string) d c r :
  s = String c r -> c <> "-"%char -> c <> "+"%char ->
  NilEmpty.uint_of_string s = Some d ->
  (minInt <= Z.of_uint d <= maxInt)%Z ->
  Atoi s = Some (Z.of_uint d).
Proof.
  intros -> Hm Hp Hd Hr. unfold Atoi.
  assert ((let '(neg, digits) :=
             match String c r with
             | String "-" r0 => (true, r0)
             | String "+" r0 => (false, r0)
             | _ => (false, String c r)
             end in (neg, digits)) = (false, String c r)) as E.
  { destruct c as [[] [] [] [] [] [] [] []]; try reflexivity; congruence. }
  destruct (match String c r with
            | String "-" r0 => (true, r0)
            | String "+" r0 => (false, r0)
            | _ => (false, String c r)
            end) as [neg digits].
  injection E as -> ->. rewrite Hd.
  destruct Hr as [Hlo Hhi].
  apply Z.leb_le in Hlo, Hhi. by rewrite Hlo, Hhi.
Qed.

Lemma Atoi_Itoa z : (minInt <= z <= maxInt)%Z -> Atoi (Itoa z) = Some z.
Proof.
  intros Hz. unfold Itoa. pose proof (DecimalZ.of_to z) as Hof.
  destruct (Z.to_int z) as [d|d]; simpl in Hof.
  - unfold NilZero.string_of_int, NilZero.string_of_uint.
    assert (d = Nil \/ d <> Nil) as [->|Hd] by (destruct d; auto).
    + simpl in Hof. subst z. reflexivity.
    + destruct (uint_digits_first d Hd) as (c & r & E & Hm & Hp).
      replace (match d with Nil => "0" | _ => NilEmpty.string_of_uint d end)
        with (NilEmpty.string_of_uint d) by (by destruct d).
      rewrite <- Hof.
      apply (Atoi_digits _ d c r E Hm Hp); [apply NilEmpty.usu|by rewrite Hof].
  - unfold NilZero.string_of_int, NilZero.string_of_uint, Atoi.
    assert (d = Nil \/ d <> Nil) as [->|Hd] by (destruct d; auto).
    + simpl in Hof. subst z. reflexivity.
    + destruct (uint_digits_first d Hd) as (c & r & E & Hm & Hp).
      replace (match d with Nil => "0" | _ => NilEmpty.string_of_uint d end)
        with (NilEmpty.string_of_uint d) by (by destruct d).
      rewrite E. rewrite <- E, NilEmpty.usu. rewrite Hof.
      destruct Hz as [Hlo Hhi]. apply Z.leb_le in Hlo, Hhi.
      by rewrite Hlo, Hhi.
Qed.


Lemma uint_digits d : all_bytes is_digit (NilEmpty.string_of_uint d) = true.
Proof. induction d; simpl; by rewrite ?IHd. Qed.

Lemma Itoa_bytes z :
  all_bytes (fun c => is_digit c || Ascii.eqb c "-") (Itoa z) = true.
Proof.
  assert (forall d, all_bytes (fun c => is_digit c || Ascii.eqb c "-")
                      (NilZero.string_of_uint d) = true) as H.
  { intros d. unfold NilZero.string_of_uint.
    destruct d; try reflexivity;
      (eapply all_bytes_impl; [|apply uint_digits]; by intros c ->). }
  unfold Itoa, NilZero.string_of_int. destruct (Z.to_int z); [apply H|].
  simpl. apply H.
Qed.

Lemma Itoa_no_SP z : no_byte SP (Itoa z) = true.
Proof.
  unfold no_byte. eapply all_bytes_impl; [|apply Itoa_bytes].
  intros c. by_byte c.
Qed.

Lemma Itoa_no_LF z : no_byte LF (Itoa z) = true.
Proof.
  unfold no_byte. eapply all_bytes_impl; [|apply Itoa_bytes].
  intros c. by_byte c.
Qed.

Lemma assoc_Z_all (p : string -> bool) code (t : list (Z * string)) :
  p "" = true -> forallb (fun e => p e.2) t = true ->
  p (assoc_Z code t) = true.
Proof.
  intros Hnil. induction t as [|[c txt] t IH]; simpl; [done|].
  intros [Hc Ht]%andb_true_iff. destruct (c =? code)%Z; [done|by apply IH].
Qed.

Lemma StatusText_no_LF code : no_byte LF (StatusText code) = true.
Proof. unfold StatusText. by apply assoc_Z_all. Qed.

Lemma SplitN_three (a b c : string) :
  no_byte SP a = true -> no_byte SP b = true ->
  SplitN (a ++ " " ++ b ++ " " ++ c) " " 3 = [a; b; c].
Proof.
  intros Ha Hb. cbn [SplitN].
  change (a ++ " " ++ b ++ " " ++ c) with (a ++ String SP (b ++ String SP c)).
  rewrite (cut_byte_append SP a _ Ha), (cut_byte_append SP b _ Hb).
  reflexivity.
Qed.

(** C6, as amended.  For every status code in the range of [int] and every
    valid header block, what [storeHeader] writes is decoded by
    [readResponseHeaders] without error, with the same status code and a
    header block equal to the original under case-insensitive comparison
    of the names: every name comes back in canonical form, with the values
    it was written with, and nothing else comes back; so the block comes
    back as it was exactly when its names are in canonical form. *)
Theorem response_header_roundtrip (code : Z) (h : Http.Header) :
  (minInt <= code <= maxInt)%Z ->
  valid_header h ->
  let r := readResponseHeaders (responseHeaderWire code h) in
  snd r = None /\
  StatusCode (fst r) = code /\
  same_header_ci h (Header_Header (fst r)) /\
  (canonical_names h -> Header_Header (fst r) = h) /\
  (Header_Header (fst r) = h -> canonical_names h) /\
  canonical_names (Header_Header (fst r)) /\
  (forall k vs, h !! k = Some vs ->
     Header_Header (fst r) !! CanonicalMIMEHeaderKey k = Some vs) /\
  (forall k' vs, Header_Header (fst r) !! k' = Some vs ->
     exists k, CanonicalMIMEHeaderKey k = k' /\ h !! k = Some vs).
Proof.
  intros Hcode Hh.
  assert (readResponseHeaders (responseHeaderWire code h) =
            (mkHeader (readBack h) code, None)) as ->.
  { unfold readResponseHeaders, responseHeaderWire, ReadLine.
    replace ("HTTP/1.1 " ++ Itoa code ++ " " ++ StatusText code ++ CRLF
               ++ headersToWriter h)
      with (("HTTP/1.1" ++ " " ++ Itoa code ++ " " ++ StatusText code)
              ++ CRLF ++ headersToWriter h)
      by (by rewrite !append_assoc).
    rewrite readLineSlice_line.
    2:{ unfold no_byte. rewrite !all_bytes_append.
        pose proof (Itoa_no_LF code) as H1.
        pose proof (StatusText_no_LF code) as H2.
        unfold no_byte in H1, H2. by rewrite H1, H2. }
    rewrite SplitN_three; [|reflexivity|apply Itoa_no_SP].
    cbn [length Nat.ltb Nat.leb nth]. rewrite (Atoi_Itoa _ Hcode).
    rewrite <- (append_nil_r (headersToWriter h)).
    by rewrite (headers_roundtrip h "" Hh). }
  simpl. destruct (readBack_lookup h Hh) as [H1 H2].
  pose proof (readBack_names_canonical h Hh) as Hcanon.
  split_and!; [done|done| | | | | |].
  - by apply readBack_same_ci.
  - by apply readBack_canonical.
  - by intros <-.
  - exact Hcanon.
  - intros k vs Hk. destruct Hh as [Hval _].
    destruct (Hval _ _ Hk) as (Hname & _).
    rewrite (CanonicalMIMEHeaderKey_valid k Hname). by apply H1.
  - intros k' vs Hk'. destruct (H2 _ _ Hk') as (k & Hkk & Hk).
    exists k. split; [|done]. destruct Hh as [Hval _].
    destruct (Hval _ _ Hk) as (Hname & _).
    by rewrite (CanonicalMIMEHeaderKey_valid k Hname).
Qed.


Lemma valid_header_singleton k v :
  valid_name k -> valid_value v -> valid_header {[k := [v]]}.
Proof.
  intros Hk Hv. split.
  - intros k' vs [<- <-]%lookup_singleton_Some. split_and!; [done|done|].
    by constructor.
  - intros k1 k2 [vs1 [<- _]%lookup_singleton_Some]
      [vs2 [<- _]%lookup_singleton_Some] _. done.
Qed.

(** A name in lower case is read back capitalised: the block read back is
    not the block written. *)
Lemma response_header_roundtrip_counterexample :
  valid_header {["x-cache" := ["HIT"]]} /\
  snd (readResponseHeaders
         (responseHeaderWire 200 {["x-cache" := ["HIT"]]})) = None /\
  Header_Header (fst (readResponseHeaders
                        (responseHeaderWire 200 {["x-cache" := ["HIT"]]})))
    <> {["x-cache" := ["HIT"]]}.
Proof.
  split_and!.
  - apply valid_header_singleton; [reflexivity|repeat split].
  - vm_compute. reflexivity.
  - intros E. apply (f_equal (fun m : Http.Header => m !! "x-cache")) in E.
    vm_compute in E. discriminate.
Qed.

Lemma response_header_roundtrip_witness :
  snd (readResponseHeaders
         (responseHeaderWire 404 {["Content-Type" := ["text/html"]]})) = None /\
  StatusCode (fst (readResponseHeaders
         (responseHeaderWire 404 {["Content-Type" := ["text/html"]]}))) = 404%Z /\
  Header_Header (fst (readResponseHeaders
         (responseHeaderWire 404 {["Content-Type" := ["text/html"]]})))
    = {["Content-Type" := ["text/html"]]}.
Proof.
  destruct (response_header_roundtrip 404 {["Content-Type" := ["text/html"]]})
    as (Herr & Hcode & _ & Hsame & _).
  - vm_compute. split; discriminate.
  - apply valid_header_singleton; [reflexivity|repeat split].
  - split_and!; [exact Herr|exact Hcode|].
    apply Hsame. intros k [vs [<- _]%lookup_singleton_Some]. reflexivity.
Defined.

End CodecFacts.

Section RequestCodecFacts.
Context {lib : GoLib}.
#[local] Arguments String.append : simpl nomatch.

(** C1, where the code departs from the specification.  For a valid
    method, a URL whose text has no space or line feed and parses to [u0],
    a protocol without line feed and a valid header block, what
    [StoreRequest] writes is decoded by [readRequest] without error into a
    request with that method, the URL [u0] (an empty port removed from its
    host; so the URL written, when it parses back to itself and has no
    empty port) and a header block equal to the original under
    case-insensitive comparison of the names; but its protocol is
    [HTTP/1.1], whatever protocol was written: the third field of the
    request line is never used, and any other protocol is lost. *)
Theorem readRequest_requestWire (method : string) (u u0 : URL)
  (proto : string) (h : Http.Header) :
  validMethod method = true ->
  no_byte SP (URL_String u) = true ->
  no_byte LF (URL_String u) = true ->
  no_byte LF proto = true ->
  url_Parse (URL_String u) = inr u0 ->
  valid_header h ->
  let r := readRequest (requestWire method u proto h) in
  snd r = None /\
  exists req, fst r = Some req /\
    Method req = method /\
    ReqURL req = Some (mkURL (Scheme u0) (Opaque u0) (User u0)
                         (removeEmptyPort (Host u0)) (Path u0)
                         (RawQuery u0) (Fragment u0)) /\
    (u0 = u -> removeEmptyPort (Host u) = Host u -> ReqURL req = Some u) /\
    same_header_ci h (ReqHeader req) /\
    Proto req = "HTTP/1.1" /\
    (proto <> "HTTP/1.1" -> Proto req <> proto).
Proof.
  intros Hm Hsp Hlf Hproto Hparse Hh.
  destruct (valid_name_inv method Hm) as (Hne & _ & _ & HmLF & HmSP & _).
  assert (readRequest (requestWire method u proto h) =
            (Some (mkRequest method
                     (Some (mkURL (Scheme u0) (Opaque u0) (User u0)
                              (removeEmptyPort (Host u0)) (Path u0)
                              (RawQuery u0) (Fragment u0)))
                     "HTTP/1.1" (readBack h) (removeEmptyPort (Host u0)) ""),
             None)) as ->.
  { unfold readRequest, requestWire, ReadLine.
    replace (method ++ " " ++ URL_String u ++ " " ++ proto ++ CRLF
               ++ headersToWriter h)
      with ((method ++ " " ++ URL_String u ++ " " ++ proto)
              ++ CRLF ++ headersToWriter h)
      by (by rewrite !append_assoc).
    rewrite readLineSlice_line.
    2:{ unfold no_byte in *. rewrite !all_bytes_append.
        by rewrite HmLF, Hlf, Hproto. }
    rewrite SplitN_three; [|done|done].
    cbn [length Nat.ltb Nat.leb nth].
    rewrite <- (append_nil_r (headersToWriter h)).
    rewrite (headers_roundtrip h "" Hh).
    unfold NewRequest.
    destruct (String.eqb_spec method "") as [E|_]; [done|].
    rewrite Hm. cbn [negb]. rewrite Hparse. reflexivity. }
  simpl. split; [done|]. eexists. split; [reflexivity|]. simpl.
  split_and!; try done.
  - intros -> Hport. rewrite Hport. by destruct u.
  - by apply readBack_same_ci.
Qed.

End RequestCodecFacts.

Section RequestWitness.
Import ExampleLib.

(** A request that arrived as [HTTP/1.0] comes back as [HTTP/1.1]. *)
Lemma readRequest_requestWire_witness :
  exists req,
    fst (readRequest
           (requestWire "GET" (mkURL "http" "" "" "example.com" "/a" "" "")
              "HTTP/1.0" {["Host" := ["example.com"]]})) = Some req /\
    Method req = "GET" /\
    ReqURL req = Some (mkURL "http" "" "" "example.com" "/a" "" "") /\
    Proto req = "HTTP/1.1" /\
    Proto req <> "HTTP/1.0".
Proof.
  destruct (readRequest_requestWire (lib := example_lib) "GET"
              (mkURL "http" "" "" "example.com" "/a" "" "")
              (mkURL "http" "" "" "example.com" "/a" "" "")
              "HTTP/1.0" {["Host" := ["example.com"]]})
    as (_ & req & Hreq & Hmethod & _ & Hurl & _ & Hproto & _);
    try reflexivity.
  - apply valid_header_singleton; [reflexivity|repeat split].
  - exists req. split_and!; [exact Hreq|exact Hmethod| |exact Hproto|].
    + by apply Hurl.
    + rewrite Hproto. discriminate.
Defined.

End RequestWitness.

(** * Further properties *)

(** ** The in-memory filesystem keeps the laws of reading *)

Module MemFSReadFacts.
Import MemFS GoPath MemFSFacts.

Lemma Open_absent (fs : t) p e :
  Open fs p = inl e -> IsNotExist e = true ->
  resolve p <> [] /\ fs !! resolve p = None.
Proof.
  unfold Open, lookup_node. destruct (resolve p) as [|x k].
  - by intros [= <-].
  - destruct (fs !! (x :: k)) as [[data|]|]; [done| |done].
    by intros [= <-].
Qed.

Lemma Open_absent_intro (fs : t) p :
  resolve p <> [] -> fs !! resolve p = None ->
  exists e, Open fs p = inl e /\ IsNotExist e = true.
Proof.
  intros Hne Hk. unfold Open, lookup_node.
  destruct (resolve p) as [|x k]; [done|]. rewrite Hk. by eexists.
Qed.

Lemma Remove_inv (fs fs1 : t) p e :
  Remove fs p = (fs1, e) ->
  fs1 = fs \/ (resolve p <> [] /\ fs1 = delete (resolve p) fs /\ e = None).
Proof.
  unfold Remove. destruct (resolve p) as [|x k]; [intros [= <- _]; by left|].
  destruct (fs !! (x :: k)) as [[data|]|].
  - intros [= <- <-]. by right.
  - destruct (has_children fs (x :: k)); intros [= <- <-]; [by left|by right].
  - intros [= <- _]. by left.
Qed.

Lemma mem_fs_read_lawful : VFSReadLaws MemFS.t.
Proof.
  split.
  - intros fs p d. cbn [fs_Open fs_Stat mem_vfs].
    intros [Hne Hk]%Open_file. unfold Stat, lookup_node.
    destruct (resolve p) as [|x k]; [done|]. rewrite Hk. by eexists.
  - intros fs p fs1. cbn [fs_Open fs_Remove mem_vfs]. intros Hr.
    destruct (Remove_inv _ _ _ _ Hr) as [->|(Hne & -> & _)].
    + unfold Remove in Hr. destruct (resolve p) as [|x k] eqn:E; [done|].
      destruct (fs !! (x :: k)) as [[data|]|] eqn:Ek.
      * injection Hr as Hr. apply (f_equal (fun m : t => m !! (x :: k))) in Hr.
        rewrite lookup_delete_eq in Hr. congruence.
      * destruct (has_children fs (x :: k)); [done|].
        injection Hr as Hr. apply (f_equal (fun m : t => m !! (x :: k))) in Hr.
        rewrite lookup_delete_eq in Hr. congruence.
      * done.
    + apply Open_absent_intro; [done|]. apply lookup_delete_eq.
  - intros fs p fs1 e e0. cbn [fs_Open fs_Remove mem_vfs].
    intros Hr Ho He0. destruct (Open_absent _ _ _ Ho He0) as [Hne Hk].
    apply Open_absent_intro; [done|].
    destruct (Remove_inv _ _ _ _ Hr) as [->|(_ & -> & _)]; [done|].
    rewrite lookup_delete_ne; [done|]. apply resolve_marker_ne.
Qed.

End MemFSReadFacts.

Section ReadPath.
Context {lib : GoLib} {FS : Type} {vfs : VFS FS} {rlaws : VFSReadLaws FS}.
Implicit Types (w : World FS) (s : store).

Lemma marker_idle_absent w path :
  marker_idle (w_fs w) path ->
  privateFileExists path w =
    (None, after w (w_fs w) [CStat (path ++ ".private")]).
Proof. apply privateFileExists_absent. Qed.

Lemma stat_nonempty (fs : FS) p d :
  fs_Open fs p = inr d -> d <> "" ->
  exists fi, fs_Stat fs p = inr fi /\ (fi_Size fi =? 0)%Z = false /\
             (0 <? fi_Size fi)%Z = true.
Proof.
  intros Ho Hd. destruct (law_stat_size _ _ _ Ho) as (fi & Hst & Hsz).
  exists fi. split; [done|]. rewrite Hsz.
  destruct d as [|c d]; [done|]. simpl String.length. split.
  - apply Z.eqb_neq. lia.
  - apply Z.ltb_lt. lia.
Qed.

Lemma stat_empty (fs : FS) p :
  fs_Open fs p = inr "" ->
  exists fi, fs_Stat fs p = inr fi /\ (fi_Size fi =? 0)%Z = true /\
             (0 <? fi_Size fi)%Z = false.
Proof.
  intros Ho. destruct (law_stat_size _ _ _ Ho) as (fi & Hst & Hsz).
  exists fi. split; [done|]. rewrite Hsz. done.
Qed.

Lemma RetrieveRequestByFileName_reads w filename data :
  marker_idle (w_fs w) filename ->
  fs_Open (w_fs w) filename = inr data ->
  data <> "" ->
  RetrieveRequestByFileName filename w =
    (retrieved (readRequest data),
     after w (w_fs w)
       [CStat (filename ++ ".private"); COpen filename; CStat filename]).
Proof.
  intros Hidle Hopen Hdata.
  destruct (stat_nonempty _ _ _ Hopen Hdata) as (fi & Hst & Hz & _).
  unfold RetrieveRequestByFileName, bind at 1.
  rewrite (marker_idle_absent _ _ Hidle). run.
  rewrite Hopen. simpl. rewrite Hst. simpl. rewrite Hz.
  unfold retrieved. destruct (readRequest data) as [req [e|]]; simpl.
  - destruct (IsNotExist e); simpl; by rewrite <- !app_assoc.
  - by rewrite <- !app_assoc.
Qed.

End ReadPath.

Section StoreCompose.
Context {lib : GoLib} {FS : Type} {vfs : VFS FS}
  {laws : VFSLaws FS} {rlaws : VFSReadLaws FS}.
Implicit Types (w : World FS) (s : store).

Lemma storeGuard_fs path w g wg :
  storeGuard path w = (g, wg) -> w_fs wg = w_fs w.
Proof.
  unfold storeGuard. run. repeat (case_match; simplify_eq/=); by intros [= _ <-].
Qed.

Lemma guard_fs (ov : bool) path w g wg :
  (if ov then ret None else storeGuard path) w = (g, wg) -> w_fs wg = w_fs w.
Proof.
  destruct ov; [by intros [= _ <-]|apply storeGuard_fs].
Qed.

Lemma storeBody_stored s r key ov w w' :
  storeBody s r key ov w = (None, w') ->
  fs_Open (w_fs w') (contentPath s ResponseBodyRecord key)
    = inr (fst (read_all r)).
Proof.
  unfold storeBody, contentPath, classPrefix, bind at 1.
  destruct ((if ov then ret None else storeGuard _) w) as [[e|] wg]; [done|].
  intros Hc.
  by destruct (commit_spec (bodyPrefix ++ formatPrefix ++ HashKey s key)
                 r wg None w' Hc) as [_ ->].
Qed.

Lemma storeHeader_stored s code h key ov w w' :
  storeHeader s code h key ov w = (None, w') ->
  fs_Open (w_fs w') (contentPath s ResponseHeaderRecord key)
    = inr (responseHeaderWire code h).
Proof.
  unfold storeHeader, contentPath, classPrefix, bind at 1.
  destruct ((if ov then ret None else storeGuard _) w) as [[e|] wg]; [done|].
  intros Hc.
  by destruct (commit_spec (headerPrefix ++ formatPrefix ++ HashKey s key)
                 (ByteReadSeekCloser (responseHeaderWire code h))
                 wg None w' Hc) as [_ ->].
Qed.

Lemma StoreRequest_stored s h key ov w w' :
  StoreRequest s h key ov w = (Return None, w') ->
  exists u, absoluteURL h = Some u /\
    fs_Open (w_fs w') (contentPath s RequestRecord key)
      = inr (requestWire (Method h) u (Proto h) (ReqHeader h)).
Proof.
  unfold StoreRequest, contentPath, classPrefix, bind at 1.
  destruct ((if ov then ret None else storeGuard _) w) as [[e|] wg]; [done|].
  destruct (absoluteURL h) as [u|]; [|done].
  set (p := requestPrefix ++ formatPrefix ++ HashKey s key).
  set (r := ByteReadSeekCloser (requestWire (Method h) u (Proto h) (ReqHeader h))).
  intros Hrun. exists u. split; [done|].
  destruct (commit p r wg) as [e w1] eqn:Hc.
  destruct (commit_spec _ _ _ _ _ Hc) as [_ K].
  unfold commit, bind in Hc. unfold bind in Hrun.
  destruct (vfsCreatePrivateDummy (p ++ ".private") wg) as [e1 w2].
  destruct (vfsWrite p r w2) as [[e2|] w3]; [done|].
  destruct (vfsDeletePrivateDummy (p ++ ".private") w3) as [e3 w4].
  simpl in *. injection Hrun as <-. injection Hc as <- <-. by apply K.
Qed.

Lemma requestWire_nonempty method u proto h : requestWire method u proto h <> "".
Proof.
  unfold requestWire. intros E. apply (f_equal String.length) in E.
  rewrite !length_append in E. simpl in E. lia.
Qed.

Lemma responseHeaderWire_nonempty code h : responseHeaderWire code h <> "".
Proof. unfold responseHeaderWire. done. Qed.

End StoreCompose.

Section WireDecoding.
Context {lib : GoLib}.
#[local] Arguments String.append : simpl nomatch.

Lemma readRequest_line (method target proto : string) (u0 : URL)
  (h : Http.Header) :
  validMethod method = true ->
  no_byte SP target = true -> no_byte LF target = true ->
  no_byte LF proto = true ->
  url_Parse target = inr u0 ->
  valid_header h ->
  readRequest (method ++ " " ++ target ++ " " ++ proto ++ CRLF
                 ++ headersToWriter h) =
    (Some (decodedRequest method u0 (readBack h)), None).
Proof.
  intros Hm Hsp Hlf Hproto Hparse Hh.
  destruct (valid_name_inv method Hm) as (Hne & _ & _ & HmLF & HmSP & _).
  unfold readRequest, ReadLine.
  replace (method ++ " " ++ target ++ " " ++ proto ++ CRLF
             ++ headersToWriter h)
    with ((method ++ " " ++ target ++ " " ++ proto)
            ++ CRLF ++ headersToWriter h)
    by (by rewrite !append_assoc).
  rewrite readLineSlice_line.
  2:{ unfold no_byte in *. rewrite !all_bytes_append.
      by rewrite HmLF, Hlf, Hproto. }
  rewrite SplitN_three; [|done|done].
  cbn [length Nat.ltb Nat.leb nth].
  rewrite <- (append_nil_r (headersToWriter h)).
  rewrite (headers_roundtrip h "" Hh).
  unfold NewRequest.
  destruct (String.eqb_spec method "") as [E|_]; [done|].
  rewrite Hm. cbn [negb]. rewrite Hparse. reflexivity.
Qed.

End WireDecoding.

Section StatusLineDecoding.
#[local] Arguments String.append : simpl nomatch.

Lemma readResponseHeaders_line (proto reason : string) (code : Z)
  (h : Http.Header) :
  no_byte SP proto = true -> no_byte LF proto = true ->
  no_byte LF reason = true ->
  (minInt <= code <= maxInt)%Z ->
  valid_header h ->
  readResponseHeaders (proto ++ " " ++ Itoa code ++ " " ++ reason ++ CRLF
                         ++ headersToWriter h) =
    (mkHeader (readBack h) code, None).
Proof.
  intros Hsp Hlf Hreason Hcode Hh. unfold readResponseHeaders, ReadLine.
  replace (proto ++ " " ++ Itoa code ++ " " ++ reason ++ CRLF
             ++ headersToWriter h)
    with ((proto ++ " " ++ Itoa code ++ " " ++ reason)
            ++ CRLF ++ headersToWriter h)
    by (by rewrite !append_assoc).
  rewrite readLineSlice_line.
  2:{ unfold no_byte in *. rewrite !all_bytes_append.
      pose proof (Itoa_no_LF code) as H1. unfold no_byte in H1.
      by rewrite Hlf, H1, Hreason. }
  rewrite SplitN_three; [|done|apply Itoa_no_SP].
  cbn [length Nat.ltb Nat.leb nth]. rewrite (Atoi_Itoa _ Hcode).
  rewrite <- (append_nil_r (headersToWriter h)).
  by rewrite (headers_roundtrip h "" Hh).
Qed.

Lemma readResponseHeaders_wire (code : Z) (h : Http.Header) :
  (minInt <= code <= maxInt)%Z -> valid_header h ->
  readResponseHeaders (responseHeaderWire code h) =
    (mkHeader (readBack h) code, None).
Proof.
  intros Hcode Hh. unfold responseHeaderWire.
  apply (readResponseHeaders_line "HTTP/1.1" (StatusText code));
    try done.
  apply StatusText_no_LF.
Qed.

End StatusLineDecoding.

(** ** Storing, then reading back *)

Section RoundTrips.
Context {lib : GoLib} {FS : Type} {vfs : VFS FS}
  {laws : VFSLaws FS} {rlaws : VFSReadLaws FS}.
Implicit Types (w : World FS) (s : store).

(** X1. Storing a request, then retrieving it.  When [StoreRequest] has
    returned nil and the marker of the record is idle afterwards, then, for
    a valid method, a URL whose text has no space or line feed and parses
    to [u0], a protocol without line feed and a valid header block,
    [RetrieveRequest] under the same key returns, without error, the
    request with that method, the URL [u0] (an empty port removed), the
    protocol [HTTP/1.1] and the header block read back, which equals the
    one stored under case-insensitive comparison of the names.  It makes
    three calls, the [Stat] of the marker, the [Open] and the [Stat] of the
    record, and leaves the filesystem as it was. *)
Theorem request_store_then_retrieve s (h : Request) (key : string)
  (ov : bool) w w' (u u0 : URL) :
  StoreRequest s h key ov w = (Return None, w') ->
  marker_idle (w_fs w') (contentPath s RequestRecord key) ->
  absoluteURL h = Some u ->
  validMethod (Method h) = true ->
  no_byte SP (URL_String u) = true ->
  no_byte LF (URL_String u) = true ->
  no_byte LF (Proto h) = true ->
  url_Parse (URL_String u) = inr u0 ->
  valid_header (ReqHeader h) ->
  RetrieveRequest s key w' =
    ((Some (decodedRequest (Method h) u0 (readBack (ReqHeader h))), None),
     after w' (w_fs w') (readCalls (contentPath s RequestRecord key))) /\
  same_header_ci (ReqHeader h) (readBack (ReqHeader h)).
Proof.
  intros Hst Hidle Hu Hm Hsp Hlf Hproto Hparse Hh.
  split; [|by apply readBack_same_ci].
  destruct (StoreRequest_stored _ _ _ _ _ _ Hst) as (u' & Hu' & Hopen).
  rewrite Hu in Hu'. injection Hu' as <-.
  unfold RetrieveRequest, RetrieveRequestByHash.
  change (requestPrefix ++ formatPrefix ++ HashKey s key)
    with (contentPath s RequestRecord key).
  rewrite (RetrieveRequestByFileName_reads _ _ _ Hidle Hopen
             (requestWire_nonempty _ _ _ _)).
  unfold requestWire.
  by rewrite (readRequest_line _ _ _ u0 _ Hm Hsp Hlf Hproto Hparse Hh).
Qed.

Lemma RetrieveResponseHeader_reads s key w data :
  marker_idle (w_fs w) (contentPath s ResponseHeaderRecord key) ->
  fs_Open (w_fs w) (contentPath s ResponseHeaderRecord key) = inr data ->
  RetrieveResponseHeader s key w =
    (readResponseHeaders data,
     after w (w_fs w)
       [CStat (markerPath s ResponseHeaderRecord key);
        COpen (contentPath s ResponseHeaderRecord key)]).
Proof.
  unfold markerPath, contentPath, classPrefix. intros Hidle Hopen.
  unfold RetrieveResponseHeader, bind at 1.
  rewrite (marker_idle_absent _ _ Hidle). run. rewrite Hopen. simpl.
  by rewrite <- !app_assoc.
Qed.

Lemma RetrieveResponse_reads s key w data :
  marker_idle (w_fs w) (contentPath s ResponseBodyRecord key) ->
  fs_Open (w_fs w) (contentPath s ResponseBodyRecord key) = inr data ->
  data <> "" ->
  RetrieveResponse s key w =
    let w1 := after w (w_fs w) (readCalls (contentPath s ResponseBodyRecord key)) in
    let r := RetrieveResponseHeader s key w1 in
    (match snd (fst r) with
     | Some e => (None, Some (if IsNotExist e then ErrNotFoundInStore else e))
     | None => (Some (NewResponse (StatusCode (fst (fst r))) (VfsFile data)
                        (Header_Header (fst (fst r)))), None)
     end, snd r).
Proof.
  unfold readCalls, contentPath, classPrefix. intros Hidle Hopen Hdata.
  destruct (stat_nonempty _ _ _ Hopen Hdata) as (fi & Hst & Hz & _).
  unfold RetrieveResponse, bind at 1.
  rewrite (marker_idle_absent _ _ Hidle).
  unfold bind at 1, Open at 1. unfold logged, after. cbn [w_fs w_log].
  rewrite Hopen.
  unfold bind at 1, Stat at 1. unfold logged. cbn [w_fs w_log].
  rewrite Hst, Hz. unfold bind at 1. rewrite <- !app_assoc. simpl.
  destruct (RetrieveResponseHeader s key _) as [[hd [e|]] w2]; simpl.
  - by destruct (IsNotExist e).
  - done.
Qed.

(** X2. Storing a response, then retrieving it.  When [StoreResponse] has
    returned nil, the body record holds the bytes of the body (storing the
    header has not disturbed it) and is not empty, both markers are idle,
    the status is in the range of [int] and the header block is valid,
    [RetrieveResponse] under the same key returns, without error, a
    response with the status stored, the body record as its body and the
    header block read back, which equals the one stored under
    case-insensitive comparison of the names.  It makes five calls and
    leaves the filesystem as it was. *)
Theorem response_store_then_retrieve s (res : Response) (key : string)
  (ov : bool) w w' :
  StoreResponse s res key ov w = (None, w') ->
  fs_Open (w_fs w') (contentPath s ResponseBodyRecord key)
    = inr (fst (read_all (body res))) ->
  fst (read_all (body res)) <> "" ->
  marker_idle (w_fs w') (contentPath s ResponseBodyRecord key) ->
  marker_idle (w_fs w') (contentPath s ResponseHeaderRecord key) ->
  (minInt <= Status res <= maxInt)%Z ->
  valid_header (Response_Header res) ->
  RetrieveResponse s key w' =
    ((Some (NewResponse (Status res) (VfsFile (fst (read_all (body res))))
              (readBack (Response_Header res))), None),
     after w' (w_fs w')
       (readCalls (contentPath s ResponseBodyRecord key) ++
        [CStat (markerPath s ResponseHeaderRecord key);
         COpen (contentPath s ResponseHeaderRecord key)])) /\
  same_header_ci (Response_Header res) (readBack (Response_Header res)).
Proof.
  intros Hst Hbody Hdata Hib Hih Hcode Hh.
  split; [|by apply readBack_same_ci].
  assert (fs_Open (w_fs w') (contentPath s ResponseHeaderRecord key)
            = inr (responseHeaderWire (Status res) (Response_Header res)))
    as Hhdr.
  { unfold StoreResponse, bind in Hst.
    destruct (storeBody s (body res) key ov w) as [[e|] w1]; [done|].
    destruct (storeHeader s (Status res) (Response_Header res) key ov w1)
      as [[e|] w2] eqn:Hs; [done|].
    injection Hst as <-. by apply (storeHeader_stored _ _ _ _ _ _ _ Hs). }
  rewrite (RetrieveResponse_reads _ _ _ _ Hib Hbody Hdata). cbn zeta.
  rewrite (RetrieveResponseHeader_reads s key
             (after w' (w_fs w') (readCalls (contentPath s ResponseBodyRecord key)))
             _ Hih Hhdr).
  rewrite (readResponseHeaders_wire _ _ Hcode Hh). simpl.
  unfold after. simpl. by rewrite <- !app_assoc.
Qed.

End RoundTrips.

Section Compositions.
Context {lib : GoLib} {FS : Type} {vfs : VFS FS}
  {laws : VFSLaws FS} {rlaws : VFSReadLaws FS}.
Implicit Types (w : World FS) (s : store).

Lemma storeSucceeds_stored s c key w w' :
  storeSucceeds s c key w w' ->
  exists d, fs_Open (w_fs w') (contentPath s c key) = inr d /\ d <> "".
Proof.
  destruct c; simpl.
  - intros (h & ov & Hst).
    destruct (StoreRequest_stored _ _ _ _ _ _ Hst) as (u & _ & Hopen).
    eexists. split; [exact Hopen|apply requestWire_nonempty].
  - intros (code & h & ov & Hst). eexists.
    split; [exact (storeHeader_stored _ _ _ _ _ _ _ Hst)|].
    apply responseHeaderWire_nonempty.
  - intros (r & ov & Hst & Hne). eexists.
    split; [exact (storeBody_stored _ _ _ _ _ _ Hst)|done].
Qed.

Lemma marker_idle_dec (fs : FS) path :
  marker_idle fs path \/
  exists fi, fs_Stat fs (path ++ ".private") = inr fi /\ (0 < fi_Size fi)%Z.
Proof.
  unfold marker_idle.
  destruct (fs_Stat fs (path ++ ".private")) as [e|fi]; [by left|].
  destruct (Z_lt_le_dec 0 (fi_Size fi)); [right; by exists fi|left].
  by intros fi' [= <-].
Qed.

(** X3. A record that was stored protects itself.  After a store
    operation of a class has returned nil (for a body: with at least one
    byte), the store operation of that class on the same key with
    [override] false fails, whatever is to be stored, and leaves the
    filesystem as it was: with [ErrFoundInStore], after the [Stat]s of the
    marker and of the content, when the marker is idle; with
    [ErrFoundInStorePrivate], after the [Stat] of the marker, when it is
    not. *)
Theorem second_store_rejected s (c : ResourceClass) (key : string) w w' :
  storeSucceeds s c key w w' ->
  exists e cs,
    storeFailsWith s c key w' e (after w' (w_fs w') cs) /\
    (marker_idle (w_fs w') (contentPath s c key) /\
       e = ErrFoundInStore /\ cs = guardCalls s c key
     \/
     ~ marker_idle (w_fs w') (contentPath s c key) /\
       e = ErrFoundInStorePrivate /\ cs = [CStat (markerPath s c key)]).
Proof.
  intros Hs. destruct (storeSucceeds_stored _ _ _ _ _ Hs) as (d & Hopen & Hd).
  destruct (stat_nonempty _ _ _ Hopen Hd) as (fi & Hst & _ & Hsz).
  apply Z.ltb_lt in Hsz.
  destruct (marker_idle_dec (w_fs w') (contentPath s c key))
    as [Hidle|(fim & Hm & Hmsz)].
  - exists ErrFoundInStore, (guardCalls s c key). split; [|by left].
    apply store_guard_fails. by apply (storeGuard_content _ _ fi).
  - exists ErrFoundInStorePrivate, [CStat (markerPath s c key)].
    split.
    + apply store_guard_fails. by apply (storeGuard_marker _ _ fim).
    + right. split; [|done]. intros Hidle. specialize (Hidle fim Hm). lia.
Qed.

(** X4. An empty body is stored but never served.  When [storeBody] has
    returned nil for a reader that delivered no byte, and the marker is
    idle, [RetrieveResponse] fails with [ErrFoundWithZeroInStore]; and the
    guard of a later store with [override] false finds nothing to protect:
    it returns nil. *)
Theorem empty_body_stored_not_served s (r : ReadSeekCloser) (key : string)
  (ov : bool) w w' :
  storeBody s r key ov w = (None, w') ->
  fst (read_all r) = "" ->
  marker_idle (w_fs w') (contentPath s ResponseBodyRecord key) ->
  RetrieveResponse s key w' =
    ((None, Some ErrFoundWithZeroInStore),
     after w' (w_fs w') (readCalls (contentPath s ResponseBodyRecord key))) /\
  storeGuard (contentPath s ResponseBodyRecord key) w' =
    (None, after w' (w_fs w') (guardCalls s ResponseBodyRecord key)).
Proof.
  intros Hst Hempty Hidle.
  pose proof (storeBody_stored _ _ _ _ _ _ Hst) as Hopen.
  rewrite Hempty in Hopen.
  destruct (stat_empty _ _ Hopen) as (fi & Hfi & Hz & Hpos).
  split.
  - apply (body_found_empty s key w' "" fi); try done.
    by apply Z.eqb_eq.
  - unfold storeGuard, guardCalls, markerPath. run.
    destruct (fs_Stat (w_fs w')
                (contentPath s ResponseBodyRecord key ++ ".private"))
      as [e|fim] eqn:Hm.
    + simpl. rewrite Hfi. simpl. rewrite Hpos. simpl. by rewrite <- app_assoc.
    + specialize (Hidle fim Hm). apply Z.ltb_ge in Hidle. rewrite Hidle.
      simpl. rewrite Hfi. simpl. rewrite Hpos. simpl. by rewrite <- app_assoc.
Qed.

(** X7. Deleting, then retrieving.  After the single-class delete of a
    class has returned nil, and with the marker idle, the retrieval of
    that class under the same key fails with [ErrNotFoundInStore], having
    made the [Stat] of the marker and the [Open] of the content. *)
Theorem delete_then_retrieve s (c : ResourceClass) (key : string) w w' :
  deleteClass s c key w = (None, w') ->
  marker_idle (w_fs w') (contentPath s c key) ->
  retrieveFailsWith s c key w' ErrNotFoundInStore
    (after w' (w_fs w')
       [CStat (markerPath s c key); COpen (contentPath s c key)]).
Proof.
  intros Hdel Hidle.
  assert (exists e, fs_Open (w_fs w') (contentPath s c key) = inl e /\
                    IsNotExist e = true) as (e & Hopen & He).
  { unfold contentPath in *.
    destruct c; unfold deleteClass, classPrefix,
      DelRequest, DelResponseHeader, DelResponseBody, bind in Hdel;
      rewrite DelByFilename_spec in Hdel;
      (destruct (fs_Remove (w_fs w) _) as [fs1 [e|]] eqn:E; simpl in Hdel;
       [by destruct (IsNotExist e)|]);
      rewrite DelByFilename_spec in Hdel; unfold ret, after in Hdel;
      simpl in Hdel; injection Hdel as <-; simpl;
      destruct (law_remove_gone _ _ _ E) as (e0 & Ho & He0);
      (destruct (fs_Remove fs1 _) as [fs2 e2] eqn:E2; simpl;
       eapply law_remove_marker_gone; [exact E2|exact Ho|exact He0]). }
  unfold markerPath, contentPath in *.
  destruct c; unfold retrieveFailsWith, classPrefix in *.
  - unfold RetrieveRequest, RetrieveRequestByHash, RetrieveRequestByFileName,
      bind at 1.
    rewrite (marker_idle_absent _ _ Hidle). run. rewrite Hopen, He. simpl.
    by rewrite <- !app_assoc.
  - unfold RetrieveResponseHeader, bind at 1.
    rewrite (marker_idle_absent _ _ Hidle). run. rewrite Hopen, He. simpl.
    by rewrite <- !app_assoc.
  - unfold RetrieveResponse, bind at 1.
    rewrite (marker_idle_absent _ _ Hidle). run. rewrite Hopen, He. simpl.
    by rewrite <- !app_assoc.
Qed.

End Compositions.

Section Failures.
Context {lib : GoLib} {FS : Type} {vfs : VFS FS}.
Implicit Types (w : World FS) (s : store).

Lemma keeps_refl w : extends_without_remove w w.
Proof. exists []. split; [by rewrite app_nil_r|constructor]. Qed.

Lemma keeps_trans w1 w2 w3 :
  extends_without_remove w1 w2 -> extends_without_remove w2 w3 ->
  extends_without_remove w1 w3.
Proof.
  intros (cs & E1 & F1) (cs' & E2 & F2). exists (cs ++ cs')%list. split.
  - by rewrite E2, E1, app_assoc.
  - by apply Forall_app.
Qed.

Ltac keeps_leaf :=
  unfold extends_without_remove; simpl; rewrite <- ?app_assoc;
  eexists; split; [reflexivity|repeat constructor].

Lemma storeGuard_keeps path w : extends_without_remove w (snd (storeGuard path w)).
Proof. unfold storeGuard. run. repeat case_match; simplify_eq/=; keeps_leaf. Qed.

Lemma guard_keeps (ov : bool) path w :
  extends_without_remove w
    (snd ((if ov then ret None else storeGuard path) w)).
Proof. destruct ov; [apply keeps_refl|apply storeGuard_keeps]. Qed.

Lemma vfsCreatePrivateDummy_keeps path w :
  extends_without_remove w (snd (vfsCreatePrivateDummy path w)).
Proof.
  unfold vfsCreatePrivateDummy. run. repeat case_match; simplify_eq/=; keeps_leaf.
Qed.

Lemma vfsWrite_keeps path r w :
  extends_without_remove w (snd (vfsWrite path r w)).
Proof.
  unfold vfsWrite, Copy. run. destruct (read_all r) as [data rerr].
  repeat case_match; simplify_eq/=; keeps_leaf.
Qed.

(** A reader that ends with an error is never reported as written. *)
Lemma vfsWrite_broken path r w e :
  snd (read_all r) = Some e -> fst (vfsWrite path r w) <> None.
Proof.
  unfold vfsWrite, Copy. run. destruct (read_all r) as [data rerr].
  simpl. intros ->. repeat case_match; simplify_eq/=; done.
Qed.

Lemma commit_failed_keeps path r w e w' :
  commit path r w = (Some e, w') -> extends_without_remove w w'.
Proof.
  unfold commit, bind.
  pose proof (vfsCreatePrivateDummy_keeps (path ++ ".private") w) as L1.
  destruct (vfsCreatePrivateDummy (path ++ ".private") w) as [e1 w1].
  pose proof (vfsWrite_keeps path r w1) as L2.
  destruct (vfsWrite path r w1) as [[e2|] w2]; simpl in *.
  - intros [= <- <-]. by eapply keeps_trans.
  - by destruct (vfsDeletePrivateDummy _ w2).
Qed.

Lemma storeHeader_failed_keeps s code h key ov w e w' :
  storeHeader s code h key ov w = (Some e, w') -> extends_without_remove w w'.
Proof.
  intros Hst. unfold storeHeader, bind at 1 in Hst.
  pose proof (guard_keeps ov (headerPrefix ++ formatPrefix ++ HashKey s key) w)
    as Lg.
  destruct ((if ov then ret None else storeGuard _) w) as [[e0|] wg];
    simpl in Lg.
  { by injection Hst as <- <-. }
  eapply keeps_trans; [exact Lg|]. by eapply commit_failed_keeps.
Qed.

Lemma storeBody_failed_keeps s r key ov w e w' :
  storeBody s r key ov w = (Some e, w') -> extends_without_remove w w'.
Proof.
  intros Hst. unfold storeBody, bind at 1 in Hst.
  pose proof (guard_keeps ov (bodyPrefix ++ formatPrefix ++ HashKey s key) w)
    as Lg.
  destruct ((if ov then ret None else storeGuard _) w) as [[e0|] wg];
    simpl in Lg.
  { by injection Hst as <- <-. }
  eapply keeps_trans; [exact Lg|]. by eapply commit_failed_keeps.
Qed.

(** X5. A store operation that does not return nil ([StoreRequest]
    returning an error or panicking, [storeHeader] or [storeBody] returning
    an error) has made no [Remove] call: a marker it has created is left
    in place. *)
Theorem failed_store_removes_nothing s (c : ResourceClass) (key : string)
  w w' :
  storeFails s c key w w' -> extends_without_remove w w'.
Proof.
  destruct c; simpl.
  - intros (h & ov & o & Hst & Ho). unfold StoreRequest, bind at 1 in Hst.
    pose proof (guard_keeps ov (requestPrefix ++ formatPrefix ++ HashKey s key) w)
      as Lg.
    destruct ((if ov then ret None else storeGuard _) w) as [[e|] wg];
      simpl in Lg.
    { by injection Hst as <- <-. }
    destruct (absoluteURL h) as [u|]; [|by injection Hst as <- <-].
    eapply keeps_trans; [exact Lg|].
    set (p := requestPrefix ++ formatPrefix ++ HashKey s key) in *.
    set (r := ByteReadSeekCloser _) in *.
    destruct (commit p r wg) as [e w1] eqn:Hc.
    pose proof (commit_failed_keeps p r wg) as K.
    unfold commit, bind in Hc, K. unfold bind in Hst.
    destruct (vfsCreatePrivateDummy (p ++ ".private") wg) as [e1 w2].
    destruct (vfsWrite p r w2) as [[e2|] w3].
    + simpl in *. injection Hst as <- <-. by apply (K e2).
    + destruct (vfsDeletePrivateDummy (p ++ ".private") w3) as [e3 w4].
      simpl in *. by injection Hst as <- <-.
  - intros (code & h & ov & e & Hst). by eapply storeHeader_failed_keeps.
  - intros (r & ov & e & Hst). by eapply storeBody_failed_keeps.
Qed.

Lemma storeBody_broken s r key ov w e :
  snd (read_all r) = Some e -> fst (storeBody s r key ov w) <> None.
Proof.
  intros Hr. unfold storeBody, bind.
  destruct ((if ov then ret None else storeGuard _) w) as [[e0|] wg]; [done|].
  destruct (vfsCreatePrivateDummy _ wg) as [e1 w1].
  pose proof (vfsWrite_broken (bodyPrefix ++ formatPrefix ++ HashKey s key)
                r w1 e Hr) as Hw.
  destruct (vfsWrite _ r w1) as [[e2|] w2]; [done|]. by simpl in Hw.
Qed.

(** X6. A body that breaks off.  When reading the body of a response
    ends with an error (a network body cut short), [StoreResponse] returns
    an error, the one [storeBody] returns; the header record is not
    attempted (the world is the one [storeBody] leaves) and no [Remove]
    call is made. *)
Theorem broken_body_not_stored s (res : Response) (key : string)
  (ov : bool) w (e : error) :
  snd (read_all (body res)) = Some e ->
  exists e',
    StoreResponse s res key ov w =
      (Some e', snd (storeBody s (body res) key ov w)) /\
    fst (storeBody s (body res) key ov w) = Some e' /\
    extends_without_remove w (snd (storeBody s (body res) key ov w)).
Proof.
  intros Hr. pose proof (storeBody_broken s (body res) key ov w e Hr) as Hb.
  unfold StoreResponse, bind.
  destruct (storeBody s (body res) key ov w) as [[e'|] w1] eqn:Hs; [|done].
  exists e'. split_and!; [done|done|].
  by eapply storeBody_failed_keeps.
Qed.

End Failures.

Section Paths.
Context {lib : GoLib} {FS : Type} {vfs : VFS FS}
  {laws : VFSLaws FS} {rlaws : VFSReadLaws FS}.
Implicit Types (w : World FS) (s : store).
#[local] Arguments String.append : simpl nomatch.

Lemma hex_digit_hex n :
  (n < 16)%nat ->
  (is_digit (hex_digit n) ||
   (("a" <=? hex_digit n) && (hex_digit n <=? "f"))%char) = true.
Proof.
  intros Hn. do 16 (destruct n as [|n]; [vm_compute; reflexivity|]). lia.
Qed.

Lemma hex_is_hex d : is_hex (hex d) = true.
Proof.
  induction d as [|c d IH]; [done|].
  unfold is_hex in *. cbn [hex all_bytes]. rewrite IH.
  rewrite !hex_digit_hex; [done| |].
  - apply Nat.mod_upper_bound. lia.
  - apply Nat.Div0.div_lt_upper_bound.
    pose proof (nat_ascii_bounded c). lia.
Qed.

Lemma HashKey_hex s key :
  strings_ToLower (hash s) <> "plain" -> is_hex (HashKey s key) = true.
Proof.
  intros Hp. unfold HashKey.
  destruct (String.eqb_spec (strings_ToLower (hash s)) "plain") as [E|_];
    [done|].
  repeat case_match; apply hex_is_hex.
Qed.

Lemma is_hex_no_marker a : is_hex (a ++ ".private") = false.
Proof.
  unfold is_hex. rewrite all_bytes_append.
  apply andb_false_iff. by right.
Qed.

Lemma classPrefix_apart c c' a b :
  classPrefix c ++ a = classPrefix c' ++ b -> c = c' /\ a = b.
Proof.
  destruct c, c'; cbn; intros E; try discriminate E; split; try done;
    by simplify_eq.
Qed.

(** X8. Under every digest selector (every selector but [plain]) the name
    of a record is a string of lower-case hexadecimal digits, no content
    path is the marker path of any record, and the records of different
    classes have different content paths and different marker paths. *)
Theorem digest_paths_apart s (c c' : ResourceClass) (key key' : string) :
  strings_ToLower (hash s) <> "plain" ->
  is_hex (HashKey s key) = true /\
  contentPath s c key <> markerPath s c' key' /\
  (c <> c' -> contentPath s c key <> contentPath s c' key') /\
  (c <> c' -> markerPath s c key <> markerPath s c' key').
Proof.
  intros Hp. pose proof (HashKey_hex s key Hp) as Hhex.
  split_and!; [done| | |].
  - unfold markerPath, contentPath. rewrite !append_assoc.
    intros E. apply classPrefix_apart in E as [_ E].
    cbn in E. simplify_eq. rewrite E in Hhex.
    by rewrite is_hex_no_marker in Hhex.
  - intros Hc E. unfold contentPath in E.
    by apply classPrefix_apart in E as [? _].
  - intros Hc E. unfold markerPath, contentPath in E.
    rewrite !append_assoc in E.
    by apply classPrefix_apart in E as [? _].
Qed.

Lemma HashKey_plain s key :
  strings_ToLower (hash s) = "plain" -> HashKey s key = key.
Proof. intros Hp. unfold HashKey. by rewrite Hp. Qed.

(** X9. With the selector [plain] the marker path of the key [k] is the
    content path of the key [k.private]: once a request has been stored
    under [k.private], [RetrieveRequest] of [k] fails with
    [ErrFoundInStorePrivate], after the [Stat] of that path. *)
Theorem plain_key_shadows s (h : Request) (key : string) (ov : bool) w w' :
  strings_ToLower (hash s) = "plain" ->
  StoreRequest s h (key ++ ".private") ov w = (Return None, w') ->
  contentPath s RequestRecord (key ++ ".private")
    = markerPath s RequestRecord key /\
  RetrieveRequest s key w' =
    ((None, Some ErrFoundInStorePrivate),
     after w' (w_fs w') [CStat (markerPath s RequestRecord key)]).
Proof.
  intros Hp Hst.
  assert (contentPath s RequestRecord (key ++ ".private")
            = markerPath s RequestRecord key) as Hpath.
  { unfold markerPath, contentPath. rewrite !HashKey_plain by done.
    by rewrite !append_assoc. }
  split; [done|].
  destruct (StoreRequest_stored _ _ _ _ _ _ Hst) as (u & _ & Hopen).
  rewrite Hpath in Hopen.
  destruct (stat_nonempty _ _ _ Hopen (requestWire_nonempty _ _ _ _))
    as (fi & Hfi & _ & Hpos).
  apply Z.ltb_lt in Hpos.
  unfold RetrieveRequest, RetrieveRequestByHash.
  by apply (RetrieveRequestByFileName_marker _ _ fi).
Qed.

End Paths.

(** ** First lines *)

Section LineFacts.
Context {lib : GoLib}.
#[local] Arguments String.append : simpl nomatch.

Lemma cut_byte_count sep s :
  match cut_byte sep s with
  | Some (a, rest) => count_byte sep s = S (count_byte sep rest)
  | None => count_byte sep s = 0%nat
  end.
Proof.
  induction s as [|c s IH]; simpl; [done|].
  destruct (Ascii.eqb c sep); [done|].
  destruct (cut_byte sep s) as [[a rest]|]; simpl; done.
Qed.

Lemma SplitN_length s sep n :
  length (SplitN s sep (S n)) = Nat.min (S n) (S (count_byte sep s)).
Proof.
  revert s. induction n as [|n IH]; intros s; [done|].
  change (SplitN s sep (S (S n)))
    with (match cut_byte sep s with
          | Some (a, rest) => a :: SplitN rest sep (S n)
          | None => [s]
          end).
  pose proof (cut_byte_count sep s) as Hc.
  destruct (cut_byte sep s) as [[a rest]|]; rewrite Hc.
  - cbn [length]. rewrite IH. lia.
  - simpl. lia.
Qed.

Lemma SplitN_two (a b : string) :
  no_byte SP a = true -> no_byte SP b = true ->
  SplitN (a ++ " " ++ b) " " 3 = [a; b].
Proof.
  intros Ha Hb. cbn [SplitN].
  change (a ++ " " ++ b) with (a ++ String SP b).
  rewrite (cut_byte_append SP a _ Ha). cbn [SplitN].
  change (cut_byte " " b) with (cut_byte SP b).
  by rewrite (cut_byte_none SP b Hb).
Qed.

Lemma NewRequest_result method url req :
  NewRequest method url = (req, None) ->
  exists q u, req = Some q /\ ReqURL q = Some u /\ ReqHost q = Host u /\
    Proto q = "HTTP/1.1" /\ validMethod (Method q) = true /\
    RequestURI q = "" /\ ReqHeader q = ∅.
Proof.
  unfold NewRequest.
  destruct (validMethod _) eqn:Hm; [|done]. cbn [negb].
  destruct (url_Parse url) as [e|u]; [done|]. intros [= <-].
  eexists _, _. by split_and!.
Qed.

(** X10. What [readRequest] returns, on any input: with an error, the
    placeholder request [dummyReq]; without error, a request (never nil)
    with a URL, the host of that URL as its host, the protocol [HTTP/1.1],
    a valid method and an empty [RequestURI]. *)
Theorem readRequest_result (r : string) :
  match readRequest r with
  | (req, None) =>
      exists q u, req = Some q /\ ReqURL q = Some u /\ ReqHost q = Host u /\
        Proto q = "HTTP/1.1" /\ validMethod (Method q) = true /\
        RequestURI q = ""
  | (req, Some _) => req = dummyReq
  end.
Proof.
  unfold readRequest. destruct (ReadLine r) as [e|[line rest]]; [done|].
  destruct (length (SplitN line " " 3) <? 2)%nat; [done|].
  destruct (2 <? length (SplitN line " " 3))%nat; [|done].
  destruct (ReadMIMEHeader rest) as [[mimeHeader [e|]] rest']; [done|].
  destruct (NewRequest _ _) as [reqCopy [e|]] eqn:E; [done|].
  apply NewRequest_result in E
    as (q & u & -> & Hu & Hh & Hp & Hm & Huri & _).
  simpl. eexists _, u. by split_and!.
Qed.

(** X11. [readRequest] needs three fields: a first line with fewer than
    two spaces (and no line feed) is rejected as malformed, with the line
    in the message, whatever follows it. *)
Theorem request_line_needs_three_fields (line rest : string) :
  no_byte LF line = true ->
  (count_byte SP line < 2)%nat ->
  readRequest (line ++ CRLF ++ rest) =
    (dummyReq, Some (ErrorString ("malformed HTTP request line: " ++ line))).
Proof.
  intros Hlf Hc. unfold readRequest, ReadLine.
  rewrite (readLineSlice_line _ _ Hlf).
  pose proof (SplitN_length line SP 2) as Hlen.
  change (SplitN line " " 3) with (SplitN line SP 3).
  destruct (length (SplitN line SP 3) <? 2)%nat eqn:E1; [done|].
  destruct (2 <? length (SplitN line SP 3))%nat eqn:E2; [|done].
  apply Nat.ltb_lt in E2. lia.
Qed.

(** X12. [readResponseHeaders] reads the status line for its second field
    alone: whatever the first field (without space or line feed) and
    whatever follows the status on the line, and also when nothing follows
    it, the status written by [Itoa] comes back, for every status in the
    range of [int], together with the header block read back. *)
Theorem status_line_read_for_its_code (proto reason : string) (code : Z)
  (h : Http.Header) :
  no_byte SP proto = true -> no_byte LF proto = true ->
  no_byte LF reason = true ->
  (minInt <= code <= maxInt)%Z ->
  valid_header h ->
  readResponseHeaders (proto ++ " " ++ Itoa code ++ " " ++ reason ++ CRLF
                         ++ headersToWriter h) =
    (mkHeader (readBack h) code, None) /\
  readResponseHeaders (proto ++ " " ++ Itoa code ++ CRLF
                         ++ headersToWriter h) =
    (mkHeader (readBack h) code, None).
Proof.
  intros Hsp Hlf Hreason Hcode Hh. split.
  - by apply readResponseHeaders_line.
  - unfold readResponseHeaders, ReadLine.
    replace (proto ++ " " ++ Itoa code ++ CRLF ++ headersToWriter h)
      with ((proto ++ " " ++ Itoa code) ++ CRLF ++ headersToWriter h)
      by (by rewrite !append_assoc).
    rewrite readLineSlice_line.
    2:{ unfold no_byte in *. rewrite !all_bytes_append.
        pose proof (Itoa_no_LF code) as H1. unfold no_byte in H1.
        by rewrite Hlf, H1. }
    rewrite SplitN_two; [|done|apply Itoa_no_SP].
    cbn [length Nat.ltb Nat.leb nth]. rewrite (Atoi_Itoa _ Hcode).
    rewrite <- (append_nil_r (headersToWriter h)).
    by rewrite (headers_roundtrip h "" Hh).
Qed.

(** X13. The errors of the status line.  A first line without space is
    rejected as a malformed response, with the line in the message; a
    second field that [Atoi] rejects is reported as a malformed status
    code, with that field in the message, whether or not anything follows
    it on the line.  In all cases the zero [Header] is returned. *)
Theorem status_line_errors (rest : string) :
  (forall line,
     no_byte LF line = true -> no_byte SP line = true ->
     readResponseHeaders (line ++ CRLF ++ rest) =
       (mkHeader ∅ 0,
        Some (ErrorString ("malformed HTTP response: " ++ line)))) /\
  (forall proto field tail,
     no_byte SP proto = true -> no_byte LF proto = true ->
     no_byte SP field = true -> no_byte LF field = true ->
     no_byte LF tail = true ->
     Atoi field = None ->
     readResponseHeaders (proto ++ " " ++ field ++ " " ++ tail ++ CRLF ++ rest)
       = (mkHeader ∅ 0,
          Some (ErrorString ("malformed HTTP status code: " ++ field)))) /\
  (forall proto field,
     no_byte SP proto = true -> no_byte LF proto = true ->
     no_byte SP field = true -> no_byte LF field = true ->
     Atoi field = None ->
     readResponseHeaders (proto ++ " " ++ field ++ CRLF ++ rest)
       = (mkHeader ∅ 0,
          Some (ErrorString ("malformed HTTP status code: " ++ field)))).
Proof.
  split_and!.
  - intros line Hlf Hsp. unfold readResponseHeaders, ReadLine.
    rewrite (readLineSlice_line _ _ Hlf).
    cbn [SplitN]. change (cut_byte " " line) with (cut_byte SP line).
    by rewrite (cut_byte_none SP line Hsp).
  - intros proto field tail Hsp Hlf Hfsp Hflf Htail Hatoi.
    unfold readResponseHeaders, ReadLine.
    replace (proto ++ " " ++ field ++ " " ++ tail ++ CRLF ++ rest)
      with ((proto ++ " " ++ field ++ " " ++ tail) ++ CRLF ++ rest)
      by (by rewrite !append_assoc).
    rewrite readLineSlice_line.
    2:{ unfold no_byte in *. rewrite !all_bytes_append.
        by rewrite Hlf, Hflf, Htail. }
    rewrite SplitN_three; [|done|done].
    cbn [length Nat.ltb Nat.leb nth]. by rewrite Hatoi.
  - intros proto field Hsp Hlf Hfsp Hflf Hatoi.
    unfold readResponseHeaders, ReadLine.
    replace (proto ++ " " ++ field ++ CRLF ++ rest)
      with ((proto ++ " " ++ field) ++ CRLF ++ rest)
      by (by rewrite !append_assoc).
    rewrite readLineSlice_line.
    2:{ unfold no_byte in *. rewrite !all_bytes_append.
        by rewrite Hlf, Hflf. }
    rewrite SplitN_two; [|done|done].
    cbn [length Nat.ltb Nat.leb nth]. by rewrite Hatoi.
Qed.

End LineFacts.

(** ** Copying header blocks *)

Section CopyFacts.
#[local] Arguments String.append : simpl nomatch.

Ltac by_byte c :=
  destruct c as [[] [] [] [] [] [] [] []]; vm_compute; try discriminate;
  try reflexivity; auto.

Lemma Header_Add_other d k' v k :
  CanonicalMIMEHeaderKey k <> k -> Header_Add d k' v !! k = d !! k.
Proof.
  intros Hk. unfold Header_Add, add_value. apply lookup_insert_ne.
  intros <-. by rewrite CanonicalMIMEHeaderKey_idem in Hk.
Qed.

Lemma Header_Del_other d k' k :
  CanonicalMIMEHeaderKey k <> k -> Header_Del d k' !! k = d !! k.
Proof.
  intros Hk. unfold Header_Del. apply lookup_delete_ne.
  intros <-. by rewrite CanonicalMIMEHeaderKey_idem in Hk.
Qed.

Lemma clearRanged_other ks d k :
  CanonicalMIMEHeaderKey k <> k -> clearRanged ks d !! k = d !! k.
Proof.
  intros Hk. revert d. induction ks as [|k0 ks IH]; intros d; [done|].
  unfold clearRanged in *. cbn [fold_left]. rewrite IH.
  destruct (decide (is_Some (d !! k0))); [|done].
  by apply Header_Del_other.
Qed.

Lemma addValues_other vs d k0 k :
  CanonicalMIMEHeaderKey k <> k ->
  fold_left (fun d v => Header_Add d k0 v) vs d !! k = d !! k.
Proof.
  intros Hk. revert d. induction vs as [|v vs IH]; intros d; [done|].
  cbn [fold_left]. rewrite IH. by apply Header_Add_other.
Qed.

Lemma addRanged_other kvs d k :
  CanonicalMIMEHeaderKey k <> k -> addRanged kvs d !! k = d !! k.
Proof.
  intros Hk. revert d. induction kvs as [|kv kvs IH]; intros d; [done|].
  unfold addRanged in *. cbn [fold_left]. rewrite IH.
  by apply addValues_other.
Qed.

(** X14. [CopyHeaders] clears and fills the destination through [Del] and
    [Add], which work on canonical names: an entry of the destination
    under a name that is not in canonical form is neither removed nor
    changed, whatever the source and the orders of the two loops. *)
Theorem CopyHeaders_keeps_noncanonical (dstKeys : list string)
  (srcEntries : list (string * list string)) (dst : Http.Header)
  (k : string) :
  CanonicalMIMEHeaderKey k <> k ->
  CopyHeaders dstKeys srcEntries dst !! k = dst !! k.
Proof.
  intros Hk. unfold CopyHeaders. cbn zeta.
  destruct (String.eqb _ ""); [rewrite Header_Add_other by done|];
    by rewrite addRanged_other, clearRanged_other.
Qed.

Lemma canon_content_type :
  CanonicalMIMEHeaderKey "Content-Type" = "Content-Type".
Proof. reflexivity. Qed.

(** X15. After [CopyHeaders] the destination has a [Content-Type] entry
    with at least one value, the first being what [Get] returns.  That
    first value is empty only when the default of four spaces was appended
    behind an empty first value, where [Get] does not look. *)
Theorem CopyHeaders_content_type (dstKeys : list string)
  (srcEntries : list (string * list string)) (dst : Http.Header) :
  let out := CopyHeaders dstKeys srcEntries dst in
  exists v vs,
    out !! "Content-Type" = Some (v :: vs) /\
    Header_Get out "Content-Type" = v /\
    (v = "" -> exists vs', vs = (vs' ++ ["    "])%list).
Proof.
  intros out. subst out. unfold CopyHeaders. cbn zeta.
  set (copied := addRanged srcEntries (clearRanged dstKeys dst)).
  destruct (String.eqb_spec (Header_Get copied "Content-Type") "") as [E|E].
  - unfold Header_Get in *. unfold Header_Add, add_value.
    rewrite canon_content_type in *. rewrite lookup_insert_eq.
    destruct (copied !! "Content-Type") as [[|v vs]|]; simpl.
    + exists "    ", []. by split_and!.
    + subst v. exists "", (vs ++ ["    "])%list. split_and!; [done|done|].
      intros _. by exists vs.
    + exists "    ", []. by split_and!.
  - unfold Header_Get in *. rewrite canon_content_type in *.
    destruct (copied !! "Content-Type") as [[|v vs]|]; [done| |done].
    exists v, vs. by split_and!.
Qed.

Lemma clearRanged_all ks (d : Http.Header) :
  canonical_names d ->
  (forall k, is_Some (d !! k) -> k ∈ ks) ->
  clearRanged ks d = ∅.
Proof.
  revert d. induction ks as [|k0 ks IH]; intros d Hc Hks.
  - apply map_empty. intros k. apply eq_None_not_Some. intros Hk.
    specialize (Hks k Hk). by apply elem_of_nil in Hks.
  - unfold clearRanged in *. cbn [fold_left].
    destruct (decide (is_Some (d !! k0))) as [Hk0|Hk0].
    + unfold Header_Del. rewrite (Hc k0 Hk0). apply IH.
      * intros k Hk. apply Hc.
        destruct Hk as [vs Hk]. apply lookup_delete_Some in Hk as [_ Hk].
        by eexists.
      * intros k [vs Hk]. apply lookup_delete_Some in Hk as [Hne Hk].
        assert (k ∈ k0 :: ks) as Hin by (apply Hks; by eexists).
        apply elem_of_cons in Hin as [->|Hin]; done.
    + apply IH; [done|]. intros k Hk.
      assert (k ∈ k0 :: ks) as Hin by by apply Hks.
      apply elem_of_cons in Hin as [->|Hin]; done.
Qed.

Lemma addValues_spec vs (d : Http.Header) k0 :
  fold_left (fun d v => Header_Add d k0 v) vs d =
    match vs with
    | [] => d
    | _ => <[CanonicalMIMEHeaderKey k0 :=
               (default [] (d !! CanonicalMIMEHeaderKey k0) ++ vs)%list]> d
    end.
Proof.
  revert d. induction vs as [|v vs IH]; intros d; [done|].
  cbn [fold_left]. rewrite IH. unfold Header_Add, add_value.
  destruct vs as [|v' vs]; [done|].
  rewrite lookup_insert_eq. cbn [default]. rewrite insert_insert_eq.
  unfold id. by rewrite <- app_assoc.
Qed.

Lemma addRanged_lookup kvs (d : Http.Header) k :
  NoDup kvs.*1 ->
  (forall kv, kv ∈ kvs -> CanonicalMIMEHeaderKey kv.1 = kv.1) ->
  addRanged kvs d !! k =
    match (list_to_map kvs : Http.Header) !! k with
    | Some (v :: vs) => Some (default [] (d !! k) ++ v :: vs)%list
    | _ => d !! k
    end.
Proof.
  revert d. induction kvs as [|[k0 vs0] kvs IH]; intros d Hnd Hc; [done|].
  rewrite fmap_cons in Hnd. apply NoDup_cons in Hnd as [Hk0 Hnd].
  cbn [fst] in Hk0.
  unfold addRanged in *. cbn [fold_left fst snd].
  rewrite IH; [|done|intros kv Hkv; apply Hc; by right].
  rewrite addValues_spec.
  assert (CanonicalMIMEHeaderKey k0 = k0) as -> by (apply (Hc (k0, vs0)); by left).
  rewrite list_to_map_cons.
  destruct (decide (k = k0)) as [->|Hne].
  - rewrite lookup_insert_eq.
    rewrite (not_elem_of_list_to_map_1 _ _ Hk0).
    destruct vs0 as [|v vs]; [done|]. by rewrite lookup_insert_eq.
  - rewrite (lookup_insert_ne _ k0 k) by done.
    destruct vs0 as [|v vs]; [done|]. by rewrite lookup_insert_ne.
Qed.

Lemma copied_spec ks kvs (src dst : Http.Header) k :
  key_order dst ks -> range_order src kvs ->
  canonical_names dst -> canonical_names src ->
  addRanged kvs (clearRanged ks dst) !! k = copiedEntry src k.
Proof.
  intros Hks Hkvs Hcd Hcs.
  rewrite clearRanged_all; [|done|].
  2:{ intros k' [vs Hk']. unfold key_order in Hks. rewrite Hks.
      apply list_elem_of_fmap. exists (k', vs). split; [done|].
      by apply elem_of_map_to_list. }
  unfold range_order in Hkvs.
  assert (NoDup kvs.*1) as Hnd.
  { rewrite Hkvs. apply NoDup_fst_map_to_list. }
  rewrite addRanged_lookup; [|done|].
  2:{ intros [k' vs] Hkv. rewrite Hkvs in Hkv.
      apply elem_of_map_to_list in Hkv. apply Hcs. by eexists. }
  rewrite (list_to_map_proper kvs (map_to_list src) Hnd Hkvs).
  rewrite list_to_map_to_list. unfold copiedEntry.
  rewrite lookup_empty. by destruct (src !! k) as [[|v vs]|].
Qed.

(** X16. With both maps in canonical form (as [net/http] builds them), and
    whatever the orders in which the two loops range over them,
    [CopyHeaders] leaves in the destination the entries of the source that
    have at least one value, and nothing of what the destination held;
    [Content-Type] is the source's when its first value is not empty, the
    source's with the default of four spaces appended when it is, and the
    default alone when the source has none. *)
Theorem CopyHeaders_copies (dstKeys : list string)
  (srcEntries : list (string * list string)) (src dst : Http.Header) :
  key_order dst dstKeys -> range_order src srcEntries ->
  canonical_names dst -> canonical_names src ->
  let out := CopyHeaders dstKeys srcEntries dst in
  (forall k, k <> "Content-Type" -> out !! k = copiedEntry src k) /\
  out !! "Content-Type" =
    match copiedEntry src "Content-Type" with
    | Some ("" :: vs) => Some ("" :: vs ++ ["    "])%list
    | Some vs => Some vs
    | None => Some ["    "]
    end.
Proof.
  intros Hks Hkvs Hcd Hcs out. subst out. unfold CopyHeaders. cbn zeta.
  set (copied := addRanged srcEntries (clearRanged dstKeys dst)).
  assert (forall k, copied !! k = copiedEntry src k) as Hcopied.
  { intros k. by apply copied_spec. }
  unfold Header_Get, Header_Add, add_value. rewrite canon_content_type.
  rewrite !Hcopied. unfold copiedEntry.
  destruct (src !! "Content-Type") as [[|v vs]|] eqn:Ect; cbn.
  - split; [intros k Hk; by rewrite lookup_insert_ne, Hcopied|].
    by rewrite lookup_insert_eq.
  - destruct (String.eqb_spec v "") as [->|Hv].
    + split; [intros k Hk; by rewrite lookup_insert_ne, Hcopied|].
      by rewrite lookup_insert_eq.
    + split; [intros k Hk; by rewrite Hcopied|].
      rewrite Hcopied. unfold copiedEntry. rewrite Ect.
      destruct v; [done|]. done.
  - split; [intros k Hk; by rewrite lookup_insert_ne, Hcopied|].
    by rewrite lookup_insert_eq.
Qed.

End CopyFacts.

(** ** Listing, fetching, validators *)

Section WalkListing.
Context {lib : GoLib} {FS : Type} {vfs : VFS FS}.
Implicit Types (w : World FS) (s : store).

Lemma walked_spec (visits : list (string * (error + FileInfo))) :
  let infos := fst (walked visits) in
  let names := snd (walked visits) in
  length infos = length names /\
  take (length names) visits = zip names (inr <$> infos) /\
  match visits !! length names with
  | Some (_, inr _) => False
  | _ => True
  end.
Proof.
  induction visits as [|[path [e|info]] visits IH]; [done|done|].
  cbn [walked]. destruct (walked visits) as [infos names].
  cbn [fst snd] in *. destruct IH as (IH1 & IH2 & IH3).
  cbn [length take lookup fmap list_fmap]. split_and!.
  - by rewrite IH1.
  - simpl. by rewrite IH2.
  - done.
Qed.

(** X17. [WalkRequests] returns two lists of the same length: the paths
    and the file informations of the visits of the walk below
    [request/v1/], in the order of the walk, up to the first visit with an
    error (all of them when there is none).  It makes one [Walk] call and
    leaves the filesystem as it was. *)
Theorem WalkRequests_lists w :
  let visits := fs_Walk (w_fs w) (requestPrefix ++ formatPrefix) in
  let infos := fst (fst (WalkRequests w)) in
  let names := snd (fst (WalkRequests w)) in
  length infos = length names /\
  take (length names) visits = zip names (inr <$> infos) /\
  match visits !! length names with
  | Some (_, inr _) => False
  | _ => True
  end /\
  snd (WalkRequests w) =
    after w (w_fs w) [CWalk (requestPrefix ++ formatPrefix)].
Proof.
  intros visits infos names. subst infos names.
  unfold WalkRequests, bind, Walk, ret. cbn [fst snd].
  fold visits. destruct (walked_spec visits) as (H1 & H2 & H3).
  by split_and!.
Qed.

End WalkListing.

Section FetchKey.
Context {lib : GoLib} {FS : Type} {vfs : VFS FS} {laws : VFSLaws FS}.
Implicit Types (w : World FS) (s : store).

Lemma StoreResponse_header_stored s res key ov w w' :
  StoreResponse s res key ov w = (None, w') ->
  snd (read_all (body res)) = None /\
  fs_Open (w_fs w') (contentPath s ResponseHeaderRecord key)
    = inr (responseHeaderWire (Status res) (Response_Header res)).
Proof.
  intros Hst. unfold StoreResponse, bind in Hst.
  destruct (snd (read_all (body res))) as [e|] eqn:Hr.
  { pose proof (storeBody_broken s (body res) key ov w e Hr) as Hb.
    by destruct (storeBody s (body res) key ov w) as [[e'|] w1]. }
  split; [done|].
  destruct (storeBody s (body res) key ov w) as [[e|] w1]; [done|].
  destruct (storeHeader s (Status res) (Response_Header res) key ov w1)
    as [[e|] w2] eqn:Hs; [done|].
  injection Hst as <-. by apply (storeHeader_stored _ _ _ _ _ _ _ Hs).
Qed.

(** X18. Under the key [dummy], in any case of its letters,
    [FetchAndStoreResponse] takes the text of the request's URL as the
    key: it runs as under that key, and when it returns nil the client had
    returned a response, its body was read without error, and the header
    record of that URL holds the status line and the header block of the
    response.  With a nil URL it panics before any call. *)
Theorem fetch_under_dummy_key s (request : Request) (key : string)
  (ov : bool) w :
  strings_ToLower key = "dummy" ->
  match ReqURL request with
  | None => FetchAndStoreResponse s request key ov w = (Panic, w)
  | Some u =>
      FetchAndStoreResponse s request key ov w =
        FetchAndStoreResponse s request (URL_String u) ov w /\
      (forall w', FetchAndStoreResponse s request key ov w = (Return None, w') ->
         exists resp,
           fst (client s request) = Some resp /\
           body_err (resp_Body resp) = None /\
           fs_Open (w_fs w')
             (contentPath s ResponseHeaderRecord (URL_String u))
             = inr (responseHeaderWire (resp_StatusCode resp)
                      (resp_Header resp)))
  end.
Proof.
  intros Hk. unfold FetchAndStoreResponse, fetchKey. rewrite Hk.
  cbn [String.eqb Ascii.eqb Bool.eqb].
  destruct (ReqURL request) as [u|]; [|done]. cbn [option_map]. split.
  { by destruct (String.eqb (strings_ToLower (URL_String u)) "dummy"). }
  intros w'. unfold bind at 1, Do.
  destruct (client s request) as [resp err]. cbn [fst snd].
  destruct err as [err|];
    [destruct (Contains (Error_text err) "REDIRECT!!!"); [|done]|];
    cbn [negb].
  all: destruct resp as [resp|]; [|done].
  all: unfold bind, ret;
    destruct (StoreResponse s _ (URL_String u) ov _) as [e w1] eqn:Hst;
    intros [= -> ->];
    apply StoreResponse_header_stored in Hst as [Hr Hopen];
    exists resp; by split_and!.
Qed.

End FetchKey.

Section BothRecords.
Context {lib : GoLib} {FS : Type} {vfs : VFS FS} {rlaws : VFSReadLaws FS}.
Implicit Types (w : World FS) (s : store).

Lemma RetrieveResponseHeader_missing s key w e :
  marker_idle (w_fs w) (contentPath s ResponseHeaderRecord key) ->
  fs_Open (w_fs w) (contentPath s ResponseHeaderRecord key) = inl e ->
  RetrieveResponseHeader s key w =
    ((mkHeader ∅ 0, Some (if IsNotExist e then ErrNotFoundInStore else e)),
     after w (w_fs w)
       [CStat (markerPath s ResponseHeaderRecord key);
        COpen (contentPath s ResponseHeaderRecord key)]).
Proof.
  unfold markerPath, contentPath, classPrefix. intros Hidle Hopen.
  unfold RetrieveResponseHeader, bind at 1.
  rewrite (marker_idle_absent _ _ Hidle). run. rewrite Hopen.
  destruct (IsNotExist e); simpl; by rewrite <- !app_assoc.
Qed.

(** X19. [RetrieveResponse] needs both records.  With the body marker
    idle: when the body record does not exist it fails with
    [ErrNotFoundInStore] without looking at the header record; when the
    body record is present and not empty, the header marker idle and the
    header record does not exist, it fails with [ErrNotFoundInStore] as
    well, after five calls. *)
Theorem response_needs_both_records s (key : string) w :
  marker_idle (w_fs w) (contentPath s ResponseBodyRecord key) ->
  (forall e,
     fs_Open (w_fs w) (contentPath s ResponseBodyRecord key) = inl e ->
     IsNotExist e = true ->
     RetrieveResponse s key w =
       ((None, Some ErrNotFoundInStore),
        after w (w_fs w)
          [CStat (markerPath s ResponseBodyRecord key);
           COpen (contentPath s ResponseBodyRecord key)])) /\
  (forall data e,
     fs_Open (w_fs w) (contentPath s ResponseBodyRecord key) = inr data ->
     data <> "" ->
     marker_idle (w_fs w) (contentPath s ResponseHeaderRecord key) ->
     fs_Open (w_fs w) (contentPath s ResponseHeaderRecord key) = inl e ->
     IsNotExist e = true ->
     RetrieveResponse s key w =
       ((None, Some ErrNotFoundInStore),
        after w (w_fs w)
          (readCalls (contentPath s ResponseBodyRecord key) ++
           [CStat (markerPath s ResponseHeaderRecord key);
            COpen (contentPath s ResponseHeaderRecord key)]))).
Proof.
  intros Hib. split.
  - intros e Hopen He. unfold markerPath, contentPath, classPrefix in *.
    unfold RetrieveResponse, bind at 1.
    rewrite (marker_idle_absent _ _ Hib). run. rewrite Hopen, He. simpl.
    by rewrite <- ?app_assoc.
  - intros data e Hopen Hdata Hih Hhdr He.
    rewrite (RetrieveResponse_reads _ _ _ _ Hib Hopen Hdata). cbn zeta.
    rewrite (RetrieveResponseHeader_missing s key
               (after w (w_fs w)
                  (readCalls (contentPath s ResponseBodyRecord key)))
               e Hih Hhdr).
    rewrite He. simpl. unfold after. simpl. by rewrite <- !app_assoc.
Qed.

End BothRecords.

Section Validators.

Lemma Header_Get_nonempty (h : Http.Header) key :
  Header_Get h key <> "" <->
  exists v vs, h !! CanonicalMIMEHeaderKey key = Some (v :: vs) /\ v <> "".
Proof.
  unfold Header_Get. split.
  - destruct (h !! _) as [[|v vs]|]; [done| |done]. intros Hv. by exists v, vs.
  - by intros (v & vs & -> & Hv).
Qed.

Lemma readBack_Get (h : Http.Header) (name : string) :
  valid_header h -> valid_name name -> canon_bytes true name = name ->
  Header_Get (readBack h) name <> "" <->
  exists k v vs, name_eq_ci k name /\ h !! k = Some (v :: vs) /\ v <> "".
Proof.
  intros Hh Hn Hc. destruct (readBack_lookup h Hh) as [H1 H2].
  rewrite Header_Get_nonempty, (CanonicalMIMEHeaderKey_valid _ Hn), Hc. split.
  - intros (v & vs & Hrb & Hv). destruct (H2 _ _ Hrb) as (k & Hk & Hhk).
    exists k, v, vs. split_and!; [|done|done].
    apply canon_eq_iff_ci. by rewrite Hk, Hc.
  - intros (k & v & vs & Hci & Hhk & Hv). exists v, vs. split; [|done].
    apply canon_eq_iff_ci in Hci. rewrite Hc in Hci. rewrite <- Hci.
    by apply H1.
Qed.

(** X20. Validators after a round trip through the store.  On a response
    whose header block was written by the store and read back,
    [HasValidators] is true exactly when the block stored has, under a
    name equal to [Last-Modified] or [Etag] up to case, a first value that
    is not empty. *)
Theorem validators_after_round_trip (code : Z) (b : ReadSeekCloser)
  (h : Http.Header) :
  valid_header h ->
  HasValidators (NewResponse code b (readBack h)) = true <->
  exists k v vs,
    (name_eq_ci k "Last-Modified" \/ name_eq_ci k "Etag") /\
    h !! k = Some (v :: vs) /\ v <> "".
Proof.
  intros Hh. unfold HasValidators, NewResponse. cbn [header].
  rewrite orb_true_iff, !negb_true_iff.
  rewrite <- !(not_true_iff_false (String.eqb _ _)), !String.eqb_eq.
  rewrite (readBack_Get h "Last-Modified" Hh) by done.
  rewrite (readBack_Get h "Etag" Hh) by done.
  split.
  - intros [(k & v & vs & H1 & H2 & H3)|(k & v & vs & H1 & H2 & H3)];
      exists k, v, vs; auto.
  - intros (k & v & vs & [H1|H1] & H2 & H3); [left|right]; by exists k, v, vs.
Qed.

End Validators.

(** ** The calls of a store operation *)

Section Confinement.
Context {lib : GoLib} {FS : Type} {vfs : VFS FS}.
Implicit Types (w : World FS) (s : store).

Lemma confined_refl p w : confined p w w.
Proof. exists []. split; [by rewrite app_nil_r|constructor]. Qed.

Lemma confined_trans p w1 w2 w3 :
  confined p w1 w2 -> confined p w2 w3 -> confined p w1 w3.
Proof.
  intros (cs & E1 & F1) (cs' & E2 & F2). exists (cs ++ cs')%list. split.
  - by rewrite E2, E1, app_assoc.
  - by apply Forall_app.
Qed.

Ltac confined_leaf :=
  unfold confined; simpl; rewrite <- ?app_assoc;
  eexists; split;
    [reflexivity
    |simpl; repeat (apply List.Forall_cons; [simpl; auto|]);
     apply List.Forall_nil].

Lemma storeGuard_confined p w : confined p w (snd (storeGuard p w)).
Proof. unfold storeGuard. run. repeat case_match; simplify_eq/=; confined_leaf. Qed.

Lemma guard_confined (ov : bool) p w :
  confined p w (snd ((if ov then ret None else storeGuard p) w)).
Proof. destruct ov; [apply confined_refl|apply storeGuard_confined]. Qed.

Lemma vfsCreatePrivateDummy_confined p w :
  confined p w (snd (vfsCreatePrivateDummy (p ++ ".private") w)).
Proof.
  unfold vfsCreatePrivateDummy. run.
  repeat case_match; simplify_eq/=; confined_leaf.
Qed.

Lemma vfsWrite_confined p r w : confined p w (snd (vfsWrite p r w)).
Proof.
  unfold vfsWrite, Copy. run. destruct (read_all r) as [data rerr].
  repeat case_match; simplify_eq/=; confined_leaf.
Qed.

Lemma vfsDeletePrivateDummy_confined p w :
  confined p w (snd (vfsDeletePrivateDummy (p ++ ".private") w)).
Proof.
  unfold vfsDeletePrivateDummy. run.
  repeat case_match; simplify_eq/=; confined_leaf.
Qed.

Lemma commit_confined p r w : confined p w (snd (commit p r w)).
Proof.
  unfold commit, bind.
  pose proof (vfsCreatePrivateDummy_confined p w) as L1.
  destruct (vfsCreatePrivateDummy (p ++ ".private") w) as [e1 w1].
  pose proof (vfsWrite_confined p r w1) as L2.
  destruct (vfsWrite p r w1) as [[e2|] w2]; simpl in *.
  - by eapply confined_trans.
  - pose proof (vfsDeletePrivateDummy_confined p w2) as L3.
    destruct (vfsDeletePrivateDummy (p ++ ".private") w2) as [e3 w3].
    simpl in *. eapply confined_trans; [|exact L3]. by eapply confined_trans.
Qed.

(** X22. The calls of a store operation stay with its record: [Stat] and
    [OpenFile] on the content path or the marker path, writes to the
    content path, the write of [dummy] to the marker, [MkdirAll] on their
    directories, [Remove] of the marker.  It opens nothing for reading,
    walks nothing, calls no client and never removes the content. *)
Theorem store_calls_confined s (c : ResourceClass) (key : string) w w' :
  storeRuns s c key w w' ->
  exists cs, w_log w' = (w_log w ++ cs)%list /\
             Forall (ownCall (contentPath s c key)) cs.
Proof.
  unfold contentPath. destruct c; unfold classPrefix; simpl.
  - intros (h & ov & o & Hst). unfold StoreRequest, bind at 1 in Hst.
    set (p := requestPrefix ++ formatPrefix ++ HashKey s key) in *.
    pose proof (guard_confined ov p w) as Lg.
    destruct ((if ov then ret None else storeGuard p) w) as [[e|] wg];
      simpl in Lg.
    { by injection Hst as _ <-. }
    destruct (absoluteURL h) as [u|]; [|by injection Hst as _ <-].
    apply (confined_trans p w wg w' Lg).
    set (r := ByteReadSeekCloser _) in *.
    pose proof (commit_confined p r wg) as K.
    unfold commit, bind in K. unfold bind in Hst.
    destruct (vfsCreatePrivateDummy (p ++ ".private") wg) as [e1 w2].
    destruct (vfsWrite p r w2) as [[e2|] w3].
    + simpl in *. by injection Hst as _ <-.
    + destruct (vfsDeletePrivateDummy (p ++ ".private") w3) as [e3 w4].
      simpl in *. by injection Hst as _ <-.
  - intros (code & h & ov & e & Hst). unfold storeHeader, bind at 1 in Hst.
    set (p := headerPrefix ++ formatPrefix ++ HashKey s key) in *.
    pose proof (guard_confined ov p w) as Lg.
    destruct ((if ov then ret None else storeGuard p) w) as [[e0|] wg];
      simpl in Lg.
    { by injection Hst as _ <-. }
    apply (confined_trans p w wg w' Lg).
    pose proof (commit_confined p
                  (ByteReadSeekCloser (responseHeaderWire code h)) wg) as K.
    unfold commit in K. by rewrite Hst in K.
  - intros (r & ov & e & Hst). unfold storeBody, bind at 1 in Hst.
    set (p := bodyPrefix ++ formatPrefix ++ HashKey s key) in *.
    pose proof (guard_confined ov p w) as Lg.
    destruct ((if ov then ret None else storeGuard p) w) as [[e0|] wg];
      simpl in Lg.
    { by injection Hst as _ <-. }
    apply (confined_trans p w wg w' Lg).
    pose proof (commit_confined p r wg) as K.
    unfold commit in K. by rewrite Hst in K.
Qed.

(** X21. A retrieval returns a value or an error, never both and never
    neither: [RetrieveRequest] and [RetrieveResponse] return a non-nil
    pointer exactly when they return no error, and
    [RetrieveResponseHeader] returns the zero [Header] whenever it returns
    an error. *)
Theorem retrieve_value_xor_error s (key : string) w :
  valueXorError (fst (RetrieveRequest s key w)) /\
  valueXorError (fst (RetrieveResponse s key w)) /\
  (forall e, snd (fst (RetrieveResponseHeader s key w)) = Some e ->
             fst (fst (RetrieveResponseHeader s key w)) = mkHeader ∅ 0).
Proof.
  split_and!.
  - unfold RetrieveRequest, RetrieveRequestByHash, RetrieveRequestByFileName,
      privateFileExists. run.
    repeat (case_match; simplify_eq/=); try done.
    all: match goal with
         | H : readRequest _ = (None, None) |- _ =>
             by apply readRequest_nil_error in H as [q ?]
         end.
  - unfold RetrieveResponse, RetrieveResponseHeader, privateFileExists. run.
    repeat (case_match; simplify_eq/=); done.
  - intros e. unfold RetrieveResponseHeader, privateFileExists. run.
    unfold readResponseHeaders.
    repeat (case_match; simplify_eq/=); done.
Qed.

End Confinement.

(** ** The further properties on the example worlds *)

(** A run that returns [a] is the pair of [a] and the world it leaves. *)
Lemma run_returns {A B : Type} (p : A * B) (a : A) : fst p = a -> p = (a, snd p).
Proof. destruct p. by intros <-. Qed.

Import ExampleLib Examples MemFSFacts MemFSReadFacts.

Lemma valid_exHeader : valid_header exHeader.
Proof.
  apply (valid_header_singleton "Host" "example.com");
    [reflexivity|repeat split].
Qed.

Lemma request_store_then_retrieve_witness :
  fst (RetrieveRequest exStore "a" oneStored) = (Some (exRequest "/a"), None).
Proof.
  destruct (request_store_then_retrieve (lib := example_lib)
              (laws := mem_fs_lawful) (rlaws := mem_fs_read_lawful)
              exStore (exRequest "/a") "a" false emptyWorld oneStored
              (mkURL "http" "" "" "example.com" "/a" "" "")
              (mkURL "http" "" "" "example.com" "/a" "" "")) as [H _];
    [apply run_returns; vm_compute; reflexivity
    |intros fi; vm_compute; discriminate
    |reflexivity..
    |apply valid_exHeader
    |].
  rewrite H. vm_compute. reflexivity.
Defined.

Lemma response_store_then_retrieve_witness :
  fst (RetrieveResponse exStore "a" responseStored) =
    (Some (NewResponse 200 (VfsFile "hello") exHeader), None).
Proof.
  destruct (response_store_then_retrieve (lib := example_lib)
              (laws := mem_fs_lawful) (rlaws := mem_fs_read_lawful)
              exStore exResponse "a" false emptyWorld responseStored)
    as [H _];
    [apply run_returns; vm_compute; reflexivity
    |vm_compute; reflexivity
    |vm_compute; discriminate
    |intros fi; vm_compute; discriminate
    |intros fi; vm_compute; discriminate
    |vm_compute; split; discriminate
    |apply valid_exHeader
    |].
  rewrite H. vm_compute. reflexivity.
Defined.

Lemma second_store_rejected_witness :
  storeFailsWith exStore RequestRecord "a" oneStored ErrFoundInStore
    (after oneStored (w_fs oneStored) (guardCalls exStore RequestRecord "a")).
Proof.
  destruct (second_store_rejected (lib := example_lib)
              (laws := mem_fs_lawful) (rlaws := mem_fs_read_lawful)
              exStore RequestRecord "a" emptyWorld oneStored)
    as (e & cs & Hfails & [(_ & -> & ->)|(Hbusy & _)]).
  - exists (exRequest "/a"), false. apply run_returns.
    vm_compute. reflexivity.
  - exact Hfails.
  - exfalso. apply Hbusy. intros fi. vm_compute. discriminate.
Defined.

Lemma empty_body_stored_not_served_witness :
  fst (RetrieveResponse exStore "a" emptyBodyStored) =
    (None, Some ErrFoundWithZeroInStore) /\
  fst (storeGuard (contentPath exStore ResponseBodyRecord "a") emptyBodyStored)
    = None.
Proof.
  destruct (empty_body_stored_not_served (lib := example_lib)
              (laws := mem_fs_lawful) (rlaws := mem_fs_read_lawful)
              exStore (ByteReadSeekCloser "") "a" false emptyWorld
              emptyBodyStored) as [H1 H2];
    [apply run_returns; vm_compute; reflexivity
    |reflexivity
    |intros fi; vm_compute; discriminate
    |].
  split; [rewrite H1|rewrite H2]; reflexivity.
Defined.

Lemma failed_store_removes_nothing_witness :
  extends_without_remove emptyWorld
    (run_on (storeBody exStore (IoReaderToReadSeekCloser brokenBody) "a" false)
       emptyWorld).
Proof.
  apply (failed_store_removes_nothing (lib := example_lib)
           exStore ResponseBodyRecord "a").
  exists (IoReaderToReadSeekCloser brokenBody), false,
    (ErrorString "unexpected EOF").
  apply run_returns. vm_compute. reflexivity.
Defined.

Lemma broken_body_not_stored_witness :
  fst (StoreResponse exStore brokenResponse "a" false emptyWorld) =
    Some (ErrorString "unexpected EOF") /\
  fs_Open (w_fs (run_on (StoreResponse exStore brokenResponse "a" false)
                   emptyWorld))
    (contentPath exStore ResponseHeaderRecord "a") = inl MemFS.ErrNotExist.
Proof.
  destruct (broken_body_not_stored (lib := example_lib)
              exStore brokenResponse "a" false emptyWorld
              (ErrorString "unexpected EOF") eq_refl) as (e & H1 & H2 & _).
  unfold run_on. rewrite H1. cbn [fst snd]. split.
  - rewrite <- H2. vm_compute. reflexivity.
  - vm_compute. reflexivity.
Defined.

Lemma delete_then_retrieve_witness :
  RetrieveRequest exStore "b" oneDeleted =
    ((None, Some ErrNotFoundInStore),
     after oneDeleted (w_fs oneDeleted)
       [CStat (markerPath exStore RequestRecord "b");
        COpen (contentPath exStore RequestRecord "b")]).
Proof.
  apply (delete_then_retrieve (lib := example_lib)
           (rlaws := mem_fs_read_lawful)
           exStore RequestRecord "b" threeStored oneDeleted).
  - apply run_returns. vm_compute. reflexivity.
  - intros fi. vm_compute. discriminate.
Defined.

Lemma digest_paths_apart_witness :
  is_hex (HashKey exStore "a") = true /\
  contentPath exStore RequestRecord "a.private"
    <> markerPath exStore RequestRecord "a".
Proof.
  destruct (digest_paths_apart (lib := example_lib) exStore
              RequestRecord RequestRecord "a.private" "a")
    as (_ & H2 & _); [vm_compute; discriminate|].
  destruct (digest_paths_apart (lib := example_lib) exStore
              RequestRecord RequestRecord "a" "a")
    as (H1 & _); [vm_compute; discriminate|].
  split; [exact H1|exact H2].
Defined.

Lemma plain_key_shadows_witness :
  RetrieveRequest plainStore "a" shadowed =
    ((None, Some ErrFoundInStorePrivate),
     after shadowed (w_fs shadowed)
       [CStat (markerPath plainStore RequestRecord "a")]).
Proof.
  apply (plain_key_shadows (lib := example_lib)
           (laws := mem_fs_lawful) (rlaws := mem_fs_read_lawful)
           plainStore (exRequest "/a") "a" false emptyWorld shadowed).
  - reflexivity.
  - apply run_returns. vm_compute. reflexivity.
Defined.

Lemma request_line_needs_three_fields_witness :
  readRequest (lib := example_lib)
    ("GET http://example.com/a" ++ CRLF ++ headersToWriter exHeader) =
    (dummyReq,
     Some (ErrorString
             "malformed HTTP request line: GET http://example.com/a")).
Proof.
  apply (request_line_needs_three_fields (lib := example_lib)
           "GET http://example.com/a" (headersToWriter exHeader)).
  - reflexivity.
  - vm_compute. lia.
Defined.

Lemma status_line_read_for_its_code_witness :
  readResponseHeaders ("ICY 200 fine by me" ++ CRLF ++ headersToWriter exHeader)
    = (mkHeader exHeader 200, None) /\
  readResponseHeaders ("ICY 200" ++ CRLF ++ headersToWriter exHeader)
    = (mkHeader exHeader 200, None).
Proof.
  destruct (status_line_read_for_its_code "ICY" "fine by me" 200 exHeader)
    as [H1 H2];
    [reflexivity..
    |vm_compute; split; discriminate
    |apply valid_exHeader
    |].
  split.
  - etransitivity; [exact H1|]. vm_compute. reflexivity.
  - etransitivity; [exact H2|]. vm_compute. reflexivity.
Defined.

Lemma status_line_errors_witness :
  readResponseHeaders ("garbage" ++ CRLF ++ "") =
    (mkHeader ∅ 0, Some (ErrorString "malformed HTTP response: garbage")) /\
  readResponseHeaders ("HTTP/1.1 2OO OK" ++ CRLF ++ "") =
    (mkHeader ∅ 0, Some (ErrorString "malformed HTTP status code: 2OO")) /\
  readResponseHeaders ("HTTP/1.1 abc" ++ CRLF ++ "") =
    (mkHeader ∅ 0, Some (ErrorString "malformed HTTP status code: abc")).
Proof.
  destruct (status_line_errors "") as (H1 & H2 & H3). split_and!.
  - apply (H1 "garbage"); reflexivity.
  - apply (H2 "HTTP/1.1" "2OO" "OK"); reflexivity.
  - apply (H3 "HTTP/1.1" "abc"); reflexivity.
Defined.

Lemma CopyHeaders_keeps_noncanonical_witness :
  CopyHeaders ["x-cache"] [] {["x-cache" := ["HIT"]]} !! "x-cache"
    = Some ["HIT"].
Proof.
  rewrite (CopyHeaders_keeps_noncanonical ["x-cache"] []
             {["x-cache" := ["HIT"]]} "x-cache"); [|vm_compute; discriminate].
  apply lookup_singleton_eq.
Defined.

Lemma CopyHeaders_content_type_witness :
  exists v vs,
    CopyHeaders [] [("Content-Type", [""])] ∅ !! "Content-Type"
      = Some (v :: vs) /\
    Header_Get (CopyHeaders [] [("Content-Type", [""])] ∅) "Content-Type" = v /\
    (v = "" -> exists vs', vs = (vs' ++ ["    "])%list).
Proof. apply (CopyHeaders_content_type [] [("Content-Type", [""])] ∅). Defined.

Lemma CopyHeaders_copies_witness :
  CopyHeaders ["Server"] [("Etag", ["v1"])] {["Server" := ["old"]]} !! "Server"
    = None /\
  CopyHeaders ["Server"] [("Etag", ["v1"])] {["Server" := ["old"]]} !! "Etag"
    = Some ["v1"] /\
  CopyHeaders ["Server"] [("Etag", ["v1"])] {["Server" := ["old"]]}
    !! "Content-Type" = Some ["    "].
Proof.
  destruct (CopyHeaders_copies ["Server"] [("Etag", ["v1"])]
              {["Etag" := ["v1"]]} {["Server" := ["old"]]}) as [H1 H2].
  - unfold key_order. by rewrite map_to_list_singleton.
  - unfold range_order. by rewrite map_to_list_singleton.
  - intros k [vs [<- _]%lookup_singleton_Some]. reflexivity.
  - intros k [vs [<- _]%lookup_singleton_Some]. reflexivity.
  - cbv zeta in H1, H2. split_and!.
    + rewrite (H1 "Server") by done. reflexivity.
    + rewrite (H1 "Etag") by done. reflexivity.
    + rewrite H2. reflexivity.
Defined.

Lemma fetch_under_dummy_key_witness :
  FetchAndStoreResponse redirectStore (exRequest "/a") "Dummy" false emptyWorld
    = FetchAndStoreResponse redirectStore (exRequest "/a")
        "http://example.com/a" false emptyWorld /\
  fs_Open
    (w_fs (run_on (FetchAndStoreResponse redirectStore (exRequest "/a")
                     "Dummy" false) emptyWorld))
    (contentPath redirectStore ResponseHeaderRecord "http://example.com/a")
    = inr (responseHeaderWire 302 (resp_Header redirected)).
Proof.
  destruct (fetch_under_dummy_key (lib := example_lib)
              (laws := mem_fs_lawful) redirectStore
              (exRequest "/a") "Dummy" false emptyWorld eq_refl) as [H1 H2].
  split; [exact H1|].
  destruct (H2 (run_on (FetchAndStoreResponse redirectStore (exRequest "/a")
                          "Dummy" false) emptyWorld))
    as (resp & Hresp & _ & Hopen);
    [apply run_returns; vm_compute; reflexivity|].
  injection Hresp as <-. exact Hopen.
Defined.

Lemma response_needs_both_records_witness :
  fst (RetrieveResponse exStore "a" emptyWorld)
    = (None, Some ErrNotFoundInStore) /\
  fst (RetrieveResponse exStore "a" bodyOnly)
    = (None, Some ErrNotFoundInStore).
Proof.
  destruct (response_needs_both_records (lib := example_lib)
              (rlaws := mem_fs_read_lawful) exStore "a" emptyWorld)
    as [H1 _]; [intros fi; vm_compute; discriminate|].
  destruct (response_needs_both_records (lib := example_lib)
              (rlaws := mem_fs_read_lawful) exStore "a" bodyOnly)
    as [_ H2]; [intros fi; vm_compute; discriminate|].
  split.
  - rewrite (H1 MemFS.ErrNotExist);
      [reflexivity|vm_compute; reflexivity|reflexivity].
  - rewrite (H2 "hello" MemFS.ErrNotExist);
      [reflexivity
      |vm_compute; reflexivity
      |discriminate
      |intros fi; vm_compute; discriminate
      |vm_compute; reflexivity
      |reflexivity].
Defined.

Lemma validators_after_round_trip_witness :
  HasValidators (NewResponse 200 (VfsFile "hello") {["ETag" := ["abc"]]})
    = false /\
  HasValidators (NewResponse 200 (VfsFile "hello")
                   (readBack {["ETag" := ["abc"]]})) = true.
Proof.
  split; [reflexivity|].
  apply (validators_after_round_trip 200 (VfsFile "hello")
           {["ETag" := ["abc"]]}).
  - apply valid_header_singleton; [reflexivity|repeat split].
  - exists "ETag", "abc", []. split_and!; [by right| |done].
    apply lookup_singleton_eq.
Defined.

Lemma store_calls_confined_witness :
  Forall (ownCall (contentPath exStore RequestRecord "a")) (w_log oneStored).
Proof.
  destruct (store_calls_confined (lib := example_lib) exStore RequestRecord
              "a" emptyWorld oneStored) as (cs & E & F).
  - exists (exRequest "/a"), false, (Return None). apply run_returns.
    vm_compute. reflexivity.
  - rewrite E. exact F.
Defined.

Lemma retrieve_value_xor_error_witness :
  fst (fst (RetrieveResponseHeader exStore "a" headerEmptied)) = mkHeader ∅ 0.
Proof.
  destruct (retrieve_value_xor_error (lib := example_lib) exStore "a"
              headerEmptied) as (_ & _ & H).
  apply (H EOF). vm_compute. reflexivity.
Defined.
